(** * The subscriber (write-forwarding) subsystem of openGemini

    A shallow embedding of [coordinator/subscriber.go]: destination
    clients, the dispatch writers with their bounded queue and worker
    pool, and the subscriber manager with its registry of writers.

    Go values are modelled as follows.
    - [int] is [Z]; slices are lists, a nil slice or nil interface value is
      [None] where the code tells nil from non-nil;
    - a pair [(value, error)] is a [go_result];
    - a run-time panic is the [Panic] outcome of the [Go] monad, which
      threads the mutated receiver and returns the observable effects
      (log records, client calls, queue operations) as a trace;
    - pointers to writers are locations in a heap, so that the registry
      and the code under verification share writers the way the Go
      program does;
    - the standard library and the network are oracles collected in [Sys],
      the metadata service is the record [MetaClient];
    - the model is sequential: the mutex of the round-robin cursor and the
      lock of the registry delimit steps that are atomic here, and the
      goroutines of a writer advance by explicit scheduling steps
      ([Run_step]). *)

From Stdlib Require Import ZArith String Ascii List Lia.
From stdpp Require Import base option list gmap strings.

Set Warnings "-clear-no-such-hyp".

Local Open Scope string_scope.
Local Open Scope list_scope.
Local Open Scope Z_scope.

(** ** Outcomes and the state-and-trace monad *)

Inductive outcome (A : Type) : Type :=
| Ok (a : A)
| Panic (msg : string).
Arguments Ok {A} a.
Arguments Panic {A} msg.

(** A Go pair [(v, err)]: [Success v] when [err == nil]. *)
Inductive go_result (A : Type) : Type :=
| Success (a : A)
| Failure (err : string).
Arguments Success {A} a.
Arguments Failure {A} err.

(** [Go S E A]: a method with receiver state [S], emitting events [E]. *)
Definition Go (S E A : Type) : Type := S -> outcome (A * S * list E).

Definition go_ret {S E A} (a : A) : Go S E A := fun s => Ok (a, s, []).

Definition go_bind {S E A B} (m : Go S E A) (k : A -> Go S E B) : Go S E B :=
  fun s =>
    match m s with
    | Panic msg => Panic msg
    | Ok (a, s1, t1) =>
        match k a s1 with
        | Panic msg => Panic msg
        | Ok (b, s2, t2) => Ok (b, s2, t1 ++ t2)
        end
    end.

Notation "x <~ m ; k" := (go_bind m (fun x => k))
  (at level 100, m at next level, k at level 200, right associativity).
Notation "'let*' p := m 'in' k" := (go_bind m (fun p => k))
  (at level 10, p pattern, m at level 100, k at level 200).
Notation "m ;;; k" := (go_bind m (fun _ => k))
  (at level 100, k at level 200, right associativity).

Definition go_get {S E} : Go S E S := fun s => Ok (s, s, []).
Definition go_put {S E} (s : S) : Go S E unit := fun _ => Ok (tt, s, []).
Definition go_emit {S E} (e : E) : Go S E unit := fun s => Ok (tt, s, [e]).
Definition go_panic {S E A} (msg : string) : Go S E A := fun _ => Panic msg.

(** [for _, x := range l { f x }] *)
Fixpoint go_range {S E A} (l : list A) (f : A -> Go S E unit) : Go S E unit :=
  match l with
  | [] => go_ret tt
  | x :: l' => f x ;;; go_range l' f
  end.

(** [l[i]] with Go's bounds check. *)
Definition index {A} (l : list A) (i : Z) : option A :=
  if i <? 0 then None else l !! Z.to_nat i.

Definition len {A} (l : list A) : Z := Z.of_nat (length l).

(** ** External types *)

Definition bytes : Type := list Byte.byte.

(** [*url.URL], with the result of [u.String()]. *)
Record URL : Type := mkURL {
  Scheme : string;
  Host : string;
  url_String : string
}.

(** A non-nil [array.Record]; the interface value is an [option]. *)
Record ArrowRecord : Type := mkArrowRecord {
  rec_Schema : list string;
  rec_Columns : list (list Z)
}.

Record tls_Config : Type := mk_tls_Config {
  InsecureSkipVerify : bool;
  RootCAs : option bytes
}.

(** An open [flight.FlightService_DoPutClient] stream. *)
Definition DoPutClient : Type := string.

(** The Go standard library, Arrow Flight and the network, as oracles. *)
Record Sys : Type := mkSys {
  url_Parse : string -> go_result URL;
  os_ReadFile : string -> go_result bytes;
  flight_NewFlightClient : string -> go_result unit;
  flight_DoPut : string -> go_result DoPutClient;
  (* POST url+"/write"?db=..&rp=.. : transport error, or status and body *)
  http_Post : string -> string -> string -> bytes -> go_result (Z * string);
  (* write one record on the stream under the given descriptor path *)
  flight_Write : DoPutClient -> string -> ArrowRecord -> go_result unit;
  (* the text of the error [fmt.Errorf(format)], called without operands:
     fmt rewrites the verbs that follow a % in the format *)
  fmt_Errorf : string -> string
}.

(** Fields of [config.Subscriber] read by this file. *)
Record Subscriber : Type := mkSubscriber {
  HTTPTimeout : Z;
  cfg_InsecureSkipVerify : bool;
  HttpsCertificate : string;
  WriteConcurrency : Z;
  WriteBufferSize : Z
}.

(** ** Destination clients *)

Inductive Client : Type :=
| HTTPClient (timeout : Z) (transport : option tls_Config) (url : URL)
| RPCClient (address : string) (client : option DoPutClient).

Definition quote : string := String (ascii_of_nat 34) EmptyString.

Definition flightPath (db rp mst : string) : string :=
  "{" +:+ quote +:+ "db" +:+ quote +:+ ": " +:+ quote +:+ db +:+ quote +:+ ", "
      +:+ quote +:+ "rp" +:+ quote +:+ ": " +:+ quote +:+ rp +:+ quote +:+ ", "
      +:+ quote +:+ "mst" +:+ quote +:+ ": " +:+ quote +:+ mst +:+ quote +:+ "}".

Section Clients.
Variable sys : Sys.

(** The returned [option string] is the Go [error] ([None] is nil).  The
    errors of [http.NewRequest], of [client.Do] and of reading the body are
    the [Failure] of the oracle [http_Post]. *)
Definition Client_Send (c : Client) (db rp : string) (lineProtocol : option bytes)
  : outcome (option string) :=
  match c with
  | HTTPClient _ _ u =>
      match http_Post sys (url_String u) db rp (default [] lineProtocol) with
      | Failure e => Ok (Some e)
      | Success (status, body) =>
          if negb (status =? 204) && negb (status =? 200)
          then Ok (Some (fmt_Errorf sys body)) else Ok None
      end
  | RPCClient _ _ => Ok (Some "rpc client dosen't send line protocol")
  end.

Definition Client_SendColumn (c : Client) (db rp mst : string) (record : option ArrowRecord)
  : outcome (option string) :=
  match c with
  | HTTPClient _ _ _ => Ok (Some "http client dosen't send column")
  | RPCClient _ stream =>
      match record with
      | None => Panic "invalid memory address or nil pointer dereference"
      | Some r =>
          match stream with
          | None => Panic "invalid memory address or nil pointer dereference"
          | Some st =>
              match flight_Write sys st (flightPath db rp mst) r with
              | Failure e => Ok (Some e)
              | Success _ => Ok None
              end
          end
      end
  end.

Definition Client_Destination (c : Client) : string :=
  match c with
  | HTTPClient _ _ u => url_String u
  | RPCClient a _ => a
  end.

Definition NewHTTPClient (u : URL) (timeout : Z) : Client :=
  HTTPClient timeout None u.

Definition NewHTTPSClient (u : URL) (timeout : Z) (skipVerify : bool) (certs : string)
  : go_result Client :=
  if String.eqb certs EmptyString
  then Success (HTTPClient timeout (Some (mk_tls_Config skipVerify None)) u)
  else match os_ReadFile sys certs with
       | Failure e => Failure e
       | Success caCert =>
           Success (HTTPClient timeout (Some (mk_tls_Config skipVerify (Some caCert))) u)
       end.

(** Both errors are discarded by the code ([client, _ :=], [doPutClient, _ :=]);
    a failed [NewFlightClient] leaves a nil [client], on which [DoPut] is
    then called. *)
Definition NewRPCClient (address : string) : outcome (go_result Client) :=
  match flight_NewFlightClient sys address with
  | Failure _ => Panic "invalid memory address or nil pointer dereference"
  | Success _ =>
      match flight_DoPut sys address with
      | Failure _ => Ok (Success (RPCClient address None))
      | Success st => Ok (Success (RPCClient address (Some st)))
      end
  end.
End Clients.

(** ** Write requests, the bounded queue and the worker pool *)

Record WriteRequest : Type := mkWriteRequest {
  wr_Client : Z;
  LineProtocol : option bytes;   (* nil slice = None *)
  Mst : string;
  wr_Record : option ArrowRecord   (* nil interface = None *)
}.

(** [chan WriteRequest]: the nil channel of a writer never started, an
    open channel with its capacity and buffered elements, or a closed
    channel with the elements still to be drained. *)
Inductive chan : Type :=
| ChNil
| ChOpen (capacity : nat) (buf : list WriteRequest)
| ChClosed (buf : list WriteRequest).

(** One goroutine executing [Run]: about to receive, blocked in the
    receive, holding a received request, or returned. *)
Inductive worker : Type :=
| Ready
| Parked
| Holding (wr : WriteRequest)
| Exited.

Inductive level : Type := Error | Info.

(** zap fields. *)
Inductive field : Type :=
| zString (key val : string)
| zStrings (key : string) (vals : list string)
| zError (err : string).

(** How the [select] in [Send] resolved. *)
Inductive enqueued : Type :=
| Buffered      (* stored in the channel buffer *)
| HandedOff     (* passed to a worker blocked in the receive *)
| Dropped.      (* default branch *)

Inductive call : Type :=
| CallSend (db rp : string) (lineProtocol : option bytes)
| CallSendColumn (db rp mst : string) (record : option ArrowRecord).

(** Effects of one writer. *)
Inductive wevent : Type :=
| EvSend (wr : WriteRequest) (how : enqueued)
| EvCall (client : Z) (c : call) (err : option string)
| EvLog (lvl : level) (msg : string) (fields : list field)
| EvStart (concurrency buffersize : Z)
| EvStop.

Record BaseWriter : Type := mkBaseWriter {
  ch : chan;
  clients : list Client;
  db : string;
  rp : string;
  name : string;
  workers : list worker   (* the goroutines launched by Start *)
}.

Definition with_ch (w : BaseWriter) (c : chan) : BaseWriter :=
  mkBaseWriter c (clients w) (db w) (rp w) (name w) (workers w).

Definition with_workers (w : BaseWriter) (ws : list worker) : BaseWriter :=
  mkBaseWriter (ch w) (clients w) (db w) (rp w) (name w) ws.

Definition NewBaseWriter (db rp name : string) (clients : list Client) : BaseWriter :=
  mkBaseWriter ChNil clients db rp name [].

(** Hands [wr] to the first worker blocked in the receive, if any. *)
Fixpoint handoff (wr : WriteRequest) (ws : list worker) : option (list worker) :=
  match ws with
  | [] => None
  | Parked :: ws' => Some (Holding wr :: ws')
  | x :: ws' => cons x <$> handoff wr ws'
  end.

(** Workers blocked in the receive return when the channel is closed. *)
Definition wake (x : worker) : worker :=
  match x with Parked => Exited | _ => x end.

Section Writers.
Variable sys : Sys.

(** The default branch of [Send]. *)
Definition Send_default (wr : WriteRequest) : Go BaseWriter wevent unit := fun w =>
  match index (clients w) (wr_Client wr) with
  | None => Panic "index out of range"
  | Some c =>
      Ok (tt, w,
          [EvSend wr Dropped;
           EvLog Error "failed to send write request to write buffer"
             [zString "dest" (Client_Destination c); zString "db" (db w); zString "rp" (rp w)]])
  end.

Definition BaseWriter_Send (wr : WriteRequest) : Go BaseWriter wevent unit := fun w =>
  match ch w with
  | ChNil => Send_default wr w
  | ChClosed _ => Panic "send on closed channel"
  | ChOpen cap buf =>
      match handoff wr (workers w) with
      | Some ws' => Ok (tt, with_workers w ws', [EvSend wr HandedOff])
      | None =>
          if (length buf <? cap)%nat
          then Ok (tt, with_ch w (ChOpen cap (buf ++ [wr])), [EvSend wr Buffered])
          else Send_default wr w
      end
  end.

(** The client method chosen by the loop of [Run] for the request [wr]. *)
Definition Run_call (w : BaseWriter) (wr : WriteRequest) : call :=
  match LineProtocol wr with
  | Some lp => CallSend (db w) (rp w) (Some lp)
  | None => CallSendColumn (db w) (rp w) (Mst wr) (wr_Record wr)
  end.

Definition Client_invoke (c : Client) (what : call) : outcome (option string) :=
  match what with
  | CallSend db rp lp => Client_Send sys c db rp lp
  | CallSendColumn db rp mst record => Client_SendColumn sys c db rp mst record
  end.

(** The body of the loop of [Run], for the received request [wr]. *)
Definition Run_body (wr : WriteRequest) : Go BaseWriter wevent unit := fun w =>
  match index (clients w) (wr_Client wr) with
  | None => Panic "index out of range"
  | Some c =>
      match Client_invoke c (Run_call w wr) with
      | Panic msg => Panic msg
      | Ok None => Ok (tt, w, [EvCall (wr_Client wr) (Run_call w wr) None])
      | Ok (Some err) =>
          Ok (tt, w,
              [EvCall (wr_Client wr) (Run_call w wr) (Some err);
               EvLog Error "failed to forward write request"
                 [zString "dest" (Client_Destination c); zString "db" (db w);
                  zString "rp" (rp w); zError err]])
      end
  end.

(** One scheduling step of worker number [k] of the pool. *)
Definition Run_step (k : nat) : Go BaseWriter wevent unit := fun w =>
  match workers w !! k with
  | Some Ready =>
      match ch w with
      | ChOpen cap (wr :: buf) =>
          Ok (tt, with_workers (with_ch w (ChOpen cap buf)) (<[k := Holding wr]> (workers w)), [])
      | ChClosed (wr :: buf) =>
          Ok (tt, with_workers (with_ch w (ChClosed buf)) (<[k := Holding wr]> (workers w)), [])
      | ChOpen _ [] | ChNil => Ok (tt, with_workers w (<[k := Parked]> (workers w)), [])
      | ChClosed [] => Ok (tt, with_workers w (<[k := Exited]> (workers w)), [])
      end
  | Some (Holding wr) =>
      (Run_body wr ;;; fun w' => Ok (tt, with_workers w' (<[k := Ready]> (workers w')), [])) w
  | Some Parked | Some Exited | None => Ok (tt, w, [])
  end.

Definition BaseWriter_Name (w : BaseWriter) : string := name w.
Definition BaseWriter_Clients (w : BaseWriter) : list Client := clients w.

(** [make] panics on a negative size.  A second [Start] would replace the
    channel; the goroutines of the first one are then lost to the model. *)
Definition BaseWriter_Start (concurrency buffersize : Z) : Go BaseWriter wevent unit :=
  fun w =>
    if buffersize <? 0 then Panic "makechan: size out of range"
    else Ok (tt,
             with_workers (with_ch w (ChOpen (Z.to_nat buffersize) []))
                          (repeat Ready (Z.to_nat concurrency)),
             [EvStart concurrency buffersize]).

Definition BaseWriter_Stop : Go BaseWriter wevent unit := fun w =>
  match ch w with
  | ChNil => Panic "close of nil channel"
  | ChClosed _ => Panic "close of closed channel"
  | ChOpen _ buf => Ok (tt, with_workers (with_ch w (ChClosed buf)) (wake <$> workers w), [EvStop])
  end.

(** ** The two dispatch strategies *)

(** The dynamic type behind the interface [SubscriberWriter]; the cursor
    [i] of the round-robin writer is guarded by its mutex. *)
Inductive SubscriberWriter : Type :=
| AllWriter (base : BaseWriter)
| RoundRobinWriter (base : BaseWriter) (i : Z).

Definition base (w : SubscriberWriter) : BaseWriter :=
  match w with AllWriter b | RoundRobinWriter b _ => b end.

(** Runs a method of the embedded [BaseWriter]. *)
Definition embedded {A} (m : Go BaseWriter wevent A) : Go SubscriberWriter wevent A :=
  fun w =>
    match m (base w) with
    | Panic msg => Panic msg
    | Ok (a, b, t) =>
        Ok (a, match w with
               | AllWriter _ => AllWriter b
               | RoundRobinWriter _ i => RoundRobinWriter b i
               end, t)
    end.

(** [for i := 0; i < len(w.clients); i++ { w.Send(mk i) }] *)
Definition AllWriter_loop (mk : Z -> WriteRequest) : Go BaseWriter wevent unit :=
  w <~ go_get ;
  go_range (seqZ 0 (len (clients w))) (fun i => BaseWriter_Send (mk i)).

(** The critical section of the round-robin writer: returns the old cursor. *)
Definition RoundRobin_next : Go SubscriberWriter wevent Z := fun w =>
  match w with
  | AllWriter _ => Panic "not a RoundRobinWriter"
  | RoundRobinWriter b i =>
      if len (clients b) =? 0 then Panic "integer divide by zero"
      else Ok (i, RoundRobinWriter b (Z.rem (i + 1) (len (clients b))), [])
  end.

Definition Write (lineProtocol : option bytes) : Go SubscriberWriter wevent unit := fun w =>
  match w with
  | AllWriter _ =>
      embedded (AllWriter_loop (fun i => mkWriteRequest i lineProtocol EmptyString None)) w
  | RoundRobinWriter _ _ =>
      (i <~ RoundRobin_next ;
       embedded (BaseWriter_Send (mkWriteRequest i lineProtocol EmptyString None))) w
  end.

Definition WriteColumn (mst : string) (record : option ArrowRecord)
  : Go SubscriberWriter wevent unit := fun w =>
  match w with
  | AllWriter _ =>
      embedded (AllWriter_loop (fun i => mkWriteRequest i None mst record)) w
  | RoundRobinWriter _ _ =>
      (i <~ RoundRobin_next ;
       embedded (BaseWriter_Send (mkWriteRequest i None mst record))) w
  end.

Definition Name (w : SubscriberWriter) : string := BaseWriter_Name (base w).
Definition Clients (w : SubscriberWriter) : list Client := BaseWriter_Clients (base w).
Definition Start (concurrency buffersize : Z) : Go SubscriberWriter wevent unit :=
  embedded (BaseWriter_Start concurrency buffersize).
Definition Stop : Go SubscriberWriter wevent unit := embedded BaseWriter_Stop.
Definition Run (k : nat) : Go SubscriberWriter wevent unit := embedded (Run_step k).
End Writers.

(** ** Metadata *)

(** Modelled from the spec: the types of package [meta] are declared outside
    this file.  A [DatabaseInfo] exposes its name, its default
    retention-policy name and its retention policies; a retention policy
    exposes an ordered list of subscriptions, each with a name, a mode and
    destination URIs.  [WalkRetentionPolicy] visits the retention policies,
    here in list order. *)
Record SubscriptionInfo : Type := mkSubscriptionInfo {
  sub_Name : string;
  sub_Mode : string;
  sub_Destinations : list string
}.

Record RetentionPolicyInfo : Type := mkRetentionPolicyInfo {
  rp_Name : string;
  Subscriptions : list SubscriptionInfo
}.

Record DatabaseInfo : Type := mkDatabaseInfo {
  db_Name : string;
  DefaultRetentionPolicy : string;
  RetentionPolicies : list RetentionPolicyInfo
}.

(** The interface [MetaClient].  [Databases] lists the values of the
    returned map in the order in which [range] happens to visit them. *)
Record MetaClient : Type := mkMetaClient {
  Databases : list DatabaseInfo;
  Database : string -> go_result DatabaseInfo;
  GetMaxSubscriptionID : N
}.

(** ** The subscriber manager *)

(** A pointer to a writer: its index in the heap. *)
Abbreviation loc := nat.

(** Effects of the manager: those of a writer it points to, and its own
    log records. *)
Inductive event : Type :=
| OnWriter (l : loc) (e : wevent)
| Log (lvl : level) (msg : string) (fields : list field).

Record SubscriberManager : Type := mkSubscriberManager {
  writers : gmap string (gmap string (list loc));
  heap : list SubscriberWriter;     (* the writers ever allocated *)
  lastModifiedID : N
}.

Definition with_writers (s : SubscriberManager) (m : gmap string (gmap string (list loc)))
  : SubscriberManager := mkSubscriberManager m (heap s) (lastModifiedID s).

Definition with_heap (s : SubscriberManager) (h : list SubscriberWriter)
  : SubscriberManager := mkSubscriberManager (writers s) h (lastModifiedID s).

Definition with_lastModifiedID (s : SubscriberManager) (n : N)
  : SubscriberManager := mkSubscriberManager (writers s) (heap s) n.

(** Calls a method on the writer at [l]; a location outside the heap
    stands for a nil interface value. *)
Definition on_writer {A} (l : loc) (m : Go SubscriberWriter wevent A)
  : Go SubscriberManager event A := fun s =>
  match heap s !! l with
  | None => Panic "invalid memory address or nil pointer dereference"
  | Some w =>
      match m w with
      | Panic msg => Panic msg
      | Ok (a, w', t) => Ok (a, with_heap s (<[l := w']> (heap s)), OnWriter l <$> t)
      end
  end.

(** [&T{...}] *)
Definition alloc (w : SubscriberWriter) : Go SubscriberManager event loc := fun s =>
  Ok (length (heap s), with_heap s (heap s ++ [w]), []).

(** [s.writers[db][rp]] with its [ok]. *)
Definition lookup_writers (s : SubscriberManager) (db rp : string) : option (list loc) :=
  match writers s !! db with
  | None => None
  | Some m => m !! rp
  end.

(** [s.writers[db][rp] = ws] *)
Definition store_writers (db rp : string) (ws : list loc) : Go SubscriberManager event unit :=
  fun s =>
    match writers s !! db with
    | None => Panic "assignment to entry in nil map"
    | Some m => Ok (tt, with_writers s (<[db := <[rp := ws]> m]> (writers s)), [])
    end.

Definition writer_Name (l : loc) : Go SubscriberManager event string :=
  on_writer l (fun w => Ok (Name w, w, [])).

Section Manager.
Variable sys : Sys.
Variable config : Subscriber.

Definition newClient (dest : string) : outcome (go_result Client) :=
  match url_Parse sys dest with
  | Failure err => Ok (Failure ("fail to parse " +:+ err))
  | Success u =>
      if String.eqb (Scheme u) "http" then
        Ok (Success (NewHTTPClient u (HTTPTimeout config)))
      else if String.eqb (Scheme u) "https" then
        Ok (NewHTTPSClient sys u (HTTPTimeout config) (cfg_InsecureSkipVerify config)
              (HttpsCertificate config))
      else if String.eqb (Scheme u) "rpc" then
        NewRPCClient sys (Host u)
      else Ok (Failure ("unknown subscription schema " +:+ Scheme u))
  end.

(** The loop over the destinations, [clients] being the slice built so far. *)
Fixpoint newClients (destinations : list string) (clients : list Client)
  : outcome (go_result (list Client)) :=
  match destinations with
  | [] => Ok (Success clients)
  | dest :: rest =>
      match newClient dest with
      | Panic msg => Panic msg
      | Ok (Failure err) => Ok (Failure err)
      | Ok (Success c) => newClients rest (clients ++ [c])
      end
  end.

Definition NewSubscriberWriter (db rp name mode : string) (destinations : list string)
  : Go SubscriberManager event (go_result loc) :=
  match newClients destinations [] with
  | Panic msg => go_panic msg
  | Ok (Failure err) => go_ret (Failure err)
  | Ok (Success clients) =>
      if String.eqb mode "ALL" then
        l <~ alloc (AllWriter (NewBaseWriter db rp name clients)) ; go_ret (Success l)
      else if String.eqb mode "ANY" then
        l <~ alloc (RoundRobinWriter (NewBaseWriter db rp name clients) 0) ; go_ret (Success l)
      else go_ret (Failure ("unknown subscription mode " +:+ mode))
  end.

Definition sub_fields (db rp : string) (sub : SubscriptionInfo) : list field :=
  [zString "db" db; zString "rp" rp; zString "sub" (sub_Name sub);
   zStrings "dest" (sub_Destinations sub)].

(** Constructs and starts the writer of [sub], appending it to [ws]. *)
Definition add_writer (msg db rp : string) (sub : SubscriptionInfo) (ws : list loc)
  : Go SubscriberManager event (list loc * bool) :=
  r <~ NewSubscriberWriter db rp (sub_Name sub) (sub_Mode sub) (sub_Destinations sub) ;
  match r with
  | Failure _ =>
      go_emit (Log Error "fail to create subscriber" (sub_fields db rp sub)) ;;;
      go_ret (ws, false)
  | Success l =>
      on_writer l (Start (WriteConcurrency config) (WriteBufferSize config)) ;;;
      go_emit (Log Info msg (sub_fields db rp sub)) ;;;
      go_ret (ws ++ [l], true)
  end.

Fixpoint InitWriters_subs (db rp : string) (subs : list SubscriptionInfo) (ws : list loc)
  : Go SubscriberManager event (list loc) :=
  match subs with
  | [] => go_ret ws
  | sub :: subs' =>
      let* (ws', _) := add_writer "initialize subscriber writer" db rp sub ws in
      InitWriters_subs db rp subs' ws'
  end.

Definition InitWriters_db (dbi : DatabaseInfo) : Go SubscriberManager event unit :=
  s <~ go_get ;
  go_put (with_writers s (<[db_Name dbi := ∅]> (writers s))) ;;;
  go_range (RetentionPolicies dbi) (fun rpi =>
    ws <~ InitWriters_subs (db_Name dbi) (rp_Name rpi) (Subscriptions rpi) [] ;
    store_writers (db_Name dbi) (rp_Name rpi) ws).

(** [for _, w := range writers { originSubs[w.Name()] = struct{}{} }] *)
Fixpoint origin_names (ws : list loc) (originSubs : gset string)
  : Go SubscriberManager event (gset string) :=
  match ws with
  | [] => go_ret originSubs
  | l :: ws' => n <~ writer_Name l ; origin_names ws' ({[n]} ∪ originSubs)
  end.

(** The loop "add new subscriptions". *)
Fixpoint UpdateWriters_add (db rp : string) (subs : list SubscriptionInfo)
    (ws : list loc) (originSubs : gset string) (changed : bool)
  : Go SubscriberManager event (list loc * gset string * bool) :=
  match subs with
  | [] => go_ret (ws, originSubs, changed)
  | sub :: subs' =>
      let* (ws', changed') :=
        (if decide (sub_Name sub ∈ originSubs) then go_ret (ws, changed)
         else let* (ws', added) := add_writer "add new subscriber writer" db rp sub ws in
              go_ret (ws', added || changed)) in
      UpdateWriters_add db rp subs' ws' (originSubs ∖ {[sub_Name sub]}) changed'
  end.

(** The compaction loop: returns [writers[0:position]]. *)
Fixpoint UpdateWriters_remove (db rp : string) (originSubs : gset string) (ws : list loc)
  : Go SubscriberManager event (list loc) :=
  match ws with
  | [] => go_ret []
  | l :: ws' =>
      n <~ writer_Name l ;
      if decide (n ∈ originSubs) then
        on_writer l Stop ;;;
        n' <~ writer_Name l ;
        go_emit (Log Info "remove subscriber writer"
                   [zString "db" db; zString "rp" rp; zString "sub" n']) ;;;
        UpdateWriters_remove db rp originSubs ws'
      else
        kept <~ UpdateWriters_remove db rp originSubs ws' ;
        go_ret (l :: kept)
  end.

(** The function literal passed to [WalkRetentionPolicy] in [UpdateWriters],
    from "record origin subscription names in a set" on: [ws0] is the
    slice [writers] and [changed0] the flag [changed] at that point. *)
Definition UpdateWriters_rp_body (db : string) (rpi : RetentionPolicyInfo)
    (ws0 : list loc) (changed0 : bool)
  : Go SubscriberManager event unit :=
  originSubs <~ origin_names ws0 ∅ ;
  let* (ws1, originSubs', changed) :=
    UpdateWriters_add db (rp_Name rpi) (Subscriptions rpi) ws0 originSubs changed0 in
  if decide (size originSubs' = 0%nat) then
    if changed then store_writers db (rp_Name rpi) ws1 else go_ret tt
  else
    ws2 <~ UpdateWriters_remove db (rp_Name rpi) originSubs' ws1 ;
    store_writers db (rp_Name rpi) ws2.

(** The function literal passed to [WalkRetentionPolicy] in [UpdateWriters]. *)
Definition UpdateWriters_rp (db : string) (rpi : RetentionPolicyInfo)
  : Go SubscriberManager event unit :=
  s <~ go_get ;
  match lookup_writers s db (rp_Name rpi) with
  | Some ws => UpdateWriters_rp_body db rpi ws false
  | None => UpdateWriters_rp_body db rpi [] true
  end.

Definition UpdateWriters_db (dbi : DatabaseInfo) : Go SubscriberManager event unit :=
  s <~ go_get ;
  match writers s !! db_Name dbi with
  | Some _ => go_ret tt
  | None => go_put (with_writers s (<[db_Name dbi := ∅]> (writers s)))
  end ;;;
  go_range (RetentionPolicies dbi) (UpdateWriters_rp (db_Name dbi)).

Section WithMeta.
Variable client : MetaClient.

Definition WalkDatabases (fn : DatabaseInfo -> Go SubscriberManager event unit)
  : Go SubscriberManager event unit :=
  go_range (Databases client) fn.

Definition InitWriters : Go SubscriberManager event unit :=
  WalkDatabases InitWriters_db ;;;
  s <~ go_get ;
  go_put (with_lastModifiedID s (GetMaxSubscriptionID client)).

Definition UpdateWriters : Go SubscriberManager event unit :=
  WalkDatabases UpdateWriters_db.

(** The resolution of an empty retention policy in [Send] and [SendColumn]. *)
Definition resolve_rp (db rp : string) : Go SubscriberManager event string :=
  if String.eqb rp EmptyString then
    match Database client db with
    | Failure _ => go_emit (Log Error "unknown database" [zString "db" db]) ;;; go_ret rp
    | Success dbi => go_ret (DefaultRetentionPolicy dbi)
    end
  else go_ret rp.

Definition SubscriberManager_Send (db rp : string) (lineProtocal : option bytes)
  : Go SubscriberManager event unit :=
  rp' <~ resolve_rp db rp ;
  s <~ go_get ;
  match lookup_writers s db rp' with
  | Some ws => go_range ws (fun l => on_writer l (Write lineProtocal))
  | None => go_ret tt
  end.

Definition SubscriberManager_SendColumn (db rp mst : string) (record : option ArrowRecord)
  : Go SubscriberManager event unit :=
  rp' <~ resolve_rp db rp ;
  s <~ go_get ;
  match lookup_writers s db rp' with
  | Some ws => go_range ws (fun l => on_writer l (WriteColumn mst record))
  | None => go_ret tt
  end.

(** One turn of the loop of [Update], once the change signal arrived. *)
Definition Update_turn : Go SubscriberManager event unit :=
  s <~ go_get ;
  let maxSubscriptionID := GetMaxSubscriptionID client in
  if (lastModifiedID s <? maxSubscriptionID)%N then
    UpdateWriters ;;;
    s' <~ go_get ;
    go_put (with_lastModifiedID s' maxSubscriptionID)
  else go_ret tt.
End WithMeta.

(** The maps are visited in the order of [map_to_list]. *)
Definition StopAllWriters : Go SubscriberManager event unit :=
  s <~ go_get ;
  go_range (map_to_list (writers s)) (fun db =>
    go_range (map_to_list db.2) (fun rp =>
      go_range rp.2 (fun l => on_writer l Stop))).

Definition NewSubscriberManager : SubscriberManager :=
  mkSubscriberManager ∅ [] 0%N.
End Manager.

(** ** Observations on traces *)

(** The requests passed to [BaseWriter.Send], in order. *)
Definition attempts (t : list wevent) : list WriteRequest :=
  omap (fun e => match e with EvSend wr _ => Some wr | _ => None end) t.

(** The requests stored in the channel buffer, in order. *)
Definition buffered (t : list wevent) : list WriteRequest :=
  omap (fun e => match e with EvSend wr Buffered => Some wr | _ => None end) t.

(** The requests that took the default branch, in order. *)
Definition dropped (t : list wevent) : list WriteRequest :=
  omap (fun e => match e with EvSend wr Dropped => Some wr | _ => None end) t.

(** The error records written by a writer. *)
Definition errors_logged (t : list wevent) : list (string * list field) :=
  omap (fun e => match e with EvLog Error msg fs => Some (msg, fs) | _ => None end) t.

(** A writer whose channel has been closed. *)
Definition stopped (w : BaseWriter) : bool :=
  match ch w with ChClosed _ => true | _ => false end.

(** The locations on which [Start], respectively [Stop], ran. *)
Definition started_locs (t : list event) : list loc :=
  omap (fun e => match e with OnWriter l (EvStart _ _) => Some l | _ => None end) t.

Definition stopped_locs (t : list event) : list loc :=
  omap (fun e => match e with OnWriter l EvStop => Some l | _ => None end) t.

(** Every request forwarded to some writer, with the writer's location. *)
Definition forwarded (t : list event) : list (loc * WriteRequest) :=
  omap (fun e => match e with OnWriter l (EvSend wr _) => Some (l, wr) | _ => None end) t.

Definition name_at (h : list SubscriberWriter) (l : loc) : option string :=
  Name <$> h !! l.

(** ** A sample deployment, used to exercise the model *)

Module Sample.
(** A parser for the four URI shapes used below. *)
Definition parse (s : string) : go_result URL :=
  if String.prefix "http://" s then
    Success (mkURL "http" (substring 7 (String.length s) s) s)
  else if String.prefix "https://" s then
    Success (mkURL "https" (substring 8 (String.length s) s) s)
  else if String.prefix "rpc://" s then
    Success (mkURL "rpc" (substring 6 (String.length s) s) s)
  else if String.prefix "ftp://" s then
    Success (mkURL "ftp" (substring 6 (String.length s) s) s)
  else Failure "missing protocol scheme".

(** No certificate file can be read, the Flight endpoint accepts the
    connection but refuses the upload stream, HTTP answers 204 with an empty
    body, and a format without a % is the text of its error. *)
Definition sys : Sys :=
  mkSys parse
        (fun _ => Failure "no such file or directory")
        (fun _ => Success tt)
        (fun _ => Failure "rpc error: code = Unauthenticated")
        (fun _ _ _ _ => Success (204, EmptyString))
        (fun _ _ _ => Success tt)
        (fun format => format).

Definition config : Subscriber := mkSubscriber 30 false EmptyString 1 2.

Definition payload : bytes := [Byte.x63; Byte.x70; Byte.x75].

Definition http1 : Client := HTTPClient 30 None (mkURL "http" "a:1" "http://a:1").
Definition http2 : Client := HTTPClient 30 None (mkURL "http" "a:2" "http://a:2").

Definition base0 : BaseWriter := NewBaseWriter "db0" "rp0" "sub" [http1; http2].

Definition subA : SubscriptionInfo := mkSubscriptionInfo "A" "ALL" ["http://a:1"; "http://a:2"].
Definition subB : SubscriptionInfo := mkSubscriptionInfo "B" "ANY" ["http://b:1"; "http://b:2"].
Definition subC : SubscriptionInfo := mkSubscriptionInfo "C" "ALL" ["http://c:1"].
Definition subD : SubscriptionInfo := mkSubscriptionInfo "D" "ANY" ["http://d:1"].
Definition subRPC : SubscriptionInfo := mkSubscriptionInfo "R" "ALL" ["rpc://r:8087"].

Definition rpABC : RetentionPolicyInfo := mkRetentionPolicyInfo "rp0" [subA; subB; subC].
Definition rpAD : RetentionPolicyInfo := mkRetentionPolicyInfo "rp0" [subA; subD].

Definition metaABC : MetaClient :=
  mkMetaClient [mkDatabaseInfo "db0" "rp0" [rpABC]]
               (fun _ => Failure "database not found") 3%N.
Definition metaAD : MetaClient :=
  mkMetaClient [mkDatabaseInfo "db0" "rp0" [rpAD]]
               (fun _ => Failure "database not found") 4%N.

(** The manager after [InitWriters] on [metaABC]. *)
Definition managerABC : SubscriberManager :=
  match InitWriters sys config metaABC NewSubscriberManager with
  | Ok (_, s, _) => s
  | Panic _ => NewSubscriberManager
  end.

(** The manager and the trace after [UpdateWriters] on [metaAD]. *)
Definition managerAD : SubscriberManager :=
  match UpdateWriters sys config metaAD managerABC with
  | Ok (_, s, _) => s
  | Panic _ => NewSubscriberManager
  end.

Definition traceAD : list event :=
  match UpdateWriters sys config metaAD managerABC with
  | Ok (_, _, t) => t
  | Panic _ => []
  end.

(** The writer that [subD] asks for, before [Start]. *)
Definition writerD : SubscriberWriter :=
  RoundRobinWriter
    (NewBaseWriter "db0" "rp0" "D" [HTTPClient 30 None (mkURL "http" "d:1" "http://d:1")]) 0.

(** A started writer with two clients, and a writer without clients. *)
Definition running0 : BaseWriter :=
  mkBaseWriter (ChOpen 2 []) [http1; http2] "db0" "rp0" "sub" [Ready].

Definition empty0 : BaseWriter := NewBaseWriter "db0" "rp0" "sub" [].

Definition request0 : WriteRequest := mkWriteRequest 0 (Some payload) EmptyString None.
Definition request1 : WriteRequest := mkWriteRequest 1 None "cpu" None.

(** A broadcast writer after [Write] with a nil payload, and after [Write]
    with an empty payload. *)
Definition after_nil : SubscriberWriter :=
  match Write None (AllWriter running0) with
  | Ok (_, w, _) => w
  | Panic _ => AllWriter running0
  end.

Definition after_empty : SubscriberWriter :=
  match Write (Some []) (AllWriter running0) with
  | Ok (_, w, _) => w
  | Panic _ => AllWriter running0
  end.

(** A metadata service that knows [db0], and one whose database has a
    retention policy with the empty name. *)
Definition db0 : DatabaseInfo := mkDatabaseInfo "db0" "rp0" [rpABC].

Definition metaKnown : MetaClient :=
  mkMetaClient [db0]
               (fun d => if String.eqb d "db0" then Success db0
                         else Failure "database not found") 3%N.

Definition metaUnnamed : MetaClient :=
  mkMetaClient [mkDatabaseInfo "db0" EmptyString [mkRetentionPolicyInfo EmptyString [subA]]]
               (fun _ => Failure "database not found") 1%N.

(** The manager after [InitWriters] on [metaUnnamed]. *)
Definition managerUnnamed : SubscriberManager :=
  match InitWriters sys config metaUnnamed NewSubscriberManager with
  | Ok (_, s, _) => s
  | Panic _ => NewSubscriberManager
  end.
End Sample.

(** ** Vocabulary of the specification *)

(** What [Send] leaves alone. *)
Definition same_writer (b b' : BaseWriter) : Prop :=
  clients b' = clients b /\ db b' = db b /\ rp b' = rp b /\ name b' = name b.

(** The record written by the default branch of [Send] for [wr]. *)
Definition drop_record (b : BaseWriter) (wr : WriteRequest) : list (string * list field) :=
  match index (clients b) (wr_Client wr) with
  | None => []
  | Some c =>
      [("failed to send write request to write buffer",
        [zString "dest" (Client_Destination c); zString "db" (db b); zString "rp" (rp b)])]
  end.

(** The writer at [l] carries a name of [names]; false for a nil writer. *)
Definition named_in (h : list SubscriberWriter) (names : gset string) (l : loc) : Prop :=
  match name_at h l with
  | Some n => n ∈ names
  | None => False
  end.

Global Instance named_in_dec h names l : Decision (named_in h names l).
Proof. unfold named_in. destruct (name_at h l); apply _. Defined.

(** The names of the writers at [ws]. *)
Definition names_at (h : list SubscriberWriter) (ws : list loc) : list string :=
  omap (name_at h) ws.

(** A writer that has been started and not stopped. *)
Definition running (h : list SubscriberWriter) (l : loc) : Prop :=
  exists w cap buf, h !! l = Some w /\ ch (base w) = ChOpen cap buf.

(** The writer [w] after its channel has been closed. *)
Definition closed (w : SubscriberWriter) : SubscriberWriter :=
  let close b :=
    match ch b with
    | ChOpen _ buf => with_workers (with_ch b (ChClosed buf)) (wake <$> workers b)
    | _ => b
    end in
  match w with
  | AllWriter b => AllWriter (close b)
  | RoundRobinWriter b i => RoundRobinWriter (close b) i
  end.

(** A trace on which no writer is started or stopped. *)
Definition quiet (t : list event) : Prop :=
  started_locs t = [] /\ stopped_locs t = [].

(** Names identify subscriptions within a retention policy, retention
    policies within a database, and databases. *)
Definition wf_rp (rpi : RetentionPolicyInfo) : Prop :=
  NoDup (sub_Name <$> Subscriptions rpi).

Definition wf_db (dbi : DatabaseInfo) : Prop :=
  NoDup (rp_Name <$> RetentionPolicies dbi) /\ Forall wf_rp (RetentionPolicies dbi).

Definition wf_meta (client : MetaClient) : Prop :=
  NoDup (db_Name <$> Databases client) /\ Forall wf_db (Databases client).

(** The manager after the first statement of the function literal passed
    to [WalkDatabases] in [UpdateWriters]. *)
Definition ensured (db : string) (s : SubscriberManager) : SubscriberManager :=
  match writers s !! db with
  | Some _ => s
  | None => with_writers s (<[db := ∅]> (writers s))
  end.



Section Vocabulary.
Variable sys : Sys.
Variable config : Subscriber.

(** The writer that [NewSubscriberWriter] allocates, if any. *)
Definition new_writer (db rp name mode : string) (destinations : list string)
  : outcome (go_result SubscriberWriter) :=
  match newClients sys config destinations [] with
  | Panic msg => Panic msg
  | Ok (Failure err) => Ok (Failure err)
  | Ok (Success clients) =>
      if String.eqb mode "ALL" then
        Ok (Success (AllWriter (NewBaseWriter db rp name clients)))
      else if String.eqb mode "ANY" then
        Ok (Success (RoundRobinWriter (NewBaseWriter db rp name clients) 0))
      else Ok (Failure ("unknown subscription mode " +:+ mode))
  end.

Definition sub_writer (db rp : string) (sub : SubscriptionInfo)
  : outcome (go_result SubscriberWriter) :=
  new_writer db rp (sub_Name sub) (sub_Mode sub) (sub_Destinations sub).

(** The state of a writer after a successful [Start]. *)
Definition started (w : SubscriberWriter) : SubscriberWriter :=
  let start b :=
    with_workers (with_ch b (ChOpen (Z.to_nat (WriteBufferSize config)) []))
                 (repeat Ready (Z.to_nat (WriteConcurrency config))) in
  match w with
  | AllWriter b => AllWriter (start b)
  | RoundRobinWriter b i => RoundRobinWriter (start b) i
  end.

(** The writers that the loop over the subscriptions allocates and starts. *)
Fixpoint created (db rp : string) (subs : list SubscriptionInfo) (originSubs : gset string)
  : list SubscriberWriter :=
  match subs with
  | [] => []
  | sub :: subs' =>
      (if decide (sub_Name sub ∈ originSubs) then []
       else match sub_writer db rp sub with
            | Ok (Success w) => [started w]
            | _ => []
            end)
        ++ created db rp subs' (originSubs ∖ {[sub_Name sub]})
  end.

(** The registry entry of [(db, rpi)] agrees with the subscriptions of
    [rpi]: every writer of the entry carries the name of a subscription,
    and every subscription without a writer cannot be constructed. *)
Definition settled (s : SubscriberManager) (db : string) (rpi : RetentionPolicyInfo) : Prop :=
  exists ws,
    lookup_writers s db (rp_Name rpi) = Some ws /\
    Forall (named_in (heap s) (list_to_set (sub_Name <$> Subscriptions rpi))) ws /\
    Forall (fun sub => sub_Name sub ∈ names_at (heap s) ws \/
                       exists e, sub_writer db (rp_Name rpi) sub = Ok (Failure e))
           (Subscriptions rpi).

Definition settled_db (s : SubscriberManager) (dbi : DatabaseInfo) : Prop :=
  is_Some (writers s !! db_Name dbi) /\
  Forall (settled s (db_Name dbi)) (RetentionPolicies dbi).
End Vocabulary.

(** ** Vocabulary of the further properties *)

(** The client calls made by the workers, in order. *)
Definition calls (t : list wevent) : list (Z * call) :=
  omap (fun e => match e with EvCall c what _ => Some (c, what) | _ => None end) t.

(** [n] consecutive scheduling steps of worker [k]. *)
Fixpoint Run_steps (sys : Sys) (k : nat) (n : nat) : Go BaseWriter wevent unit :=
  match n with
  | O => go_ret tt
  | S n' => Run_step sys k ;;; Run_steps sys k n'
  end.

(** A call of [Write] or of [WriteColumn]. *)
Inductive dispatch : Type :=
| DoWrite (lineProtocol : option bytes)
| DoWriteColumn (mst : string) (record : option ArrowRecord).

Definition perform (d : dispatch) : Go SubscriberWriter wevent unit :=
  match d with
  | DoWrite lineProtocol => Write lineProtocol
  | DoWriteColumn mst record => WriteColumn mst record
  end.

(** The request that the call [d] builds for the client index [i]. *)
Definition request_of (i : Z) (d : dispatch) : WriteRequest :=
  match d with
  | DoWrite lineProtocol => mkWriteRequest i lineProtocol EmptyString None
  | DoWriteColumn mst record => mkWriteRequest i None mst record
  end.

(** The record written by the loop of [Run] for the error [err] of the
    client [c]. *)
Definition forward_record (b : BaseWriter) (c : Client) (err : string) : wevent :=
  EvLog Error "failed to forward write request"
    [zString "dest" (Client_Destination c); zString "db" (db b); zString "rp" (rp b);
     zError err].

(** The request [wr] can be forwarded by the writer [b] without a panic. *)
Definition deliverable (sys : Sys) (b : BaseWriter) (wr : WriteRequest) : Prop :=
  exists c r, index (clients b) (wr_Client wr) = Some c /\
              Client_invoke sys c (Run_call b wr) = Ok r.

(** The error records written by the manager itself. *)
Definition errors_at (t : list event) : list (string * list field) :=
  omap (fun e => match e with Log Error msg fs => Some (msg, fs) | _ => None end) t.

(** The manager after [s.writers[db] = make(...)] in [InitWriters]. *)
Definition reset (db : string) (s : SubscriberManager) : SubscriberManager :=
  with_writers s (<[db := ∅]> (writers s)).

(** An effect of [Send] on a writer's queue: an attempt to enqueue, or
    the record of a drop. *)
Definition enqueue_only (e : wevent) : Prop :=
  match e with
  | EvSend _ _ | EvLog Error _ _ => True
  | _ => False
  end.

(** [s.Send] or [s.SendColumn], by the kind of the call. *)
Definition SubscriberManager_perform (client : MetaClient) (db rp : string) (d : dispatch)
  : Go SubscriberManager event unit :=
  match d with
  | DoWrite lineProtocol => SubscriberManager_Send client db rp lineProtocol
  | DoWriteColumn mst record => SubscriberManager_SendColumn client db rp mst record
  end.

(** The writer at [l] exists and its channel is closed. *)
Definition closed_at (s : SubscriberManager) (l : loc) : Prop :=
  exists w, heap s !! l = Some w /\ stopped (base w) = true.

(** From [s] to [s'] the registry is kept and every closed writer is
    still closed. *)
Definition stops_more (s s' : SubscriberManager) : Prop :=
  writers s' = writers s /\ lastModifiedID s' = lastModifiedID s /\
  forall l, closed_at s l -> closed_at s' l.

(** The writers of the registry, in the order in which [StopAllWriters]
    visits them. *)
Definition registered (s : SubscriberManager) : list loc :=
  map_to_list (writers s) ≫= (fun db => map_to_list db.2 ≫= snd).

Section Vocabulary2.
Variable sys : Sys.
Variable config : Subscriber.

(** The writers that [InitWriters] allocates and starts for the
    subscriptions [subs], in order. *)
Definition initialized (db rp : string) (subs : list SubscriptionInfo)
  : list SubscriberWriter :=
  omap (fun sub => match sub_writer sys config db rp sub with
                   | Ok (Success w) => Some (started config w)
                   | _ => None
                   end) subs.

(** The records that [InitWriters] and [UpdateWriters] write for the
    subscriptions of [subs] that cannot be constructed. *)
Definition construction_errors (db rp : string) (subs : list SubscriptionInfo)
  : list (string * list field) :=
  omap (fun sub => match sub_writer sys config db rp sub with
                   | Ok (Failure _) => Some ("fail to create subscriber", sub_fields db rp sub)
                   | _ => None
                   end) subs.

(** The function literal passed to [WalkRetentionPolicy] in [InitWriters]. *)
Definition InitWriters_rp (db : string) (rpi : RetentionPolicyInfo)
  : Go SubscriberManager event unit :=
  ws <~ InitWriters_subs sys config db (rp_Name rpi) (Subscriptions rpi) [] ;
  store_writers db (rp_Name rpi) ws.
End Vocabulary2.

(** ** Further sample data *)

Module Sample2.
Import Sample.

(** A stopped writer with two requests left in its queue, a writer whose
    only worker waits in the receive, and a writer with an rpc client. *)
Definition draining0 : BaseWriter :=
  mkBaseWriter (ChClosed [request0; request1]) [http1; http2] "db0" "rp0" "sub" [Ready].

Definition waiting0 : BaseWriter :=
  mkBaseWriter (ChOpen 0 []) [http1; http2] "db0" "rp0" "sub" [Parked].

Definition rpc0 : BaseWriter :=
  mkBaseWriter (ChOpen 2 []) [RPCClient "r:8087" None] "db0" "rp0" "sub" [Ready].

(** A column request without a record, for the first client. *)
Definition column0 : WriteRequest := mkWriteRequest 0 None "cpu" None.

Definition subBad : SubscriptionInfo := mkSubscriptionInfo "bad" "ALL" ["ftp://x"].

(** The subscriptions of [rpABC] under the same names, with other modes
    and destinations. *)
Definition rpABC' : RetentionPolicyInfo :=
  mkRetentionPolicyInfo "rp0"
    [mkSubscriptionInfo "A" "ANY" ["http://z:1"];
     mkSubscriptionInfo "B" "ALL" ["http://z:2"];
     mkSubscriptionInfo "C" "ANY" ["rpc://z:3"]].

(** A retention policy that lists the name A twice. *)
Definition rpAA : RetentionPolicyInfo := mkRetentionPolicyInfo "rp0" [subA; subA].

Definition writerA : SubscriberWriter :=
  AllWriter (NewBaseWriter "db0" "rp0" "A" [http1; http2]).

(** The state and the effects of a run from [s]. *)
Definition state_of (m : Go SubscriberManager event unit) (s : SubscriberManager)
  : SubscriberManager :=
  match m s with
  | Ok (_, s', _) => s'
  | Panic _ => s
  end.

Definition trace_of (m : Go SubscriberManager event unit) (s : SubscriberManager)
  : list event :=
  match m s with
  | Ok (_, _, t) => t
  | Panic _ => []
  end.

Definition trace_of_writer (m : Go SubscriberWriter wevent unit) (w : SubscriberWriter)
  : list wevent :=
  match m w with
  | Ok (_, _, t) => t
  | Panic _ => []
  end.

(** [InitWriters] on [metaABC], from the empty manager. *)
Definition traceABC : list event :=
  trace_of (InitWriters sys config metaABC) NewSubscriberManager.

(** [UpdateWriters] on [metaAD], from a manager whose only entry is not
    listed by [metaAD]. *)
Definition managerKept : SubscriberManager :=
  state_of (UpdateWriters sys config metaAD) managerUnnamed.
Definition traceKept : list event :=
  trace_of (UpdateWriters sys config metaAD) managerUnnamed.

(** [Send] without a retention policy and [SendColumn] with one. *)
Definition managerSent : SubscriberManager :=
  state_of (SubscriberManager_perform metaKnown "db0" EmptyString (DoWrite (Some payload)))
           managerABC.
Definition traceSent : list event :=
  trace_of (SubscriberManager_perform metaKnown "db0" EmptyString (DoWrite (Some payload)))
           managerABC.

Definition managerSentColumn : SubscriberManager :=
  state_of (SubscriberManager_perform metaABC "db0" "rp0" (DoWriteColumn "cpu" None))
           managerABC.
Definition traceSentColumn : list event :=
  trace_of (SubscriberManager_perform metaABC "db0" "rp0" (DoWriteColumn "cpu" None))
           managerABC.

(** [StopAllWriters] after [InitWriters] on [metaABC]. *)
Definition managerStopped : SubscriberManager := state_of StopAllWriters managerABC.
Definition traceStopped : list event := trace_of StopAllWriters managerABC.

(** The reconciliation of the entry of [managerABC] against [rpAD], and
    against [rpAA]. *)
Definition traceRpAD : list event :=
  trace_of (UpdateWriters_rp sys config "db0" rpAD) managerABC.

Definition managerAA : SubscriberManager :=
  state_of (UpdateWriters_rp sys config "db0" rpAA) managerABC.
Definition traceAA : list event :=
  trace_of (UpdateWriters_rp sys config "db0" rpAA) managerABC.
End Sample2.

(** * Properties *)

(** ** Bounds and traces *)

Lemma index_is_Some {A} (l : list A) (i : Z) :
  0 <= i < len l -> is_Some (index l i).
Proof.
  intros [Hlo Hhi]. unfold index, len in *.
  destruct (Z.ltb_spec i 0) as [|_]; [lia|].
  apply lookup_lt_is_Some. lia.
Qed.

Lemma index_Some_bounds {A} (l : list A) (i : Z) (x : A) :
  index l i = Some x -> 0 <= i < len l.
Proof.
  unfold index, len. destruct (Z.ltb_spec i 0) as [|Hge]; [discriminate|].
  intros H%lookup_lt_Some. lia.
Qed.

Lemma attempts_app (t1 t2 : list wevent) :
  attempts (t1 ++ t2) = attempts t1 ++ attempts t2.
Proof. apply omap_app. Qed.

Lemma buffered_app (t1 t2 : list wevent) :
  buffered (t1 ++ t2) = buffered t1 ++ buffered t2.
Proof. apply omap_app. Qed.

Lemma dropped_app (t1 t2 : list wevent) :
  dropped (t1 ++ t2) = dropped t1 ++ dropped t2.
Proof. apply omap_app. Qed.

(** ** The non-blocking enqueue *)

Lemma same_writer_refl b : same_writer b b.
Proof. by repeat split. Qed.

Lemma same_writer_trans b1 b2 b3 :
  same_writer b1 b2 -> same_writer b2 b3 -> same_writer b1 b3.
Proof. unfold same_writer. intros (?&?&?&?) (?&?&?&?). repeat split; congruence. Qed.

(** On a writer that is not stopped, [Send] returns, whatever the state of
    the queue, and it is one enqueue attempt. *)
Lemma Send_not_stopped (wr : WriteRequest) (b : BaseWriter) :
  stopped b = false ->
  is_Some (index (clients b) (wr_Client wr)) ->
  exists b' t,
    BaseWriter_Send wr b = Ok (tt, b', t) /\ attempts t = [wr] /\
    same_writer b b' /\ stopped b' = false.
Proof.
  intros Hrun [c Hc]. unfold BaseWriter_Send, Send_default, stopped in *.
  destruct (ch b) as [|cap buf|buf] eqn:Hch; [| |discriminate].
  - rewrite Hc. eexists _, _. split; [reflexivity|].
    split; [reflexivity|]. split; [apply same_writer_refl|]. by rewrite Hch.
  - destruct (handoff wr (workers b)) as [ws'|].
    + eexists _, _. split; [reflexivity|]. repeat split; simpl. by rewrite Hch.
    + destruct (length buf <? cap)%nat.
      * eexists _, _. split; [reflexivity|]. by repeat split.
      * rewrite Hc. eexists _, _. split; [reflexivity|].
        split; [reflexivity|]. split; [apply same_writer_refl|]. by rewrite Hch.
Qed.

(** A closed channel makes [Send] panic before anything else happens. *)
Lemma Send_stopped (wr : WriteRequest) (b : BaseWriter) :
  stopped b = true -> BaseWriter_Send wr b = Panic "send on closed channel".
Proof.
  unfold stopped, BaseWriter_Send. by destruct (ch b).
Qed.

Lemma Send_range {A} (mk : A -> WriteRequest) (xs : list A) (b : BaseWriter) :
  stopped b = false ->
  (forall x, x ∈ xs -> is_Some (index (clients b) (wr_Client (mk x)))) ->
  exists b' t,
    go_range xs (fun x => BaseWriter_Send (mk x)) b = Ok (tt, b', t) /\
    attempts t = mk <$> xs /\ same_writer b b' /\ stopped b' = false.
Proof.
  revert b. induction xs as [|x xs IH]; intros b Hrun Hidx.
  - exists b, []. repeat split; done.
  - destruct (Send_not_stopped (mk x) b Hrun) as (b1 & t1 & E1 & A1 & S1 & R1).
    { apply Hidx. left. }
    destruct (IH b1 R1) as (b2 & t2 & E2 & A2 & S2 & R2).
    { intros y Hy. destruct S1 as [-> _]. apply Hidx. by right. }
    exists b2, (t1 ++ t2). simpl. unfold go_bind at 1. rewrite E1, E2.
    split; [reflexivity|]. rewrite attempts_app, A1, A2.
    split; [reflexivity|]. split; [by eapply same_writer_trans|done].
Qed.

(** ** Broadcast *)

Lemma AllWriter_loop_not_stopped (mk : Z -> WriteRequest) (b : BaseWriter) :
  (forall i, wr_Client (mk i) = i) ->
  stopped b = false ->
  exists b' t,
    AllWriter_loop mk b = Ok (tt, b', t) /\
    attempts t = mk <$> seqZ 0 (len (clients b)) /\
    same_writer b b' /\ stopped b' = false.
Proof.
  intros Hmk Hrun.
  destruct (Send_range mk (seqZ 0 (len (clients b))) b Hrun) as (b' & t & E & A & S & R).
  { intros i Hi%elem_of_seqZ. rewrite Hmk. apply index_is_Some. lia. }
  exists b', t. unfold AllWriter_loop, go_bind, go_get. by rewrite E.
Qed.

(** C5. A broadcast writer that has not been stopped answers one [Write]
    with exactly one enqueue attempt per client, for the client indices
    0, 1, ..., N-1 in this order, each carrying the payload of the call;
    [WriteColumn] does the same with the measurement and the record. *)
Theorem AllWriter_fans_out_to_every_client
    (b : BaseWriter) (lineProtocol : option bytes) (mst : string)
    (record : option ArrowRecord) :
  stopped b = false ->
  (exists b' t,
      Write lineProtocol (AllWriter b) = Ok (tt, AllWriter b', t) /\
      attempts t =
        (fun i => mkWriteRequest i lineProtocol EmptyString None)
          <$> seqZ 0 (len (clients b)) /\
      length (attempts t) = length (clients b)) /\
  (exists b' t,
      WriteColumn mst record (AllWriter b) = Ok (tt, AllWriter b', t) /\
      attempts t =
        (fun i => mkWriteRequest i None mst record) <$> seqZ 0 (len (clients b)) /\
      length (attempts t) = length (clients b)).
Proof.
  intros Hrun. split.
  - destruct (AllWriter_loop_not_stopped
                (fun i => mkWriteRequest i lineProtocol EmptyString None) b)
      as (b' & t & E & A & _ & _); [done..|].
    exists b', t. unfold Write, embedded. simpl. rewrite E.
    split; [done|]. split; [done|].
    rewrite A, length_fmap, length_seqZ. unfold len. lia.
  - destruct (AllWriter_loop_not_stopped
                (fun i => mkWriteRequest i None mst record) b)
      as (b' & t & E & A & _ & _); [done..|].
    exists b', t. unfold WriteColumn, embedded. simpl. rewrite E.
    split; [done|]. split; [done|].
    rewrite A, length_fmap, length_seqZ. unfold len. lia.
Qed.

(** ** Rotation *)

(** One call on a rotation writer with a cursor inside the client list. *)
Lemma RoundRobin_one (mk : Z -> WriteRequest) (b : BaseWriter) (i : Z) :
  (forall j, wr_Client (mk j) = j) ->
  stopped b = false ->
  0 <= i < len (clients b) ->
  exists b' t,
    (j <~ RoundRobin_next ; embedded (BaseWriter_Send (mk j))) (RoundRobinWriter b i)
      = Ok (tt, RoundRobinWriter b' ((i + 1) mod len (clients b)), t) /\
    attempts t = [mk i] /\ same_writer b b' /\ stopped b' = false.
Proof.
  intros Hmk Hrun Hi.
  destruct (Send_not_stopped (mk i) b Hrun) as (b' & t & E & A & S & R).
  { rewrite Hmk. by apply index_is_Some. }
  exists b', t. unfold go_bind, RoundRobin_next, embedded.
  destruct (Z.eqb_spec (len (clients b)) 0) as [|_]; [lia|].
  simpl. rewrite E. rewrite Z.rem_mod_nonneg by lia. done.
Qed.

Lemma RoundRobin_Writes (b : BaseWriter) (i : Z) (lps : list (option bytes)) :
  stopped b = false ->
  0 <= i < len (clients b) ->
  exists b' t,
    go_range lps Write (RoundRobinWriter b i)
      = Ok (tt, RoundRobinWriter b' ((i + len lps) mod len (clients b)), t) /\
    attempts t =
      imap (fun k lp => mkWriteRequest ((i + Z.of_nat k) mod len (clients b))
                                       lp EmptyString None) lps /\
    same_writer b b'.
Proof.
  revert b i. induction lps as [|lp lps IH]; intros b i Hrun Hi.
  - exists b, []. simpl. unfold go_ret, len. simpl.
    rewrite Z.add_0_r, Z.mod_small by (unfold len in Hi; lia).
    repeat split; done.
  - destruct (RoundRobin_one (fun j => mkWriteRequest j lp EmptyString None) b i)
      as (b1 & t1 & E1 & A1 & S1 & R1); [done..|].
    assert (Hc : clients b1 = clients b) by apply S1.
    destruct (IH b1 ((i + 1) mod len (clients b)) R1) as (b2 & t2 & E2 & A2 & S2).
    { rewrite Hc. apply Z.mod_pos_bound. lia. }
    exists b2, (t1 ++ t2). simpl. unfold go_bind at 1.
    change (Write lp (RoundRobinWriter b i)) with
      ((j <~ RoundRobin_next ;
        embedded (BaseWriter_Send (mkWriteRequest j lp EmptyString None)))
         (RoundRobinWriter b i)).
    rewrite E1, E2, Hc. split.
    + do 4 f_equal. rewrite Zplus_mod_idemp_l. f_equal.
      unfold len. simpl. lia.
    + split; [|by eapply same_writer_trans].
      rewrite attempts_app, A1, A2, Hc. simpl. f_equal.
      * rewrite Z.add_0_r, Z.mod_small by lia. done.
      * apply imap_ext. intros k x _. simpl. rewrite Zplus_mod_idemp_l.
        do 2 f_equal. lia.
Qed.

(** C6. On a rotation writer with at least one client, fresh (cursor 0)
    and not stopped, any number of sequential [Write] calls returns; the
    k-th call (from 0) makes exactly one enqueue attempt, for the client
    index [k mod N], and leaves the cursor at [M mod N]. *)
Theorem RoundRobinWriter_cycles_through_clients
    (b : BaseWriter) (lps : list (option bytes)) :
  stopped b = false ->
  clients b <> [] ->
  exists b' t,
    go_range lps Write (RoundRobinWriter b 0)
      = Ok (tt, RoundRobinWriter b' (len lps mod len (clients b)), t) /\
    attempts t =
      imap (fun k lp => mkWriteRequest (Z.of_nat k mod len (clients b))
                                       lp EmptyString None) lps /\
    (wr_Client <$> attempts t) =
      (fun k => Z.of_nat k mod len (clients b)) <$> seq 0 (length lps).
Proof.
  intros Hrun Hne.
  destruct (RoundRobin_Writes b 0 lps Hrun) as (b' & t & E & A & _).
  { unfold len. destruct (clients b); [done|]. simpl. lia. }
  exists b', t. split; [exact E|]. split; [exact A|].
  rewrite A, fmap_imap.
  apply (imap_seq_0 lps (fun k => Z.of_nat k mod len (clients b))).
Qed.

(** ** Drop on full *)

Lemma handoff_None (wr : WriteRequest) (ws : list worker) :
  Parked ∉ ws -> handoff wr ws = None.
Proof.
  induction ws as [|x ws IH]; [done|]. intros Hnot.
  assert (Hx : x <> Parked) by (intros ->; apply Hnot; left).
  assert (Hws : Parked ∉ ws) by (intros ?; apply Hnot; by right).
  destruct x; simpl; try done; by rewrite (IH Hws).
Qed.

(** Sending to an open channel while no worker is receiving: the requests
    fill the free slots, the remaining ones take the default branch. *)
Lemma Send_fills_then_drops (wrs : list WriteRequest) (b : BaseWriter)
    (cap : nat) (buf : list WriteRequest) :
  ch b = ChOpen cap buf ->
  Parked ∉ workers b ->
  (forall wr, wr ∈ wrs -> is_Some (index (clients b) (wr_Client wr))) ->
  exists b' t,
    go_range wrs BaseWriter_Send b = Ok (tt, b', t) /\
    ch b' = ChOpen cap (buf ++ take (cap - length buf) wrs) /\
    workers b' = workers b /\ same_writer b b' /\
    attempts t = wrs /\
    buffered t = take (cap - length buf) wrs /\
    dropped t = drop (cap - length buf) wrs /\
    errors_logged t = drop (cap - length buf) wrs ≫= drop_record b.
Proof.
  revert b buf. induction wrs as [|wr wrs IH]; intros b buf Hch Hpark Hidx.
  - exists b, []. simpl. rewrite take_nil, drop_nil, app_nil_r.
    repeat split; done.
  - destruct (Hidx wr) as [c Hc]; [left|].
    assert (Hrest : forall b1, clients b1 = clients b ->
              forall x, x ∈ wrs -> is_Some (index (clients b1) (wr_Client x))).
    { intros b1 -> x Hx. apply Hidx. by right. }
    simpl. unfold go_bind at 1. unfold BaseWriter_Send at 1.
    rewrite Hch, (handoff_None wr _ Hpark).
    destruct (Nat.ltb_spec (length buf) cap) as [Hlt|Hge].
    + destruct (IH (with_ch b (ChOpen cap (buf ++ [wr]))) (buf ++ [wr]))
        as (b' & t & E & C' & W' & S' & A' & B' & D' & L'); [done|done|by apply Hrest|].
      rewrite E. exists b', (EvSend wr Buffered :: t).
      rewrite length_app in *. simpl in *.
      replace (cap - length buf)%nat with (S (cap - (length buf + 1))) by lia.
      simpl. rewrite <- app_assoc in C'. simpl in C'.
      split; [done|]. split; [done|]. split; [done|]. split; [done|].
      rewrite A', B', D'. repeat split; try done.
    + unfold Send_default. rewrite Hc.
      destruct (IH b buf) as (b' & t & E & C' & W' & S' & A' & B' & D' & L');
        [done|done|by apply Hrest|].
      rewrite E. eexists b', (_ :: _ :: t).
      replace (cap - length buf)%nat with 0%nat in * by lia.
      rewrite take_0 in *. rewrite drop_0 in *. simpl.
      split; [done|]. split; [done|]. split; [done|]. split; [done|].
      unfold attempts, buffered, dropped, errors_logged in *. simpl.
      rewrite A', B', D', L'. unfold drop_record at 2. rewrite Hc. done.
Qed.

(** C7. After [Start] with queue capacity C, and as long as no worker has
    reached the receive, any sequence of [Send] calls returns without a
    panic: the first C requests are stored in the buffer, every later one
    (the (C+1)-th in particular) takes the default branch, is dropped and
    is recorded in the log with the destination, db and rp; nothing is
    returned to the caller. *)
Theorem Send_never_blocks_and_drops_on_full
    (b0 : BaseWriter) (concurrency capacity : Z) (wrs : list WriteRequest) :
  0 <= capacity ->
  (forall wr, wr ∈ wrs -> is_Some (index (clients b0) (wr_Client wr))) ->
  exists b t,
    (BaseWriter_Start concurrency capacity ;;; go_range wrs BaseWriter_Send) b0
      = Ok (tt, b, t) /\
    ch b = ChOpen (Z.to_nat capacity) (take (Z.to_nat capacity) wrs) /\
    attempts t = wrs /\
    buffered t = take (Z.to_nat capacity) wrs /\
    dropped t = drop (Z.to_nat capacity) wrs /\
    errors_logged t = drop (Z.to_nat capacity) wrs ≫= drop_record b0.
Proof.
  intros Hcap Hidx. unfold go_bind, BaseWriter_Start.
  destruct (Z.ltb_spec capacity 0) as [|_]; [lia|].
  set (b1 := with_workers _ _).
  destruct (Send_fills_then_drops wrs b1 (Z.to_nat capacity) [])
    as (b & t & E & C' & _ & _ & A' & B' & D' & L').
  - done.
  - subst b1. simpl. intros H%list_elem_of_In%repeat_spec. done.
  - done.
  - rewrite E. exists b, (EvStart concurrency capacity :: t).
    simpl in *. rewrite Nat.sub_0_r in *.
    repeat split; done.
Qed.

(** ** Empty client lists *)

Lemma AllWriter_loop_nil (mk : Z -> WriteRequest) (b : BaseWriter) :
  clients b = [] -> AllWriter_loop mk b = Ok (tt, b, []).
Proof.
  intros Hnil. unfold AllWriter_loop, go_bind, go_get. by rewrite Hnil.
Qed.

(** C9. With an empty client list, [Write] and [WriteColumn] on a rotation
    writer panic on the remainder by zero, whatever the state of the queue,
    while on a broadcast writer they return at once and do nothing.  With
    at least one client, a cursor inside the list and a queue that is not
    closed, the rotation writer returns. *)
Theorem empty_client_list_panics_rotation_only
    (b : BaseWriter) (i : Z) (lineProtocol : option bytes) (mst : string)
    (record : option ArrowRecord) :
  (clients b = [] ->
     Write lineProtocol (RoundRobinWriter b i) = Panic "integer divide by zero" /\
     WriteColumn mst record (RoundRobinWriter b i) = Panic "integer divide by zero" /\
     Write lineProtocol (AllWriter b) = Ok (tt, AllWriter b, []) /\
     WriteColumn mst record (AllWriter b) = Ok (tt, AllWriter b, [])) /\
  (stopped b = false -> 0 <= i < len (clients b) ->
     (exists w' t, Write lineProtocol (RoundRobinWriter b i) = Ok (tt, w', t)) /\
     (exists w' t, WriteColumn mst record (RoundRobinWriter b i) = Ok (tt, w', t))).
Proof.
  split.
  - intros Hnil.
    unfold Write, WriteColumn, go_bind, RoundRobin_next, embedded.
    simpl. rewrite !AllWriter_loop_nil by done. by rewrite Hnil.
  - intros Hrun Hi. split.
    + destruct (RoundRobin_one (fun j => mkWriteRequest j lineProtocol EmptyString None) b i)
        as (b' & t & E & _); [done..|].
      eexists _, t. exact E.
    + destruct (RoundRobin_one (fun j => mkWriteRequest j None mst record) b i)
        as (b' & t & E & _); [done..|].
      eexists _, t. exact E.
Qed.

(** ** Writing to a stopped writer *)

Lemma seqZ_head (n : Z) : 0 < n -> seqZ 0 n = 0 :: seqZ 1 (n - 1).
Proof. intros Hn. rewrite seqZ_cons by lia. do 2 f_equal; lia. Qed.

Lemma AllWriter_loop_stopped (mk : Z -> WriteRequest) (b : BaseWriter) :
  stopped b = true -> clients b <> [] ->
  AllWriter_loop mk b = Panic "send on closed channel".
Proof.
  intros Hst Hne. unfold AllWriter_loop, go_bind, go_get.
  rewrite seqZ_head by (unfold len; destruct (clients b); [done|simpl; lia]).
  simpl. unfold go_bind. by rewrite Send_stopped.
Qed.

Lemma Write_stopped (w : SubscriberWriter) (lineProtocol : option bytes) :
  stopped (base w) = true -> clients (base w) <> [] ->
  Write lineProtocol w = Panic "send on closed channel".
Proof.
  intros Hst Hne. destruct w as [b|b i]; simpl in *.
  - unfold embedded. simpl. by rewrite AllWriter_loop_stopped.
  - unfold go_bind, RoundRobin_next, embedded.
    destruct (Z.eqb_spec (len (clients b)) 0) as [H0|_].
    { unfold len in H0. destruct (clients b); [done|simpl in H0; lia]. }
    simpl. by rewrite Send_stopped.
Qed.

Lemma WriteColumn_stopped (w : SubscriberWriter) (mst : string) (record : option ArrowRecord) :
  stopped (base w) = true -> clients (base w) <> [] ->
  WriteColumn mst record w = Panic "send on closed channel".
Proof.
  intros Hst Hne. destruct w as [b|b i]; simpl in *.
  - unfold embedded. simpl. by rewrite AllWriter_loop_stopped.
  - unfold go_bind, RoundRobin_next, embedded.
    destruct (Z.eqb_spec (len (clients b)) 0) as [H0|_].
    { unfold len in H0. destruct (clients b); [done|simpl in H0; lia]. }
    simpl. by rewrite Send_stopped.
Qed.

Lemma Start_Stop (w : SubscriberWriter) (concurrency buffersize : Z) :
  0 <= buffersize ->
  exists w' t,
    (Start concurrency buffersize ;;; Stop) w = Ok (tt, w', t) /\
    stopped (base w') = true /\ clients (base w') = clients (base w).
Proof.
  intros Hb. unfold go_bind, Start, Stop, embedded, BaseWriter_Start, BaseWriter_Stop.
  destruct (Z.ltb_spec buffersize 0) as [|_]; [lia|].
  destruct w; simpl; eexists _, _; (split; [reflexivity|by split]).
Qed.

(** C1, as the code has it.  Once a writer with at least one client has
    been started and stopped, [Write] and [WriteColumn] panic with a send on
    the closed channel: the [select] of [Send] has a default branch, which
    saves it from blocking but not from the closed channel. *)
Theorem Write_after_Stop_panics
    (w : SubscriberWriter) (concurrency buffersize : Z)
    (lineProtocol : option bytes) (mst : string) (record : option ArrowRecord) :
  0 <= buffersize ->
  clients (base w) <> [] ->
  (Start concurrency buffersize ;;; Stop ;;; Write lineProtocol) w
    = Panic "send on closed channel" /\
  (Start concurrency buffersize ;;; Stop ;;; WriteColumn mst record) w
    = Panic "send on closed channel".
Proof.
  intros Hb Hne.
  destruct (Start_Stop w concurrency buffersize Hb) as (w' & t & E & Hst & Hc).
  unfold go_bind in *.
  destruct (Start concurrency buffersize w) as [[[[] w1] t1]|]; [|done].
  destruct (Stop w1) as [[[[] w2] t2]|]; [|done].
  injection E as -> _.
  rewrite Write_stopped, WriteColumn_stopped by congruence. done.
Qed.

(** ** The worker's choice of client method *)

Lemma Send_Ok_inv (wr : WriteRequest) (b b' : BaseWriter) (t : list wevent) :
  BaseWriter_Send wr b = Ok (tt, b', t) ->
  attempts t = [wr] /\ same_writer b b'.
Proof.
  unfold BaseWriter_Send, Send_default.
  destruct (ch b) as [|cap buf|buf]; [| |done].
  - destruct (index _ _); [|done]. intros [= <- <-]. split; [done|apply same_writer_refl].
  - destruct (handoff _ _).
    { intros [= <- <-]. by repeat split. }
    destruct (_ <? _)%nat.
    { intros [= <- <-]. by repeat split. }
    destruct (index _ _); [|done]. intros [= <- <-]. split; [done|apply same_writer_refl].
Qed.

Lemma Send_range_Ok_inv {A} (mk : A -> WriteRequest) (xs : list A)
    (b b' : BaseWriter) (t : list wevent) :
  go_range xs (fun x => BaseWriter_Send (mk x)) b = Ok (tt, b', t) ->
  attempts t = mk <$> xs /\ same_writer b b'.
Proof.
  revert b t. induction xs as [|x xs IH]; intros b t.
  - intros [= <- <-]. split; [done|apply same_writer_refl].
  - simpl. unfold go_bind at 1.
    destruct (BaseWriter_Send (mk x) b) as [[[[] b1] t1]|] eqn:E1; [|done].
    destruct (go_range xs _ b1) as [[[[] b2] t2]|] eqn:E2; [|done].
    intros [= <- <-].
    destruct (Send_Ok_inv _ _ _ _ E1) as [A1 S1].
    destruct (IH _ _ E2) as [A2 S2].
    rewrite attempts_app, A1, A2. split; [done|by eapply same_writer_trans].
Qed.

(** Whatever the kind of writer, the requests built by one call share the
    payload fields given by [mk], and the call keeps db and rp. *)
Lemma dispatch_Ok_inv (mk : Z -> WriteRequest) (w w' : SubscriberWriter) (t : list wevent) :
  match w with
  | AllWriter _ => embedded (AllWriter_loop mk) w
  | RoundRobinWriter _ _ => (i <~ RoundRobin_next ; embedded (BaseWriter_Send (mk i))) w
  end = Ok (tt, w', t) ->
  same_writer (base w) (base w') /\
  forall wr, wr ∈ attempts t -> exists i, wr = mk i.
Proof.
  destruct w as [b|b i].
  - unfold embedded, AllWriter_loop, go_bind, go_get. simpl.
    destruct (go_range _ _ b) as [[[[] b1] t1]|] eqn:E; [|done].
    intros [= <- <-]. destruct (Send_range_Ok_inv _ _ _ _ _ E) as [A S].
    split; [done|]. rewrite A. intros wr (i & -> & _)%list_elem_of_fmap. by exists i.
  - unfold go_bind, RoundRobin_next, embedded.
    destruct (len (clients b) =? 0); [done|]. simpl.
    destruct (BaseWriter_Send (mk i) b) as [[[[] b1] t1]|] eqn:E; [|done].
    intros [= <- <-]. destruct (Send_Ok_inv _ _ _ _ E) as [A S].
    split; [done|]. rewrite A. intros wr ->%list_elem_of_singleton. by exists i.
Qed.

(** C10. The loop of [Run] forwards the request it has received by [Send]
    of the target client exactly when the [LineProtocol] of the request is
    not nil, and by [SendColumn] of that client otherwise.  Hence for every
    writer, a request enqueued by [Write] is forwarded, by the worker [k]
    that received it, as follows: with a nil payload by [SendColumn] of the
    target client with the empty measurement and a nil record, with a
    non-nil payload, the empty one included, by [Send] of the target client
    with that payload.  The step makes this one call, logs its error if it
    returns one, and goes back to the receive; it panics when the call
    does. *)
Theorem Run_dispatches_on_nil_LineProtocol
    (sys : Sys) (w w' : SubscriberWriter) (lineProtocol : option bytes)
    (t : list wevent) (wr : WriteRequest) (b : BaseWriter) (k : nat) (c : Client) :
  Write lineProtocol w = Ok (tt, w', t) ->
  wr ∈ attempts t ->
  same_writer (base w) b ->
  workers b !! k = Some (Holding wr) ->
  index (clients b) (wr_Client wr) = Some c ->
  Run_step sys k b =
    match match lineProtocol with
          | None => Client_SendColumn sys c (db (base w)) (rp (base w)) EmptyString None
          | Some lp => Client_Send sys c (db (base w)) (rp (base w)) (Some lp)
          end with
    | Panic msg => Panic msg
    | Ok r =>
        Ok (tt, with_workers b (<[k := Ready]> (workers b)),
            EvCall (wr_Client wr)
                   match lineProtocol with
                   | None => CallSendColumn (db (base w)) (rp (base w)) EmptyString None
                   | Some lp => CallSend (db (base w)) (rp (base w)) (Some lp)
                   end r
            :: match r with
               | Some err => [forward_record b c err]
               | None => []
               end)
    end /\
  forall wr0 b0 k0 b1 t1,
    workers b0 !! k0 = Some (Holding wr0) ->
    Run_step sys k0 b0 = Ok (tt, b1, t1) ->
    exists c0,
      index (clients b0) (wr_Client wr0) = Some c0 /\
      (LineProtocol wr0 <> None ->
       exists lp r, LineProtocol wr0 = Some lp /\
                    Client_Send sys c0 (db b0) (rp b0) (Some lp) = Ok r /\
                    calls t1 = [(wr_Client wr0, CallSend (db b0) (rp b0) (Some lp))]) /\
      (LineProtocol wr0 = None ->
       exists r, Client_SendColumn sys c0 (db b0) (rp b0) (Mst wr0) (wr_Record wr0) = Ok r /\
                 calls t1 = [(wr_Client wr0,
                              CallSendColumn (db b0) (rp b0) (Mst wr0) (wr_Record wr0))]).
Proof.
  intros E Hwr (_ & Hdb & Hrp & _) Hk Hc. split.
  - assert (H : forall wr, wr ∈ attempts t ->
                  exists i, wr = mkWriteRequest i lineProtocol EmptyString None).
    { apply (dispatch_Ok_inv (fun i => mkWriteRequest i lineProtocol EmptyString None) w w').
      rewrite <- E. by destruct w. }
    destruct (H wr Hwr) as [i ->].
    unfold Run_step. rewrite Hk. unfold go_bind, Run_body. rewrite Hc.
    unfold Run_call, Client_invoke. cbn [LineProtocol Mst wr_Record wr_Client].
    rewrite Hdb, Hrp. unfold forward_record. rewrite Hdb, Hrp.
    destruct lineProtocol as [lp|].
    + destruct (Client_Send sys c _ _ _) as [[err|]|]; reflexivity.
    + destruct (Client_SendColumn sys c _ _ _ _) as [[err|]|]; reflexivity.
  - intros wr0 b0 k0 b1 t1 Hk0. unfold Run_step. rewrite Hk0.
    unfold go_bind, Run_body. destruct (index (clients b0) (wr_Client wr0)) as [c0|]; [|done].
    unfold Run_call, Client_invoke. intros E1. exists c0. split; [done|].
    destruct (LineProtocol wr0) as [lp|].
    + split; [|done]. intros _. exists lp.
      destruct (Client_Send sys c0 _ _ _) as [[err|]|]; [| |done];
        injection E1 as <- <-; eexists; by repeat split.
    + split; [done|]. intros _.
      destruct (Client_SendColumn sys c0 _ _ _ _) as [[err|]|]; [| |done];
        injection E1 as <- <-; eexists; by repeat split.
Qed.

(** ** Construction of writers *)

Section Construction.
Variable sys : Sys.
Variable config : Subscriber.

Lemma NewSubscriberWriter_eq db rp name mode destinations s :
  NewSubscriberWriter sys config db rp name mode destinations s =
    match new_writer sys config db rp name mode destinations with
    | Panic msg => Panic msg
    | Ok (Failure err) => Ok (Failure err, s, [])
    | Ok (Success w) => Ok (Success (length (heap s)), with_heap s (heap s ++ [w]), [])
    end.
Proof.
  unfold NewSubscriberWriter, new_writer.
  destruct (newClients _ _ _ _) as [[cs|err]|]; try done.
  destruct (String.eqb mode "ALL"); [done|].
  destruct (String.eqb mode "ANY"); done.
Qed.

Lemma new_writer_Name db rp name mode destinations w :
  new_writer sys config db rp name mode destinations = Ok (Success w) -> Name w = name.
Proof.
  unfold new_writer. destruct (newClients _ _ _ _) as [[cs|err]|]; try done.
  destruct (String.eqb mode "ALL"); [by intros [= <-]|].
  destruct (String.eqb mode "ANY"); [by intros [= <-]|done].
Qed.

Lemma started_Name w : Name (started config w) = Name w.
Proof. by destruct w. Qed.

Lemma add_writer_eq msg db rp sub ws s :
  add_writer sys config msg db rp sub ws s =
    match new_writer sys config db rp (sub_Name sub) (sub_Mode sub) (sub_Destinations sub) with
    | Panic m => Panic m
    | Ok (Failure _) =>
        Ok ((ws, false), s, [Log Error "fail to create subscriber" (sub_fields db rp sub)])
    | Ok (Success w) =>
        if WriteBufferSize config <? 0 then Panic "makechan: size out of range"
        else Ok ((ws ++ [length (heap s)], true),
                 with_heap s (heap s ++ [started config w]),
                 [OnWriter (length (heap s))
                    (EvStart (WriteConcurrency config) (WriteBufferSize config));
                  Log Info msg (sub_fields db rp sub)])
    end.
Proof.
  unfold add_writer, go_bind. rewrite NewSubscriberWriter_eq.
  destruct (new_writer _ _ _ _ _) as [[w|err]|]; try done.
  unfold on_writer, Start, embedded, BaseWriter_Start. simpl.
  rewrite lookup_app_r, Nat.sub_diag by done. simpl.
  destruct (WriteBufferSize config <? 0); [by destruct w|].
  assert (Hins : forall w', <[length (heap s) := w']> (heap s ++ [w]) = heap s ++ [w']).
  { intros w'. rewrite insert_app_r_alt, Nat.sub_diag by done. done. }
  destruct w; simpl; unfold with_heap; simpl; rewrite Hins; done.
Qed.

(** A destination that cannot be parsed, has an unknown scheme, or needs a
    certificate file that cannot be read, yields an error. *)
Lemma newClient_Failure dest :
  (exists e, url_Parse sys dest = Failure e) \/
  (exists u, url_Parse sys dest = Success u /\
             Scheme u <> "http" /\ Scheme u <> "https" /\ Scheme u <> "rpc") \/
  (exists u e, url_Parse sys dest = Success u /\ Scheme u = "https" /\
               HttpsCertificate config <> EmptyString /\
               os_ReadFile sys (HttpsCertificate config) = Failure e) ->
  exists e, newClient sys config dest = Ok (Failure e).
Proof.
  unfold newClient. intros [[e ->]|[(u & -> & H1 & H2 & H3)|(u & e & -> & H1 & H2 & H3)]].
  - by eexists.
  - apply String.eqb_neq in H1, H2, H3. rewrite H1, H2, H3. by eexists.
  - rewrite H1. simpl. unfold NewHTTPSClient.
    apply String.eqb_neq in H2. rewrite H2, H3. by eexists.
Qed.

Lemma newClients_Failure destinations clients :
  (forall d, d ∈ destinations -> exists r, newClient sys config d = Ok r) ->
  (exists d e, d ∈ destinations /\ newClient sys config d = Ok (Failure e)) ->
  exists e, newClients sys config destinations clients = Ok (Failure e).
Proof.
  revert clients. induction destinations as [|d ds IH]; intros cs Hok (d' & e & Hin & Hd').
  - by apply elem_of_nil in Hin.
  - simpl. destruct (Hok d) as [[c|e'] Hd]; [left| |]; rewrite Hd; [|by eexists].
    apply IH.
    + intros x Hx. apply Hok. by right.
    + apply elem_of_cons in Hin as [->|Hin]; [congruence|]. by exists d', e.
Qed.

(** When some destination yields an error (and none panics), no writer is
    allocated: the manager is unchanged and an error is returned. *)
Lemma NewSubscriberWriter_fails_as_a_whole db rp name mode destinations s :
  (forall d, d ∈ destinations -> exists r, newClient sys config d = Ok r) ->
  (exists d e, d ∈ destinations /\ newClient sys config d = Ok (Failure e)) ->
  exists e, NewSubscriberWriter sys config db rp name mode destinations s
            = Ok (Failure e, s, []).
Proof.
  intros Hok Hbad. rewrite NewSubscriberWriter_eq. unfold new_writer.
  destruct (newClients_Failure destinations [] Hok Hbad) as [e ->]. by exists e.
Qed.

(** C2, as the code has it.  A destination with the scheme rpc whose upload
    stream cannot be opened does not fail the construction:
    [NewRPCClient] discards the error, and [NewSubscriberWriter] allocates
    a writer around a client without a stream. *)
Theorem NewSubscriberWriter_ignores_rpc_failure
    (s : SubscriberManager) (db rp name dest : string) (u : URL) (e : string) :
  url_Parse sys dest = Success u ->
  Scheme u = "rpc" ->
  flight_NewFlightClient sys (Host u) = Success tt ->
  flight_DoPut sys (Host u) = Failure e ->
  NewSubscriberWriter sys config db rp name "ALL" [dest] s =
    Ok (Success (length (heap s)),
        with_heap s (heap s ++
          [AllWriter (NewBaseWriter db rp name [RPCClient (Host u) None])]),
        []).
Proof.
  intros Hu Hs Hc He. rewrite NewSubscriberWriter_eq.
  unfold new_writer, newClients, newClient, NewRPCClient.
  rewrite Hu, Hs, Hc, He. done.
Qed.
End Construction.

(** ** Reconciliation of one retention policy *)

Lemma go_bind_eq {S E A B} (m : Go S E A) (k : A -> Go S E B) (s : S) :
  go_bind m k s =
    match m s with
    | Panic msg => Panic msg
    | Ok (a, s1, t1) =>
        match k a s1 with
        | Panic msg => Panic msg
        | Ok (b, s2, t2) => Ok (b, s2, t1 ++ t2)
        end
    end.
Proof. reflexivity. Qed.

Lemma with_heap_id s : with_heap s (heap s) = s.
Proof. by destruct s. Qed.

Lemma writer_Name_eq l s :
  writer_Name l s =
    match heap s !! l with
    | None => Panic "invalid memory address or nil pointer dereference"
    | Some w => Ok (Name w, s, [])
    end.
Proof.
  unfold writer_Name, on_writer. destruct (heap s !! l) as [w|] eqn:E; [|done].
  by rewrite list_insert_id, with_heap_id.
Qed.

Lemma on_writer_Stop_eq l s :
  on_writer l Stop s =
    match heap s !! l with
    | None => Panic "invalid memory address or nil pointer dereference"
    | Some w =>
        match ch (base w) with
        | ChNil => Panic "close of nil channel"
        | ChClosed _ => Panic "close of closed channel"
        | ChOpen _ _ => Ok (tt, with_heap s (<[l := closed w]> (heap s)), [OnWriter l EvStop])
        end
    end.
Proof.
  unfold on_writer, Stop, embedded, BaseWriter_Stop, closed.
  destruct (heap s !! l) as [w|]; [|done].
  destruct w as [b|b i]; simpl; destruct (ch b); done.
Qed.

Lemma closed_Name w : Name (closed w) = Name w.
Proof. destruct w as [b|b i]; simpl; unfold Name; simpl; by destruct (ch b). Qed.

Lemma name_at_insert_closed h l w l' :
  h !! l = Some w -> name_at (<[l := closed w]> h) l' = name_at h l'.
Proof.
  intros Hl. unfold name_at. destruct (decide (l = l')) as [<-|Hne].
  - rewrite list_lookup_insert_eq by by eapply lookup_lt_Some.
    rewrite Hl. simpl. by rewrite closed_Name.
  - by rewrite list_lookup_insert_ne.
Qed.

Lemma started_locs_app t1 t2 : started_locs (t1 ++ t2) = started_locs t1 ++ started_locs t2.
Proof. apply omap_app. Qed.

Lemma stopped_locs_app t1 t2 : stopped_locs (t1 ++ t2) = stopped_locs t1 ++ stopped_locs t2.
Proof. apply omap_app. Qed.

Section Reconcile.
Variable sys : Sys.
Variable config : Subscriber.

Lemma origin_names_inv ws acc s o s' t :
  origin_names ws acc s = Ok (o, s', t) ->
  s' = s /\ t = [] /\ Forall (fun l => is_Some (heap s !! l)) ws /\
  o = list_to_set (names_at (heap s) ws) ∪ acc.
Proof.
  revert acc o s' t. induction ws as [|l ws IH]; intros acc o s' t.
  - intros [= <- <- <-]. repeat split; [constructor|set_solver].
  - simpl. unfold go_bind at 1. rewrite writer_Name_eq.
    destruct (heap s !! l) as [w|] eqn:Hl; [|done].
    assert (Hn : name_at (heap s) l = Some (Name w)) by (unfold name_at; by rewrite Hl).
    destruct (origin_names ws _ s) as [[[o1 s1] t1]|] eqn:E; [|done].
    intros [= <- <- <-]. destruct (IH _ _ _ _ E) as (-> & -> & Hv & ->).
    repeat split; [by constructor|].
    unfold names_at. simpl. rewrite Hn. set_solver.
Qed.

Lemma origin_names_eq ws acc s :
  Forall (fun l => is_Some (heap s !! l)) ws ->
  origin_names ws acc s = Ok (list_to_set (names_at (heap s) ws) ∪ acc, s, []).
Proof.
  revert acc. induction ws as [|l ws IH]; intros acc Hv.
  - simpl. unfold go_ret. do 3 f_equal. set_solver.
  - apply Forall_cons in Hv as [[w Hl] Hv]. simpl. unfold go_bind.
    assert (Hn : name_at (heap s) l = Some (Name w)) by (unfold name_at; by rewrite Hl).
    rewrite writer_Name_eq, Hl, (IH _ Hv). do 3 f_equal.
    unfold names_at. simpl. rewrite Hn. set_solver.
Qed.

(** What the compaction loop does, when it returns. *)
Lemma UpdateWriters_remove_inv db rp originSubs ws s kept s' t :
  UpdateWriters_remove db rp originSubs ws s = Ok (kept, s', t) ->
  kept = filter (fun l => ~ named_in (heap s) originSubs l) ws /\
  stopped_locs t = filter (named_in (heap s) originSubs) ws /\
  started_locs t = [] /\
  writers s' = writers s /\ lastModifiedID s' = lastModifiedID s /\
  length (heap s') = length (heap s) /\
  (forall l, name_at (heap s') l = name_at (heap s) l) /\
  (forall l, ~ named_in (heap s) originSubs l -> heap s' !! l = heap s !! l).
Proof.
  revert s kept s' t. induction ws as [|l ws IH]; intros s kept s' t.
  - intros [= <- <- <-]. repeat split; done.
  - cbn [UpdateWriters_remove]. rewrite go_bind_eq, writer_Name_eq.
    destruct (heap s !! l) as [w|] eqn:Hl; [|done]. cbn beta iota.
    assert (Hn : name_at (heap s) l = Some (Name w)) by (unfold name_at; by rewrite Hl).
    rewrite !filter_cons.
    destruct (decide (Name w ∈ originSubs)) as [Hin|Hnin].
    + rewrite go_bind_eq, on_writer_Stop_eq, Hl.
      destruct (ch (base w)) as [|cap buf|]; [done| |done]. cbn beta iota.
      set (s1 := with_heap s _).
      assert (Hl1 : heap s1 !! l = Some (closed w)).
      { subst s1. simpl. apply list_lookup_insert_eq. by eapply lookup_lt_Some. }
      rewrite go_bind_eq, writer_Name_eq, Hl1. cbn beta iota.
      rewrite go_bind_eq. unfold go_emit at 1. cbn beta iota.
      destruct (UpdateWriters_remove _ _ _ ws s1) as [[[k1 s2] t1]|] eqn:E; [|done].
      intros [= <- <- <-].
      destruct (IH _ _ _ _ E) as (-> & Hst & Hsa & Hw & Hm & Hlen & Hnames & Hkeep).
      assert (Hnm : forall l', name_at (heap s1) l' = name_at (heap s) l').
      { intros l'. subst s1. simpl. by apply name_at_insert_closed. }
      assert (Hni : forall l', named_in (heap s1) originSubs l'
                               <-> named_in (heap s) originSubs l').
      { intros l'. unfold named_in. by rewrite Hnm. }
      destruct (decide (~ named_in (heap s) originSubs l)) as [Hc|_].
      { exfalso. apply Hc. unfold named_in. by rewrite Hn. }
      destruct (decide (named_in (heap s) originSubs l)) as [_|Hc].
      2:{ exfalso. apply Hc. unfold named_in. by rewrite Hn. }
      split; [apply list_filter_iff; intros; by rewrite Hni|].
      split. { simpl. f_equal. rewrite Hst. apply list_filter_iff; intros; by rewrite Hni. }
      split; [done|]. split; [done|]. split; [done|].
      split. { rewrite Hlen. subst s1. simpl. by rewrite length_insert. }
      split. { intros l'. by rewrite Hnames, Hnm. }
      intros l' Hk. rewrite Hkeep by by rewrite Hni.
      subst s1. simpl. apply list_lookup_insert_ne. intros <-.
      apply Hk. unfold named_in. by rewrite Hn.
    + rewrite go_bind_eq.
      destruct (UpdateWriters_remove _ _ _ ws s) as [[[k1 s2] t1]|] eqn:E; [|done].
      intros [= <- <- <-].
      destruct (IH _ _ _ _ E) as (-> & Hst & Hsa & Hw & Hm & Hlen & Hnames & Hkeep).
      destruct (decide (~ named_in (heap s) originSubs l)) as [_|Hc].
      2:{ exfalso. apply Hc. unfold named_in. by rewrite Hn. }
      destruct (decide (named_in (heap s) originSubs l)) as [Hc|_].
      { exfalso. unfold named_in in Hc. by rewrite Hn in Hc. }
      rewrite app_nil_r. repeat split; done.
Qed.

Lemma UpdateWriters_remove_returns db rp originSubs ws s :
  NoDup ws -> Forall (running (heap s)) ws ->
  exists kept s' t, UpdateWriters_remove db rp originSubs ws s = Ok (kept, s', t).
Proof.
  revert s. induction ws as [|l ws IH]; intros s Hnd Hrun.
  - by eexists _, _, _.
  - apply NoDup_cons in Hnd as [Hl Hnd].
    apply Forall_cons in Hrun as [(w & cap & buf & Hw & Hch) Hrun].
    cbn [UpdateWriters_remove]. rewrite go_bind_eq, writer_Name_eq, Hw. cbn beta iota.
    destruct (decide (Name w ∈ originSubs)) as [Hin|Hnin].
    + rewrite go_bind_eq, on_writer_Stop_eq, Hw, Hch. cbn beta iota.
      set (s1 := with_heap s _).
      assert (Hl1 : heap s1 !! l = Some (closed w)).
      { subst s1. simpl. apply list_lookup_insert_eq. by eapply lookup_lt_Some. }
      rewrite go_bind_eq, writer_Name_eq, Hl1. cbn beta iota.
      rewrite go_bind_eq. unfold go_emit at 1. cbn beta iota.
      destruct (IH s1 Hnd) as (kept & s' & t & ->).
      { apply Forall_forall. intros l' Hin'.
        destruct (proj1 (Forall_forall _ _) Hrun l' Hin') as (w' & c' & b' & Hw' & Hc').
        exists w', c', b'. split; [|done]. subst s1. simpl.
        rewrite list_lookup_insert_ne; [done|]. by intros ->. }
      by eexists _, _, _.
    + rewrite go_bind_eq. destruct (IH s Hnd Hrun) as (kept & s' & t & ->).
      by eexists _, _, _.
Qed.

(** What the loop over the subscriptions does, when it returns. *)
Lemma UpdateWriters_add_inv db rp subs ws originSubs changed s ws' originSubs' changed' s' t :
  UpdateWriters_add sys config db rp subs ws originSubs changed s
    = Ok ((ws', originSubs', changed'), s', t) ->
  exists hnew,
    hnew = created sys config db rp subs originSubs /\
    heap s' = heap s ++ hnew /\
    ws' = ws ++ seq (length (heap s)) (length hnew) /\
    originSubs' = originSubs ∖ list_to_set (sub_Name <$> subs) /\
    writers s' = writers s /\ lastModifiedID s' = lastModifiedID s /\
    changed' = changed || bool_decide (hnew <> []) /\
    Forall (fun w => Name w ∈ sub_Name <$> subs /\ exists cap, ch (base w) = ChOpen cap []) hnew /\
    stopped_locs t = [] /\
    started_locs t = seq (length (heap s)) (length hnew) /\
    Forall (fun sub => sub_Name sub ∈ originSubs \/ sub_Name sub ∈ Name <$> hnew \/
                       exists e, sub_writer sys config db rp sub = Ok (Failure e)) subs.
Proof.
  revert ws originSubs changed s ws' originSubs' changed' s' t.
  induction subs as [|sub subs IH]; intros ws origin changed s ws' origin' changed' s' t.
  - intros [= <- <- <- <- <-]. exists []. simpl.
    rewrite !app_nil_r, orb_false_r. repeat split; try done. set_solver.
  - cbn [UpdateWriters_add]. rewrite go_bind_eq.
    destruct (decide (sub_Name sub ∈ origin)) as [Hin|Hnin].
    + unfold go_ret at 1. cbn beta iota.
      destruct (UpdateWriters_add _ _ _ _ subs _ _ _ s) as [[[[[wsr orr] chr] sr] tr]|] eqn:E;
        [|done].
      intros [= <- <- <- <- <-].
      destruct (IH _ _ _ _ _ _ _ _ _ E)
        as (hnew & H0 & H1 & H2 & H3 & H4 & H5 & H6 & H7 & H8 & H9 & H10).
      exists hnew.
      split. { cbn [created]. by destruct (decide (sub_Name sub ∈ origin)). }
      split; [done|]. split; [done|]. split; [set_solver|].
      split; [done|]. split; [done|]. split; [done|].
      split. { eapply Forall_impl; [exact H7|]. intros w [? ?]. split; [set_solver|done]. }
      split; [done|]. split; [done|].
      constructor; [by left|].
      eapply Forall_impl; [exact H10|]. intros x [?|?]; [left; set_solver|by right].
    + rewrite go_bind_eq, add_writer_eq. fold (sub_writer sys config db rp sub).
      destruct (sub_writer sys config db rp sub) as [[w|err]|] eqn:Hw; [| |done].
      * destruct (Z.ltb_spec (WriteBufferSize config) 0) as [|Hbuf]; [done|].
        unfold go_ret at 1. cbn beta iota.
        set (s1 := with_heap s _).
        destruct (UpdateWriters_add _ _ _ _ subs _ _ _ s1) as [[[[[wsr orr] chr] sr] tr]|] eqn:E;
          [|done].
        intros [= <- <- <- <- <-].
        destruct (IH _ _ _ _ _ _ _ _ _ E)
          as (hnew & H0 & H1 & H2 & H3 & H4 & H5 & H6 & H7 & H8 & H9 & H10).
        subst s1. simpl in *. rewrite length_app in *. simpl in *.
        exists (started config w :: hnew).
        split. { destruct (decide (sub_Name sub ∈ origin)); [done|]. by rewrite Hw, H0. }
        split. { by rewrite H1, <- app_assoc. }
        split. { rewrite H2, <- app_assoc. simpl. do 3 f_equal. lia. }
        split; [set_solver|]. split; [done|]. split; [done|].
        split. { by rewrite orb_true_r. }
        split.
        { constructor.
          - rewrite started_Name. split.
            + rewrite (new_writer_Name _ _ _ _ _ _ _ _ Hw). set_solver.
            + destruct w; simpl; by eexists.
          - eapply Forall_impl; [exact H7|]. intros w' [? ?]. split; [set_solver|done]. }
        split; [done|].
        split. { rewrite H9. simpl. do 2 f_equal. lia. }
        constructor.
        { right. left. rewrite fmap_cons, started_Name.
          rewrite (new_writer_Name _ _ _ _ _ _ _ _ Hw). set_solver. }
        eapply Forall_impl; [exact H10|].
        intros x [?|[?|?]]; [left; set_solver|right; left; set_solver|by right; right].
      * unfold go_ret at 1. cbn beta iota.
        destruct (UpdateWriters_add _ _ _ _ subs _ _ _ s) as [[[[[wsr orr] chr] sr] tr]|] eqn:E;
          [|done].
        intros [= <- <- <- <- <-].
        destruct (IH _ _ _ _ _ _ _ _ _ E)
          as (hnew & H0 & H1 & H2 & H3 & H4 & H5 & H6 & H7 & H8 & H9 & H10).
        exists hnew.
        split. { cbn [created]. destruct (decide (sub_Name sub ∈ origin)); [done|]. by rewrite Hw. }
        split; [done|]. split; [done|]. split; [set_solver|].
        split; [done|]. split; [done|]. split; [done|].
        split. { eapply Forall_impl; [exact H7|]. intros w' [? ?]. split; [set_solver|done]. }
        split; [done|]. split; [done|].
        constructor; [right; right; by eexists|].
        eapply Forall_impl; [exact H10|]. intros x [?|?]; [left; set_solver|by right].
Qed.

(** The loop over the subscriptions returns when no construction that it
    attempts panics and the configured queue capacity is not negative. *)
Lemma UpdateWriters_add_returns db rp subs ws originSubs changed s :
  0 <= WriteBufferSize config ->
  NoDup (sub_Name <$> subs) ->
  Forall (fun sub => sub_Name sub ∈ originSubs \/ exists r, sub_writer sys config db rp sub = Ok r) subs ->
  exists r s' t,
    UpdateWriters_add sys config db rp subs ws originSubs changed s = Ok (r, s', t).
Proof.
  intros Hbuf. revert ws originSubs changed s.
  induction subs as [|sub subs IH]; intros ws origin changed s Hnd Hok.
  - by eexists _, _, _.
  - rewrite fmap_cons in Hnd. apply NoDup_cons in Hnd as [Hsub Hnd].
    apply Forall_cons in Hok as [Hhd Hok].
    assert (Hrest : Forall (fun sub' => sub_Name sub' ∈ origin ∖ {[sub_Name sub]} \/
                       exists r, sub_writer sys config db rp sub' = Ok r) subs).
    { apply Forall_forall. intros x Hx.
      destruct (proj1 (Forall_forall _ _) Hok x Hx) as [?|?]; [left|by right].
      assert (sub_Name x <> sub_Name sub).
      { intros Heq. apply Hsub. rewrite <- Heq. apply list_elem_of_fmap. eauto. }
      set_solver. }
    cbn [UpdateWriters_add]. rewrite go_bind_eq.
    destruct (decide (sub_Name sub ∈ origin)) as [Hin|Hnin].
    + unfold go_ret at 1. cbn beta iota.
      edestruct IH as (r' & s' & t & ->); [exact Hnd|exact Hrest|]. by eexists _, _, _.
    + destruct Hhd as [?|[r Hr]]; [done|].
      rewrite go_bind_eq, add_writer_eq. fold (sub_writer sys config db rp sub). rewrite Hr.
      destruct r as [w|err].
      * destruct (Z.ltb_spec (WriteBufferSize config) 0) as [|_]; [lia|].
        unfold go_ret at 1. cbn beta iota.
        edestruct IH as (r' & s' & t & ->); [exact Hnd|exact Hrest|]. by eexists _, _, _.
      * unfold go_ret at 1. cbn beta iota.
        edestruct IH as (r' & s' & t & ->); [exact Hnd|exact Hrest|]. by eexists _, _, _.
Qed.

Lemma store_writers_inv db rp ws s s' t :
  store_writers db rp ws s = Ok (tt, s', t) ->
  t = [] /\ heap s' = heap s /\ lastModifiedID s' = lastModifiedID s /\
  lookup_writers s' db rp = Some ws /\
  (forall d r, (d, r) <> (db, rp) -> lookup_writers s' d r = lookup_writers s d r) /\
  (forall d, is_Some (writers s' !! d) <-> is_Some (writers s !! d)).
Proof.
  unfold store_writers. destruct (writers s !! db) as [m|] eqn:Hm; [|done].
  intros [= <- <-]. unfold lookup_writers. simpl.
  split; [done|]. split; [done|]. split; [done|]. split; [|split].
  - by rewrite !lookup_insert_eq.
  - intros d r Hne. destruct (decide (d = db)) as [->|Hd].
    + rewrite lookup_insert_eq, Hm. apply lookup_insert_ne. congruence.
    + by rewrite lookup_insert_ne.
  - intros d. destruct (decide (d = db)) as [->|Hd].
    + rewrite lookup_insert_eq, Hm. split; eauto.
    + by rewrite lookup_insert_ne.
Qed.

Lemma filter_named_in_empty h (ws : list loc) :
  filter (fun l => ~ named_in h ∅ l) ws = ws /\ filter (named_in h ∅) ws = [].
Proof.
  assert (H : forall l, ~ named_in h ∅ l).
  { intros l. unfold named_in. destruct (name_at h l); set_solver. }
  induction ws as [|l ws [IH1 IH2]]; [done|].
  rewrite filter_cons_True, filter_cons_False by auto. by rewrite IH1, IH2.
Qed.

(** What the reconciliation of one retention policy does, when it returns:
    [hnew] are the writers it allocates and starts. *)
Lemma UpdateWriters_rp_body_inv db rpi ws0 changed0 s s' t :
  (changed0 = false -> lookup_writers s db (rp_Name rpi) = Some ws0) ->
  UpdateWriters_rp_body sys config db rpi ws0 changed0 s = Ok (tt, s', t) ->
  exists hnew,
    let origin : gset string :=
      list_to_set (names_at (heap s) ws0)
        ∖ list_to_set (sub_Name <$> Subscriptions rpi) in
    let h1 := heap s ++ hnew in
    let ws1 := ws0 ++ seq (length (heap s)) (length hnew) in
    hnew = created sys config db (rp_Name rpi) (Subscriptions rpi)
                   (list_to_set (names_at (heap s) ws0)) /\
    Forall (fun l => is_Some (heap s !! l)) ws0 /\
    lookup_writers s' db (rp_Name rpi)
      = Some (filter (fun l => ~ named_in h1 origin l) ws1) /\
    (forall d r, (d, r) <> (db, rp_Name rpi) ->
                 lookup_writers s' d r = lookup_writers s d r) /\
    (forall d, is_Some (writers s' !! d) <-> is_Some (writers s !! d)) /\
    lastModifiedID s' = lastModifiedID s /\
    length (heap s') = length h1 /\
    (forall l, name_at (heap s') l = name_at h1 l) /\
    (forall l, ~ named_in h1 origin l -> heap s' !! l = h1 !! l) /\
    Forall (fun w => Name w ∈ sub_Name <$> Subscriptions rpi /\
                     exists cap, ch (base w) = ChOpen cap []) hnew /\
    Forall (fun sub => sub_Name sub ∈ names_at (heap s) ws0 \/
                       sub_Name sub ∈ Name <$> hnew \/
                       exists e, sub_writer sys config db (rp_Name rpi) sub = Ok (Failure e))
           (Subscriptions rpi) /\
    stopped_locs t = filter (named_in h1 origin) ws1 /\
    started_locs t = seq (length (heap s)) (length hnew).
Proof.
  intros Hlk. unfold UpdateWriters_rp_body. rewrite go_bind_eq.
  destruct (origin_names ws0 ∅ s) as [[[o s0] t0]|] eqn:Eo; [|done].
  apply origin_names_inv in Eo as (-> & -> & Hvalid & ->).
  rewrite go_bind_eq.
  destruct (UpdateWriters_add _ _ _ _ _ _ _ _ s) as [[[[[ws1 o1] c1] s1] t1]|] eqn:Ea; [|done].
  apply UpdateWriters_add_inv in Ea
    as (hnew & Hcr & Hh & -> & -> & Hw & Hm & -> & Hnew & Hst & Hsa & Hsubs).
  intros Hrest. exists hnew. cbn zeta. revert Hrest.
  replace (list_to_set (names_at (heap s) ws0) ∪ ∅ : gset string)
    with (list_to_set (names_at (heap s) ws0) : gset string) in * by set_solver.
  set (origin := list_to_set (names_at (heap s) ws0) ∖ _) in *.
  assert (Hsubs' : Forall (fun sub => sub_Name sub ∈ names_at (heap s) ws0 \/
                       sub_Name sub ∈ Name <$> hnew \/
                       exists e, sub_writer sys config db (rp_Name rpi) sub = Ok (Failure e))
                     (Subscriptions rpi)).
  { eapply Forall_impl; [exact Hsubs|]. intros x [?|?]; [left; set_solver|by right]. }
  rewrite <- Hh.
  destruct (decide (size origin = 0%nat)) as [Hz|Hnz].
  - apply size_empty_inv, leibniz_equiv in Hz. rewrite Hz.
    destruct (filter_named_in_empty (heap s1) (ws0 ++ seq (length (heap s)) (length hnew)))
      as [-> ->].
    destruct (changed0 || bool_decide (hnew <> [])) eqn:Hc.
    + destruct (store_writers _ _ _ s1) as [[[[] s2] t2]|] eqn:Es; [|done].
      intros [= <- <-].
      apply store_writers_inv in Es as (-> & Hh2 & Hm2 & Hl2 & Hf2 & Hd2).
      rewrite Hh2. unfold lookup_writers in *. rewrite Hw in *.
      rewrite !app_nil_r. repeat split; try done; try congruence; apply Hd2.
    + intros [= <- <-]. apply orb_false_iff in Hc as [-> Hc].
      apply bool_decide_eq_false in Hc. apply dec_stable in Hc.
      rewrite Hc in Hh, Hsa, Hnew, Hsubs', Hcr |- *.
      simpl in *. rewrite !app_nil_r in *.
      unfold lookup_writers in *. rewrite Hw in *.
      repeat split; try done. by apply Hlk.
  - rewrite go_bind_eq.
    destruct (UpdateWriters_remove _ _ _ _ s1) as [[[k s2] t2]|] eqn:Er; [|done].
    apply UpdateWriters_remove_inv in Er as (-> & Hst2 & Hsa2 & Hw2 & Hm2 & Hlen2 & Hn2 & Hk2).
    destruct (store_writers _ _ _ s2) as [[[[] s3] t3]|] eqn:Es; [|done].
    intros [= <- <-].
    apply store_writers_inv in Es as (-> & Hh3 & Hm3 & Hl3 & Hf3 & Hd3).
    rewrite Hh3. rewrite !app_nil_r, !stopped_locs_app, !started_locs_app.
    rewrite Hst, Hst2, Hsa, Hsa2, app_nil_r.
    split; [done|]. split; [done|]. split; [done|].
    split. { intros d r Hne. rewrite (Hf3 d r Hne). unfold lookup_writers. by rewrite Hw2, Hw. }
    split. { intros d. rewrite Hd3, Hw2, Hw. done. }
    repeat split; try done; congruence.
Qed.

Lemma UpdateWriters_rp_inv db rpi s s' t :
  UpdateWriters_rp sys config db rpi s = Ok (tt, s', t) ->
  exists hnew,
    let ws0 := default [] (lookup_writers s db (rp_Name rpi)) in
    let origin : gset string :=
      list_to_set (names_at (heap s) ws0)
        ∖ list_to_set (sub_Name <$> Subscriptions rpi) in
    let h1 := heap s ++ hnew in
    let ws1 := ws0 ++ seq (length (heap s)) (length hnew) in
    hnew = created sys config db (rp_Name rpi) (Subscriptions rpi)
                   (list_to_set (names_at (heap s) ws0)) /\
    Forall (fun l => is_Some (heap s !! l)) ws0 /\
    lookup_writers s' db (rp_Name rpi)
      = Some (filter (fun l => ~ named_in h1 origin l) ws1) /\
    (forall d r, (d, r) <> (db, rp_Name rpi) ->
                 lookup_writers s' d r = lookup_writers s d r) /\
    (forall d, is_Some (writers s' !! d) <-> is_Some (writers s !! d)) /\
    lastModifiedID s' = lastModifiedID s /\
    length (heap s') = length h1 /\
    (forall l, name_at (heap s') l = name_at h1 l) /\
    (forall l, ~ named_in h1 origin l -> heap s' !! l = h1 !! l) /\
    Forall (fun w => Name w ∈ sub_Name <$> Subscriptions rpi /\
                     exists cap, ch (base w) = ChOpen cap []) hnew /\
    Forall (fun sub => sub_Name sub ∈ names_at (heap s) ws0 \/
                       sub_Name sub ∈ Name <$> hnew \/
                       exists e, sub_writer sys config db (rp_Name rpi) sub = Ok (Failure e))
           (Subscriptions rpi) /\
    stopped_locs t = filter (named_in h1 origin) ws1 /\
    started_locs t = seq (length (heap s)) (length hnew).
Proof.
  unfold UpdateWriters_rp. rewrite go_bind_eq. unfold go_get at 1. cbn beta iota.
  destruct (lookup_writers s db (rp_Name rpi)) as [ws|] eqn:Hlk.
  - destruct (UpdateWriters_rp_body _ _ _ _ _ _ s) as [[[[] s1] t1]|] eqn:E; [|done].
    intros [= <- <-]. by apply UpdateWriters_rp_body_inv in E.
  - destruct (UpdateWriters_rp_body _ _ _ _ _ _ s) as [[[[] s1] t1]|] eqn:E; [|done].
    intros [= <- <-]. by apply UpdateWriters_rp_body_inv in E.
Qed.

Lemma elem_of_names_at h (ws : list loc) n :
  n ∈ names_at h ws <-> exists l, l ∈ ws /\ name_at h l = Some n.
Proof. unfold names_at. apply list_elem_of_omap. Qed.

Lemma name_at_app_l h hnew l :
  is_Some (h !! l) -> name_at (h ++ hnew) l = name_at h l.
Proof.
  intros Hl%lookup_lt_is_Some. unfold name_at. by rewrite lookup_app_l.
Qed.

Lemma name_at_app_r h hnew k :
  name_at (h ++ hnew) (length h + k) = Name <$> hnew !! k.
Proof. unfold name_at. by rewrite lookup_app_r, Nat.add_sub' by lia. Qed.

Lemma UpdateWriters_rp_settles db rpi s s' t :
  UpdateWriters_rp sys config db rpi s = Ok (tt, s', t) -> settled sys config s' db rpi.
Proof.
  intros (hnew & _ & Hvalid & Hlk & _ & _ & _ & _ & Hnames & _ & Hnew & Hsubs & _)%UpdateWriters_rp_inv.
  set (ws0 := default [] (lookup_writers s db (rp_Name rpi))) in *.
  set (origin := list_to_set (names_at (heap s) ws0) ∖ _) in *.
  set (subnames := list_to_set (sub_Name <$> Subscriptions rpi) : gset string) in *.
  eexists. split; [exact Hlk|].
  assert (Hold : forall l, l ∈ ws0 -> exists n,
             name_at (heap s ++ hnew) l = Some n /\ n ∈ names_at (heap s) ws0).
  { intros l Hl. destruct (proj1 (Forall_forall _ _) Hvalid l Hl) as [w Hw].
    exists (Name w). rewrite name_at_app_l by eauto.
    assert (name_at (heap s) l = Some (Name w)) by (unfold name_at; by rewrite Hw).
    split; [done|]. apply elem_of_names_at. eauto. }
  assert (Hfresh : forall l, l ∈ seq (length (heap s)) (length hnew) -> exists w,
             name_at (heap s ++ hnew) l = Some (Name w) /\ w ∈ hnew).
  { intros l [Hlo Hhi]%elem_of_seq.
    replace l with (length (heap s) + (l - length (heap s)))%nat by lia.
    rewrite name_at_app_r.
    destruct (lookup_lt_is_Some_2 hnew (l - length (heap s))) as [w Hw]; [lia|].
    exists w. rewrite Hw. split; [done|]. by eapply list_elem_of_lookup_2. }
  split.
  - apply Forall_forall. intros l [Hkeep Hl]%list_elem_of_filter.
    unfold named_in in *. rewrite Hnames.
    apply elem_of_app in Hl as [Hl|Hl].
    + destruct (Hold l Hl) as (n & Hn & Hin). rewrite Hn in *.
      destruct (decide (n ∈ subnames)); [done|]. exfalso. apply Hkeep.
      subst origin. set_solver.
    + destruct (Hfresh l Hl) as (w & -> & Hin).
      destruct (proj1 (Forall_forall _ _) Hnew w Hin) as [Hw _]. set_solver.
  - apply Forall_forall. intros sub Hsub.
    assert (Hsn : sub_Name sub ∈ subnames).
    { subst subnames. apply elem_of_list_to_set, list_elem_of_fmap. eauto. }
    destruct (proj1 (Forall_forall _ _) Hsubs sub Hsub) as [Hin|[Hin|Hfail]]; [| |by right].
    + left. apply elem_of_names_at in Hin as (l & Hl & Hn).
      apply elem_of_names_at. exists l. rewrite Hnames.
      destruct (Hold l Hl) as (n & Hn' & _).
      rewrite name_at_app_l in * by (by apply (proj1 (Forall_forall _ _) Hvalid)).
      split; [|done]. apply list_elem_of_filter. split; [|apply elem_of_app; by left].
      unfold named_in. rewrite name_at_app_l by (by apply (proj1 (Forall_forall _ _) Hvalid)).
      rewrite Hn. subst origin. set_solver.
    + left. apply list_elem_of_fmap in Hin as (w & Hw & Hin).
      apply list_elem_of_lookup in Hin as [k Hk].
      apply elem_of_names_at. exists (length (heap s) + k)%nat.
      rewrite Hnames, name_at_app_r, Hk. split; [|by rewrite Hw].
      apply list_elem_of_filter. split.
      * unfold named_in. rewrite name_at_app_r, Hk. simpl. rewrite <- Hw.
        subst origin. set_solver.
      * apply elem_of_app. right. apply elem_of_seq.
        apply lookup_lt_Some in Hk. lia.
Qed.

(** The reconciliation of one entry leaves the entries of other keys as
    they are, and the names of the writers allocated before. *)
Lemma UpdateWriters_rp_frame db rpi s s' t :
  UpdateWriters_rp sys config db rpi s = Ok (tt, s', t) ->
  (forall d r, (d, r) <> (db, rp_Name rpi) -> lookup_writers s' d r = lookup_writers s d r) /\
  (forall d, is_Some (writers s' !! d) <-> is_Some (writers s !! d)) /\
  (forall l n, name_at (heap s) l = Some n -> name_at (heap s') l = Some n).
Proof.
  intros (hnew & _ & _ & _ & Hf & Hd & _ & _ & Hnames & _)%UpdateWriters_rp_inv.
  split; [done|]. split; [done|]. intros l n Hn. rewrite Hnames, name_at_app_l; [done|].
  unfold name_at in Hn. destruct (heap s !! l); [by eexists|done].
Qed.

Lemma settled_frame (s s' : SubscriberManager) db rpi :
  lookup_writers s' db (rp_Name rpi) = lookup_writers s db (rp_Name rpi) ->
  (forall l n, name_at (heap s) l = Some n -> name_at (heap s') l = Some n) ->
  settled sys config s db rpi -> settled sys config s' db rpi.
Proof.
  intros Hlk Hext (ws & Hws & Hnames & Hsubs). exists ws.
  split; [congruence|]. split.
  - eapply Forall_impl; [exact Hnames|]. intros l. unfold named_in.
    destruct (name_at (heap s) l) as [n|] eqn:Hn; [|done]. by rewrite (Hext l n Hn).
  - eapply Forall_impl; [exact Hsubs|]. intros sub [Hin|?]; [left|by right].
    apply elem_of_names_at in Hin as (l & Hl & Hn). apply elem_of_names_at. eauto.
Qed.

Lemma quiet_app t1 t2 : quiet t1 -> quiet t2 -> quiet (t1 ++ t2).
Proof.
  unfold quiet. intros [H1 H2] [H3 H4].
  by rewrite started_locs_app, stopped_locs_app, H1, H2, H3, H4.
Qed.

Lemma quiet_nil : quiet [].
Proof. done. Qed.

Lemma difference_nil (X : gset string) : X ∖ list_to_set (@nil string) = X.
Proof. set_solver. Qed.

Lemma difference_cons (X : gset string) n ns :
  X ∖ list_to_set (n :: ns) = X ∖ {[n]} ∖ list_to_set ns.
Proof. set_solver. Qed.

Lemma UpdateWriters_add_settled db rp subs ws originSubs changed s :
  NoDup (sub_Name <$> subs) ->
  Forall (fun sub => sub_Name sub ∈ originSubs \/
                     exists e, sub_writer sys config db rp sub = Ok (Failure e)) subs ->
  exists t,
    UpdateWriters_add sys config db rp subs ws originSubs changed s
      = Ok ((ws, originSubs ∖ list_to_set (sub_Name <$> subs), changed), s, t) /\
    quiet t.
Proof.
  revert originSubs. induction subs as [|sub subs IH]; intros origin Hnd Hsubs.
  - exists []. split; [|done]. simpl. by rewrite difference_nil.
  - rewrite fmap_cons in Hnd. apply NoDup_cons in Hnd as [Hsub Hnd].
    apply Forall_cons in Hsubs as [Hhd Hsubs].
    assert (Hrest : Forall (fun sub' => sub_Name sub' ∈ origin ∖ {[sub_Name sub]} \/
                       exists e, sub_writer sys config db rp sub' = Ok (Failure e)) subs).
    { apply Forall_forall. intros x Hx.
      destruct (proj1 (Forall_forall _ _) Hsubs x Hx) as [?|?]; [left|by right].
      assert (sub_Name x <> sub_Name sub).
      { intros Heq. apply Hsub. rewrite <- Heq. apply list_elem_of_fmap. eauto. }
      set_solver. }
    destruct (IH _ Hnd Hrest) as (t & E & Hq).
    cbn [UpdateWriters_add]. rewrite go_bind_eq.
    destruct (decide (sub_Name sub ∈ origin)) as [Hin|Hnin].
    + unfold go_ret at 1. cbn beta iota. exists t. split; [|done].
      rewrite E. by rewrite fmap_cons, difference_cons.
    + destruct Hhd as [?|[e He]]; [done|].
      rewrite go_bind_eq, add_writer_eq. fold (sub_writer sys config db rp sub). rewrite He.
      unfold go_ret at 1. cbn beta iota. cbn [orb]. eexists. split.
      * rewrite E. by rewrite fmap_cons, difference_cons.
      * unfold quiet in *. rewrite ?started_locs_app, ?stopped_locs_app. by simpl.
Qed.

(** On a settled entry the reconciliation changes nothing. *)
Lemma UpdateWriters_rp_settled db rpi s :
  NoDup (sub_Name <$> Subscriptions rpi) ->
  settled sys config s db rpi ->
  exists t, UpdateWriters_rp sys config db rpi s = Ok (tt, s, t) /\ quiet t.
Proof.
  intros Hnd (ws & Hlk & Hnames & Hsubs).
  unfold UpdateWriters_rp. rewrite go_bind_eq. unfold go_get at 1. cbn beta iota.
  rewrite Hlk. unfold UpdateWriters_rp_body. rewrite go_bind_eq, origin_names_eq.
  2:{ eapply Forall_impl; [exact Hnames|]. intros l. unfold named_in, name_at.
      destruct (heap s !! l); [by eexists|done]. }
  cbn beta iota. rewrite go_bind_eq.
  edestruct (UpdateWriters_add_settled db (rp_Name rpi) (Subscriptions rpi) ws)
    as (t & -> & Hq); [exact Hnd| |].
  { eapply Forall_impl; [exact Hsubs|]. intros sub [?|?]; [left|by right]. set_solver. }
  cbn beta iota.
  assert (Hempty : (list_to_set (names_at (heap s) ws) ∪ ∅)
                     ∖ list_to_set (sub_Name <$> Subscriptions rpi) = (∅ : gset string)).
  { apply leibniz_equiv. apply elem_of_equiv_empty. intros n.
    rewrite elem_of_difference, elem_of_union, elem_of_list_to_set, elem_of_names_at.
    intros [[(l & Hl & Hn)|?] Hnot]; [|set_solver].
    apply Hnot. pose proof (proj1 (Forall_forall _ _) Hnames l Hl) as Hin.
    unfold named_in in Hin. by rewrite Hn in Hin. }
  rewrite Hempty. destruct (decide (size (∅ : gset string) = 0%nat)) as [_|Hne].
  2:{ by rewrite size_empty in Hne. }
  exists ([] ++ t ++ []). split; [done|]. apply quiet_app; [apply quiet_nil|]. apply quiet_app; [exact Hq|apply quiet_nil].
Qed.
End Reconcile.

(** ** Iteration over the metadata *)

Section Range.
Context {S E A : Type} (f : A -> Go S E unit).

Lemma go_range_cons_inv x xs s s' t :
  go_range (x :: xs) f s = Ok (tt, s', t) ->
  exists s1 t1 t2,
    f x s = Ok (tt, s1, t1) /\ go_range xs f s1 = Ok (tt, s', t2) /\ t = t1 ++ t2.
Proof.
  cbn [go_range]. rewrite go_bind_eq.
  destruct (f x s) as [[[[] s1] t1]|]; [|done].
  destruct (go_range xs f s1) as [[[[] s2] t2]|] eqn:E2; [|done].
  intros [= <- <-]. by exists s1, t1, t2.
Qed.

(** A property kept by every step is kept by the loop. *)
Lemma go_range_preserves (Q : S -> Prop) xs s s' t :
  (forall x s s' t, x ∈ xs -> f x s = Ok (tt, s', t) -> Q s -> Q s') ->
  go_range xs f s = Ok (tt, s', t) -> Q s -> Q s'.
Proof.
  revert s t. induction xs as [|x xs IH]; intros s t Hstep.
  - by intros [= <- <-].
  - intros (s1 & t1 & t2 & E1 & E2 & _)%go_range_cons_inv HQ.
    eapply IH; [|exact E2|].
    + intros y ? ? ? Hy. apply Hstep. by right.
    + eapply Hstep; [left|exact E1|exact HQ].
Qed.

(** When each step establishes [P] for its own element and keeps it for
    the elements with other keys, the loop establishes [P] for all. *)
Lemma go_range_establishes {K} (key : A -> K) (P : S -> A -> Prop) xs s s' t :
  NoDup (key <$> xs) ->
  (forall x s s' t, x ∈ xs -> f x s = Ok (tt, s', t) -> P s' x) ->
  (forall x y s s' t, x ∈ xs -> key y <> key x ->
                      f x s = Ok (tt, s', t) -> P s y -> P s' y) ->
  go_range xs f s = Ok (tt, s', t) -> Forall (P s') xs.
Proof.
  revert s t. induction xs as [|x xs IH]; intros s t Hnd Hest Hpres.
  - constructor.
  - rewrite fmap_cons in Hnd. apply NoDup_cons in Hnd as [Hx Hnd].
    intros (s1 & t1 & t2 & E1 & E2 & _)%go_range_cons_inv.
    constructor.
    + eapply (go_range_preserves (fun s => P s x)); [|exact E2|].
      * intros y s2 s3 t3 Hy E3. eapply Hpres; [by right| |exact E3].
        intros Heq. apply Hx. rewrite Heq. apply list_elem_of_fmap. eauto.
      * eapply Hest; [left|exact E1].
    + eapply IH; [exact Hnd| | |exact E2].
      * intros y ? ? ? Hy. apply Hest. by right.
      * intros y z ? ? ? Hy. apply Hpres. by right.
Qed.
End Range.

Lemma go_range_quiet {A} (f : A -> Go SubscriberManager event unit) xs s :
  Forall (fun x => exists t, f x s = Ok (tt, s, t) /\ quiet t) xs ->
  exists t, go_range xs f s = Ok (tt, s, t) /\ quiet t.
Proof.
  induction xs as [|x xs IH]; intros Hall.
  - by exists [].
  - apply Forall_cons in Hall as [(t1 & E1 & Hq1) Hall].
    destruct (IH Hall) as (t2 & E2 & Hq2).
    exists (t1 ++ t2). cbn [go_range]. rewrite go_bind_eq, E1, E2.
    split; [done|by apply quiet_app].
Qed.

(** ** Idempotence of the reconciliation *)
Section Idempotence.
Variable sys : Sys.
Variable config : Subscriber.

Lemma UpdateWriters_db_eq dbi s :
  UpdateWriters_db sys config dbi s =
    go_range (RetentionPolicies dbi) (UpdateWriters_rp sys config (db_Name dbi))
             (ensured (db_Name dbi) s).
Proof.
  unfold UpdateWriters_db, ensured. rewrite go_bind_eq. unfold go_get at 1.
  cbn beta iota. rewrite go_bind_eq.
  destruct (writers s !! db_Name dbi); unfold go_ret, go_put; cbn beta iota;
    by destruct (go_range _ _ _) as [[[[] ?] ?]|].
Qed.

Lemma ensured_lookup_writers db s d r :
  lookup_writers (ensured db s) d r = lookup_writers s d r.
Proof.
  unfold ensured, lookup_writers.
  destruct (writers s !! db) eqn:Hdb; [done|]. simpl.
  destruct (decide (d = db)) as [->|Hne].
  - by rewrite lookup_insert_eq, Hdb, lookup_empty.
  - by rewrite lookup_insert_ne.
Qed.

Lemma ensured_heap db s : heap (ensured db s) = heap s.
Proof. unfold ensured. by destruct (writers s !! db). Qed.

Lemma ensured_is_Some db s d :
  is_Some (writers s !! d) \/ d = db -> is_Some (writers (ensured db s) !! d).
Proof.
  unfold ensured. destruct (writers s !! db) eqn:Hdb.
  - intros [?| ->]; [done|by rewrite Hdb].
  - simpl. destruct (decide (d = db)) as [->|Hne].
    + rewrite lookup_insert_eq. by eexists.
    + rewrite lookup_insert_ne by done. by intros [?|?].
Qed.

Lemma ensured_id db s : is_Some (writers s !! db) -> ensured db s = s.
Proof. unfold ensured. by intros [m ->]. Qed.

Lemma settled_db_rp_step db rpi dbj s s' t :
  UpdateWriters_rp sys config db rpi s = Ok (tt, s', t) ->
  db_Name dbj <> db ->
  settled_db sys config s dbj -> settled_db sys config s' dbj.
Proof.
  intros (Hlk & Hdom & Hnames)%UpdateWriters_rp_frame Hne [Hsome Hall].
  split; [by apply Hdom|].
  eapply Forall_impl; [exact Hall|]. intros rpj.
  apply settled_frame; [|done]. apply Hlk. congruence.
Qed.

Lemma UpdateWriters_db_settles dbi s s' t :
  wf_db dbi ->
  UpdateWriters_db sys config dbi s = Ok (tt, s', t) -> settled_db sys config s' dbi.
Proof.
  intros [Hnd _]. rewrite UpdateWriters_db_eq. intros E. split.
  - eapply (go_range_preserves _ (fun s => is_Some (writers s !! db_Name dbi)));
      [|exact E|].
    + intros rpi s1 s2 t1 _ (_ & Hdom & _)%UpdateWriters_rp_frame. by apply Hdom.
    + apply ensured_is_Some. by right.
  - eapply (go_range_establishes _ rp_Name (fun s rpi => settled sys config s (db_Name dbi) rpi));
      [exact Hnd| | |exact E].
    + intros rpi s1 s2 t1 _. apply UpdateWriters_rp_settles.
    + intros rpi rpj s1 s2 t1 _ Hne (Hlk & _ & Hnames)%UpdateWriters_rp_frame.
      apply settled_frame; [|done]. apply Hlk. congruence.
Qed.

Lemma UpdateWriters_db_frame dbi dbj s s' t :
  db_Name dbj <> db_Name dbi ->
  UpdateWriters_db sys config dbi s = Ok (tt, s', t) ->
  settled_db sys config s dbj -> settled_db sys config s' dbj.
Proof.
  intros Hne. rewrite UpdateWriters_db_eq. intros E Hs.
  eapply (go_range_preserves _ (fun s => settled_db sys config s dbj)); [|exact E|].
  - intros rpi s1 s2 t1 _ E1. by eapply settled_db_rp_step.
  - destruct Hs as [Hsome Hall]. split; [apply ensured_is_Some; by left|].
    eapply Forall_impl; [exact Hall|]. intros rpj.
    apply settled_frame; [apply ensured_lookup_writers|].
    by rewrite ensured_heap.
Qed.

Lemma UpdateWriters_db_settled dbi s :
  wf_db dbi -> settled_db sys config s dbi ->
  exists t, UpdateWriters_db sys config dbi s = Ok (tt, s, t) /\ quiet t.
Proof.
  intros [_ Hwf] [Hsome Hall]. rewrite UpdateWriters_db_eq, ensured_id by done.
  apply go_range_quiet. apply Forall_forall. intros rpi Hrpi.
  apply UpdateWriters_rp_settled.
  - by apply (proj1 (Forall_forall _ _) Hwf).
  - by apply (proj1 (Forall_forall _ _) Hall).
Qed.

(** C4. When the names of the metadata are unique, a reconciliation that
    follows a reconciliation against the same metadata returns the manager
    as it found it, registry, writers and all, and neither starts nor stops
    a writer. *)
Theorem UpdateWriters_idempotent
    (client : MetaClient) (s0 s1 : SubscriberManager) (t1 : list event) :
  wf_meta client ->
  UpdateWriters sys config client s0 = Ok (tt, s1, t1) ->
  exists t2,
    UpdateWriters sys config client s1 = Ok (tt, s1, t2) /\
    started_locs t2 = [] /\ stopped_locs t2 = [].
Proof.
  intros [Hnd Hwf] E. unfold UpdateWriters, WalkDatabases in *.
  assert (Hall : Forall (settled_db sys config s1) (Databases client)).
  { eapply (go_range_establishes _ db_Name (settled_db sys config)); [exact Hnd| | |exact E].
    - intros dbi s s' t Hdbi. apply UpdateWriters_db_settles.
      by apply (proj1 (Forall_forall _ _) Hwf).
    - intros dbi dbj s s' t _ Hne. by apply UpdateWriters_db_frame. }
  apply go_range_quiet. apply Forall_forall. intros dbi Hdbi.
  apply UpdateWriters_db_settled.
  - by apply (proj1 (Forall_forall _ _) Hwf).
  - by apply (proj1 (Forall_forall _ _) Hall).
Qed.
End Idempotence.

(** ** Partition of the writers of one entry *)

Section Partition.
Variable sys : Sys.
Variable config : Subscriber.

Lemma running_valid h l : running h l -> is_Some (h !! l).
Proof. intros (w & ? & ? & -> & _). by eexists. Qed.

Lemma UpdateWriters_rp_body_returns db rpi ws0 changed0 s :
  is_Some (writers s !! db) ->
  NoDup ws0 -> Forall (running (heap s)) ws0 ->
  NoDup (sub_Name <$> Subscriptions rpi) ->
  Forall (fun sub => sub_Name sub ∈ names_at (heap s) ws0 \/
                     exists r, sub_writer sys config db (rp_Name rpi) sub = Ok r)
         (Subscriptions rpi) ->
  0 <= WriteBufferSize config ->
  exists s' t, UpdateWriters_rp_body sys config db rpi ws0 changed0 s = Ok (tt, s', t).
Proof.
  intros [m Hm] Hnd Hrun Hnds Hsubs Hbuf.
  assert (Hvalid : Forall (fun l => is_Some (heap s !! l)) ws0).
  { eapply Forall_impl; [exact Hrun|]. apply running_valid. }
  unfold UpdateWriters_rp_body. rewrite go_bind_eq, origin_names_eq by done.
  cbn beta iota. rewrite go_bind_eq.
  destruct (UpdateWriters_add_returns sys config db (rp_Name rpi) (Subscriptions rpi) ws0
              (list_to_set (names_at (heap s) ws0) ∪ ∅) changed0 s Hbuf Hnds)
    as ([[ws1 o1] c1] & s1 & t1 & Ea).
  { eapply Forall_impl; [exact Hsubs|]. intros sub [?|?]; [left; set_solver|by right]. }
  rewrite Ea. cbn beta iota.
  apply UpdateWriters_add_inv in Ea
    as (hnew & _ & Hh & -> & _ & Hw & _ & _ & Hnew & _).
  assert (Hstore : forall ws s2, writers s2 = writers s ->
            exists s' t, store_writers db (rp_Name rpi) ws s2 = Ok (tt, s', t)).
  { intros ws s2 Hw2. unfold store_writers. rewrite Hw2, Hm. by eexists _, _. }
  destruct (decide (size o1 = 0%nat)).
  - destruct c1.
    + destruct (Hstore (ws0 ++ seq (length (heap s)) (length hnew)) s1 Hw) as (s' & t & ->).
      by eexists _, _.
    + by eexists _, _.
  - rewrite go_bind_eq.
    destruct (UpdateWriters_remove_returns db (rp_Name rpi) o1
                (ws0 ++ seq (length (heap s)) (length hnew)) s1)
      as (kept & s2 & t2 & Er).
    + apply NoDup_app. split; [done|]. split; [|apply NoDup_seq].
      intros l Hl [Hlo _]%elem_of_seq.
      apply (proj1 (Forall_forall _ _) Hvalid), lookup_lt_is_Some in Hl. lia.
    + rewrite Hh. apply Forall_app. split.
      * eapply Forall_impl; [exact Hrun|]. intros l (w & c & b & Hl & Hc).
        exists w, c, b. split; [|done]. rewrite lookup_app_l; [done|].
        by eapply lookup_lt_Some.
      * apply Forall_forall. intros l [Hlo Hhi]%elem_of_seq.
        destruct (lookup_lt_is_Some_2 hnew (l - length (heap s))) as [w Hl]; [lia|].
        pose proof (proj1 (Forall_forall _ _) Hnew w (list_elem_of_lookup_2 _ _ _ Hl))
          as [_ [c Hc]].
        exists w, c, []. split; [|done]. by rewrite lookup_app_r by lia.
    + rewrite Er. cbn beta iota.
      apply UpdateWriters_remove_inv in Er as (_ & _ & _ & Hw2 & _).
      destruct (Hstore kept s2) as (s' & t & ->); [congruence|]. by eexists _, _.
Qed.

(** The reconciliation of one entry returns when its writers are distinct
    and running, the subscription names are unique, no construction that
    it attempts panics and the queue capacity is not negative. *)
Lemma UpdateWriters_rp_returns db rpi s :
  is_Some (writers s !! db) ->
  NoDup (default [] (lookup_writers s db (rp_Name rpi))) ->
  Forall (running (heap s)) (default [] (lookup_writers s db (rp_Name rpi))) ->
  NoDup (sub_Name <$> Subscriptions rpi) ->
  Forall (fun sub =>
            sub_Name sub ∈ names_at (heap s) (default [] (lookup_writers s db (rp_Name rpi))) \/
            exists r, sub_writer sys config db (rp_Name rpi) sub = Ok r)
         (Subscriptions rpi) ->
  0 <= WriteBufferSize config ->
  exists s' t, UpdateWriters_rp sys config db rpi s = Ok (tt, s', t).
Proof.
  intros Hm Hnd Hrun Hnds Hsubs Hbuf.
  unfold UpdateWriters_rp. rewrite go_bind_eq. unfold go_get at 1. cbn beta iota.
  destruct (lookup_writers s db (rp_Name rpi)) as [ws|]; simpl in *.
  - destruct (UpdateWriters_rp_body_returns db rpi ws false s) as (s' & t & ->); try done.
    by eexists _, _.
  - destruct (UpdateWriters_rp_body_returns db rpi [] true s) as (s' & t & ->); try done.
    by eexists _, _.
Qed.

(** C3. An entry holds three distinct running writers named A, B and C, in
    any order, and the retention policy now lists two subscriptions named
    A and D, in any order, the second of which can be constructed.  Then
    the reconciliation of the entry returns, and the entry becomes the
    writer that was named A followed by a newly allocated and started
    writer named D.  The writers named B and C are stopped, once each, and
    nothing else is; the writer named A is the same object in the same
    state; the only writer started is the new one. *)
Theorem UpdateWriters_rp_partitions
    (s : SubscriberManager) (db : string) (rpi : RetentionPolicyInfo) (ws : list loc)
    (A B C D : string) (lA lB lC : loc) (wD : SubscriberWriter) :
  lookup_writers s db (rp_Name rpi) = Some ws ->
  ws ≡ₚ [lA; lB; lC] ->
  name_at (heap s) lA = Some A ->
  name_at (heap s) lB = Some B ->
  name_at (heap s) lC = Some C ->
  Forall (running (heap s)) ws ->
  NoDup [A; B; C; D] ->
  sub_Name <$> Subscriptions rpi ≡ₚ [A; D] ->
  (forall sub, sub ∈ Subscriptions rpi -> sub_Name sub = D ->
               sub_writer sys config db (rp_Name rpi) sub = Ok (Success wD)) ->
  0 <= WriteBufferSize config ->
  exists s' t,
    UpdateWriters_rp sys config db rpi s = Ok (tt, s', t) /\
    lookup_writers s' db (rp_Name rpi) = Some [lA; length (heap s)] /\
    name_at (heap s') lA = Some A /\
    name_at (heap s') (length (heap s)) = Some D /\
    heap s' !! lA = heap s !! lA /\
    heap s' !! length (heap s) = Some (started config wD) /\
    stopped_locs t ≡ₚ [lB; lC] /\
    started_locs t = [length (heap s)].
Proof.
  intros Hlk Hperm HA HB HC Hrun Hnd Hsubs HD Hbuf.
  (* the names are pairwise distinct, and so are the locations *)
  apply NoDup_cons in Hnd as [HnA Hnd]. apply NoDup_cons in Hnd as [HnB Hnd].
  apply NoDup_cons in Hnd as [HnC _].
  assert (HAB : A <> B) by set_solver. assert (HAC : A <> C) by set_solver.
  assert (HAD : A <> D) by set_solver. assert (HBC : B <> C) by set_solver.
  assert (HBD : B <> D) by set_solver. assert (HCD : C <> D) by set_solver.
  clear HnA HnB HnC.
  assert (Hlocs : NoDup [lA; lB; lC]).
  { repeat constructor; set_solver by congruence. }
  (* the entry, seen through its names *)
  assert (Hnames : forall n, n ∈ names_at (heap s) ws <-> n = A \/ n = B \/ n = C).
  { intros n. rewrite elem_of_names_at. split.
    - intros (l & Hl & Hn). rewrite Hperm in Hl.
      repeat (apply elem_of_cons in Hl as [->|Hl]); [| | |by apply elem_of_nil in Hl];
        naive_solver.
    - intros [->|[->| ->]]; [exists lA|exists lB|exists lC]; rewrite Hperm; set_solver. }
  (* the two subscriptions *)
  assert (Hx : exists x y, Subscriptions rpi = [x; y] /\
                 (sub_Name x = A /\ sub_Name y = D \/ sub_Name x = D /\ sub_Name y = A)).
  { symmetry in Hsubs. apply Permutation_length_2_inv in Hsubs.
    destruct (Subscriptions rpi) as [|x [|y [|z l]]]; destruct Hsubs as [Hs|Hs];
      try discriminate; injection Hs as ? ?; exists x, y; naive_solver. }
  destruct Hx as (x & y & Hxy & Hcase).
  assert (Hsn : forall n, n ∈ sub_Name <$> Subscriptions rpi <-> n = A \/ n = D).
  { intros n. rewrite Hsubs. set_solver. }
  assert (Hcreated : created sys config db (rp_Name rpi) (Subscriptions rpi)
                       (list_to_set (names_at (heap s) ws)) = [started config wD]).
  { rewrite Hxy in HD |- *. cbn [created].
    destruct Hcase as [[Hx Hy]|[Hx Hy]].
    - rewrite Hx, Hy. rewrite decide_True by (apply elem_of_list_to_set, Hnames; auto).
      rewrite decide_False.
      2:{ rewrite elem_of_difference, elem_of_list_to_set, Hnames. naive_solver. }
      rewrite (HD y) by set_solver. done.
    - rewrite Hx, Hy. rewrite decide_False.
      2:{ rewrite elem_of_list_to_set, Hnames. naive_solver. }
      rewrite (HD x) by set_solver.
      rewrite decide_True; [done|].
      rewrite elem_of_difference, elem_of_list_to_set, Hnames. set_solver. }
  (* the reconciliation returns *)
  destruct (UpdateWriters_rp_returns db rpi s) as (s' & t & E).
  { unfold lookup_writers in Hlk. destruct (writers s !! db); [by eexists|done]. }
  { rewrite Hlk. simpl. by rewrite Hperm. }
  { by rewrite Hlk. }
  { rewrite Hsubs. repeat constructor; set_solver. }
  { rewrite Hlk. simpl. apply Forall_forall. intros sub Hsub.
    assert (Hn : sub_Name sub ∈ sub_Name <$> Subscriptions rpi)
      by (apply list_elem_of_fmap; eauto).
    apply Hsn in Hn as [Hn|Hn]; [left; apply Hnames; auto|right]. eauto. }
  { done. }
  exists s', t. split; [exact E|].
  apply UpdateWriters_rp_inv in E
    as (hnew & Hcr & Hvalid & Hlk' & _ & _ & _ & _ & Hnm & Hkeep & _ & _ & Hst & Hsa).
  rewrite Hlk in *. cbn [default from_option id] in *. rewrite Hcreated in Hcr. subst hnew.
  cbn [length seq] in *.
  set (origin := list_to_set (names_at (heap s) ws)
                   ∖ list_to_set (sub_Name <$> Subscriptions rpi) : gset string) in *.
  set (h1 := heap s ++ [started config wD]) in *.
  assert (Hor : forall n, n ∈ origin <-> n = B \/ n = C).
  { intros n. subst origin.
    rewrite elem_of_difference, !elem_of_list_to_set, Hnames, Hsn. naive_solver. }
  assert (Hold : forall l n, name_at (heap s) l = Some n -> name_at h1 l = Some n).
  { intros l n Hn. subst h1. rewrite name_at_app_l; [done|].
    unfold name_at in Hn. destruct (heap s !! l); [by eexists|done]. }
  assert (HnD : name_at h1 (length (heap s)) = Some D).
  { subst h1. unfold name_at. rewrite lookup_app_r, Nat.sub_diag by done. simpl.
    rewrite started_Name. f_equal.
    assert (exists sub, sub ∈ Subscriptions rpi /\ sub_Name sub = D) as (sub & Hsub & Hn).
    { rewrite Hxy. destruct Hcase as [[_ ?]|[? _]]; [exists y|exists x]; set_solver. }
    pose proof (HD sub Hsub Hn) as Hw. unfold sub_writer in Hw.
    by rewrite (new_writer_Name _ _ _ _ _ _ _ _ Hw). }
  assert (HkA : ~ named_in h1 origin lA).
  { unfold named_in. rewrite (Hold _ _ HA), Hor. naive_solver. }
  assert (HkB : named_in h1 origin lB).
  { unfold named_in. rewrite (Hold _ _ HB), Hor. naive_solver. }
  assert (HkC : named_in h1 origin lC).
  { unfold named_in. rewrite (Hold _ _ HC), Hor. naive_solver. }
  assert (HkD : ~ named_in h1 origin (length (heap s))).
  { unfold named_in. rewrite HnD, Hor. naive_solver. }
  assert (Hkept : filter (fun l => ~ named_in h1 origin l) ws = [lA]).
  { apply Permutation_singleton_r. rewrite Hperm.
    rewrite filter_cons_True, !filter_cons_False by auto. done. }
  assert (Hgone : filter (named_in h1 origin) ws ≡ₚ [lB; lC]).
  { rewrite Hperm. rewrite filter_cons_False, !filter_cons_True by auto. done. }
  split. { rewrite Hlk', filter_app, Hkept, filter_cons_True by done. done. }
  split. { rewrite Hnm. by apply Hold. }
  split. { by rewrite Hnm. }
  split. { rewrite (Hkeep _ HkA). subst h1. apply lookup_app_l.
           unfold name_at in HA. destruct (heap s !! lA) eqn:El; [|done].
           by eapply lookup_lt_Some. }
  split. { rewrite (Hkeep _ HkD). subst h1.
           by rewrite lookup_app_r, Nat.sub_diag by done. }
  split. { rewrite Hst, filter_app, filter_cons_False, filter_nil, app_nil_r by done. done. }
  done.
Qed.
End Partition.

(** ** Routing of a write with an empty retention policy *)
Section Routing.
Variable client : MetaClient.




(** Only the writers of the entry are reached. *)
Lemma forward_only (m : loc -> Go SubscriberWriter wevent unit) ws s s' t :
  go_range ws (fun l => on_writer l (m l)) s = Ok (tt, s', t) ->
  Forall (fun e => exists l we, l ∈ ws /\ e = OnWriter l we) t.
Proof.
  revert s t. induction ws as [|l ws IH]; intros s t.
  - intros [= <- <-]. constructor.
  - intros (s1 & t1 & t2 & E1 & E2 & ->)%go_range_cons_inv.
    apply Forall_app. split.
    + unfold on_writer in E1. destruct (heap s !! l) as [w|]; [|done].
      destruct (m l w) as [[[[] w'] tw]|]; [|done]. injection E1 as <- <-.
      apply Forall_fmap, Forall_forall. intros we _. exists l, we. split; [left|done].
    + eapply Forall_impl; [exact (IH _ _ E2)|].
      intros e (l' & we & Hl' & ->). exists l', we. split; [by right|done].
Qed.

End Routing.

(** * The theorems at work on the sample deployment *)

Lemma Write_after_Stop_panics_witness :
  (Start 1 1 ;;; Stop ;;; Write (Some Sample.payload)) (AllWriter Sample.base0)
    = Panic "send on closed channel" /\
  (Start 1 1 ;;; Stop ;;; WriteColumn "cpu" None) (AllWriter Sample.base0)
    = Panic "send on closed channel".
Proof.
  apply (Write_after_Stop_panics (AllWriter Sample.base0) 1 1
           (Some Sample.payload) "cpu" None).
  - lia.
  - simpl. discriminate.
Defined.

Lemma NewSubscriberWriter_ignores_rpc_failure_witness :
  NewSubscriberWriter Sample.sys Sample.config "db0" "rp0" "R" "ALL" ["rpc://r:8087"]
                      NewSubscriberManager =
    Ok (Success (length (heap NewSubscriberManager)),
        with_heap NewSubscriberManager
          (heap NewSubscriberManager ++
             [AllWriter (NewBaseWriter "db0" "rp0" "R"
                                       [RPCClient (Host (mkURL "rpc" "r:8087" "rpc://r:8087")) None])]),
        []).
Proof.
  apply (NewSubscriberWriter_ignores_rpc_failure Sample.sys Sample.config
           NewSubscriberManager "db0" "rp0" "R" "rpc://r:8087"
           (mkURL "rpc" "r:8087" "rpc://r:8087") "rpc error: code = Unauthenticated");
    reflexivity.
Defined.

Lemma UpdateWriters_rp_partitions_witness :
  exists s' t,
    UpdateWriters_rp Sample.sys Sample.config "db0" Sample.rpAD Sample.managerABC
      = Ok (tt, s', t) /\
    lookup_writers s' "db0" (rp_Name Sample.rpAD)
      = Some [0%nat; length (heap Sample.managerABC)] /\
    name_at (heap s') 0%nat = Some "A" /\
    name_at (heap s') (length (heap Sample.managerABC)) = Some "D" /\
    heap s' !! 0%nat = heap Sample.managerABC !! 0%nat /\
    heap s' !! length (heap Sample.managerABC)
      = Some (started Sample.config Sample.writerD) /\
    stopped_locs t ≡ₚ [1%nat; 2%nat] /\
    started_locs t = [length (heap Sample.managerABC)].
Proof.
  apply (UpdateWriters_rp_partitions Sample.sys Sample.config Sample.managerABC "db0"
           Sample.rpAD [0; 1; 2]%nat "A" "B" "C" "D" 0%nat 1%nat 2%nat Sample.writerD).
  - reflexivity.
  - reflexivity.
  - reflexivity.
  - reflexivity.
  - reflexivity.
  - repeat constructor; vm_compute; eexists _, _, _; split; reflexivity.
  - apply (bool_decide_unpack _). reflexivity.
  - reflexivity.
  - intros sub Hsub Hname. simpl in Hsub.
    apply elem_of_cons in Hsub as [->|Hsub]; [discriminate|].
    apply elem_of_cons in Hsub as [->|Hsub]; [reflexivity|].
    by apply elem_of_nil in Hsub.
  - simpl. lia.
Defined.

Lemma UpdateWriters_idempotent_witness :
  exists t2,
    UpdateWriters Sample.sys Sample.config Sample.metaAD Sample.managerAD
      = Ok (tt, Sample.managerAD, t2) /\
    started_locs t2 = [] /\ stopped_locs t2 = [].
Proof.
  apply (UpdateWriters_idempotent Sample.sys Sample.config Sample.metaAD
           Sample.managerABC Sample.managerAD Sample.traceAD).
  - split.
    + apply (bool_decide_unpack _). reflexivity.
    + repeat constructor; apply (bool_decide_unpack _); reflexivity.
  - vm_compute. reflexivity.
Defined.

Lemma AllWriter_fans_out_to_every_client_witness :
  (exists b' t,
      Write (Some Sample.payload) (AllWriter Sample.running0) = Ok (tt, AllWriter b', t) /\
      attempts t =
        (fun i => mkWriteRequest i (Some Sample.payload) EmptyString None)
          <$> seqZ 0 (len (clients Sample.running0)) /\
      length (attempts t) = length (clients Sample.running0)) /\
  (exists b' t,
      WriteColumn "cpu" None (AllWriter Sample.running0) = Ok (tt, AllWriter b', t) /\
      attempts t =
        (fun i => mkWriteRequest i None "cpu" None)
          <$> seqZ 0 (len (clients Sample.running0)) /\
      length (attempts t) = length (clients Sample.running0)).
Proof.
  apply (AllWriter_fans_out_to_every_client Sample.running0 (Some Sample.payload) "cpu" None).
  reflexivity.
Defined.

Lemma RoundRobinWriter_cycles_through_clients_witness :
  exists b' t,
    go_range [Some Sample.payload; None; Some Sample.payload] Write
             (RoundRobinWriter Sample.running0 0)
      = Ok (tt,
            RoundRobinWriter b'
              (len [Some Sample.payload; None; Some Sample.payload]
                 mod len (clients Sample.running0)),
            t) /\
    attempts t =
      imap (fun k lp => mkWriteRequest (Z.of_nat k mod len (clients Sample.running0))
                                       lp EmptyString None)
           [Some Sample.payload; None; Some Sample.payload] /\
    (wr_Client <$> attempts t) =
      (fun k => Z.of_nat k mod len (clients Sample.running0))
        <$> seq 0 (length [Some Sample.payload; None; Some Sample.payload]).
Proof.
  apply (RoundRobinWriter_cycles_through_clients Sample.running0
           [Some Sample.payload; None; Some Sample.payload]).
  - reflexivity.
  - simpl. discriminate.
Defined.

Lemma Send_never_blocks_and_drops_on_full_witness :
  exists b t,
    (BaseWriter_Start 1 2 ;;;
     go_range [Sample.request0; Sample.request1; Sample.request0] BaseWriter_Send)
      Sample.base0 = Ok (tt, b, t) /\
    ch b = ChOpen (Z.to_nat 2)
             (take (Z.to_nat 2) [Sample.request0; Sample.request1; Sample.request0]) /\
    attempts t = [Sample.request0; Sample.request1; Sample.request0] /\
    buffered t = take (Z.to_nat 2) [Sample.request0; Sample.request1; Sample.request0] /\
    dropped t = drop (Z.to_nat 2) [Sample.request0; Sample.request1; Sample.request0] /\
    errors_logged t =
      drop (Z.to_nat 2) [Sample.request0; Sample.request1; Sample.request0]
        ≫= drop_record Sample.base0.
Proof.
  apply (Send_never_blocks_and_drops_on_full Sample.base0 1 2
           [Sample.request0; Sample.request1; Sample.request0]).
  - lia.
  - intros wr Hwr.
    repeat (apply elem_of_cons in Hwr as [->|Hwr]; [vm_compute; by eexists|]).
    by apply elem_of_nil in Hwr.
Defined.


(** The database of the call cannot be resolved, yet the write reaches the
    writer registered under the empty retention-policy name. *)
Lemma Send_unresolved_database_still_forwards :
  Database Sample.metaUnnamed "db0" = Failure "database not found" /\
  exists s' t,
    SubscriberManager_Send Sample.metaUnnamed "db0" EmptyString (Some Sample.payload)
                           Sample.managerUnnamed = Ok (tt, s', t) /\
    forwarded t =
      [(0%nat, mkWriteRequest 0 (Some Sample.payload) EmptyString None);
       (0%nat, mkWriteRequest 1 (Some Sample.payload) EmptyString None)] /\
    forwarded t <> [].
Proof.
  split; [reflexivity|]. eexists _, _.
  split; [vm_compute; reflexivity|]. split; [reflexivity|discriminate].
Qed.

Lemma empty_client_list_panics_rotation_only_witness :
  (Write (Some Sample.payload) (RoundRobinWriter Sample.empty0 0)
     = Panic "integer divide by zero" /\
   WriteColumn "cpu" None (RoundRobinWriter Sample.empty0 0)
     = Panic "integer divide by zero" /\
   Write (Some Sample.payload) (AllWriter Sample.empty0)
     = Ok (tt, AllWriter Sample.empty0, []) /\
   WriteColumn "cpu" None (AllWriter Sample.empty0)
     = Ok (tt, AllWriter Sample.empty0, [])) /\
  ((exists w' t, Write (Some Sample.payload) (RoundRobinWriter Sample.running0 1)
                 = Ok (tt, w', t)) /\
   (exists w' t, WriteColumn "cpu" None (RoundRobinWriter Sample.running0 1)
                 = Ok (tt, w', t))).
Proof.
  split.
  - apply (proj1 (empty_client_list_panics_rotation_only Sample.empty0 0
                    (Some Sample.payload) "cpu" None)).
    reflexivity.
  - apply (proj2 (empty_client_list_panics_rotation_only Sample.running0 1
                    (Some Sample.payload) "cpu" None)).
    + reflexivity.
    + unfold len. simpl. lia.
Defined.

Lemma Run_dispatches_on_nil_LineProtocol_witness :
  Run_step Sample.sys 0
      (with_workers (base Sample.after_nil) [Holding (mkWriteRequest 1 None EmptyString None)])
    = Ok (tt,
          with_workers (base Sample.after_nil) [Ready],
          [EvCall 1 (CallSendColumn "db0" "rp0" EmptyString None)
                  (Some "http client dosen't send column");
           forward_record (base Sample.after_nil) Sample.http2
                          "http client dosen't send column"]) /\
  Run_step Sample.sys 0
      (with_workers (base Sample.after_empty)
                    [Holding (mkWriteRequest 0 (Some []) EmptyString None)])
    = Ok (tt,
          with_workers (base Sample.after_empty) [Ready],
          [EvCall 0 (CallSend "db0" "rp0" (Some [])) None]).
Proof.
  split.
  - destruct (Run_dispatches_on_nil_LineProtocol Sample.sys (AllWriter Sample.running0)
                Sample.after_nil None
                (Sample2.trace_of_writer (Write None) (AllWriter Sample.running0))
                (mkWriteRequest 1 None EmptyString None)
                (with_workers (base Sample.after_nil)
                              [Holding (mkWriteRequest 1 None EmptyString None)])
                0%nat Sample.http2) as [Hstep _].
    + vm_compute. reflexivity.
    + vm_compute. right. left.
    + repeat split; reflexivity.
    + reflexivity.
    + reflexivity.
    + exact Hstep.
  - destruct (Run_dispatches_on_nil_LineProtocol Sample.sys (AllWriter Sample.running0)
                Sample.after_empty (Some [])
                (Sample2.trace_of_writer (Write (Some [])) (AllWriter Sample.running0))
                (mkWriteRequest 0 (Some []) EmptyString None)
                (with_workers (base Sample.after_empty)
                              [Holding (mkWriteRequest 0 (Some []) EmptyString None)])
                0%nat Sample.http1) as [Hstep _].
    + vm_compute. reflexivity.
    + vm_compute. left.
    + repeat split; reflexivity.
    + reflexivity.
    + reflexivity.
    + exact Hstep.
Defined.

(** With one database and one retention policy in the metadata, the whole
    of [UpdateWriters] is the reconciliation of that entry. *)
Lemma UpdateWriters_single_entry
    (sys : Sys) (config : Subscriber) (client : MetaClient)
    (dbi : DatabaseInfo) (rpi : RetentionPolicyInfo) (s : SubscriberManager) :
  Databases client = [dbi] ->
  RetentionPolicies dbi = [rpi] ->
  is_Some (writers s !! db_Name dbi) ->
  UpdateWriters sys config client s = UpdateWriters_rp sys config (db_Name dbi) rpi s.
Proof.
  intros Hdbs Hrps Hsome. unfold UpdateWriters, WalkDatabases. rewrite Hdbs.
  cbn [go_range]. rewrite go_bind_eq, UpdateWriters_db_eq, ensured_id, Hrps by done.
  cbn [go_range]. rewrite go_bind_eq.
  destruct (UpdateWriters_rp _ _ _ _ s) as [[[[] s1] t1]|]; [|done].
  unfold go_ret. cbn beta iota. by rewrite !app_nil_r.
Qed.

(** The same partition through the whole of [UpdateWriters]. *)
Example UpdateWriters_sample_run :
  lookup_writers Sample.managerABC "db0" "rp0" = Some [0; 1; 2]%nat /\
  lookup_writers Sample.managerAD "db0" "rp0" = Some [0; 3]%nat /\
  names_at (heap Sample.managerAD) [0; 3]%nat = ["A"; "D"] /\
  stopped_locs Sample.traceAD = [1; 2]%nat /\
  started_locs Sample.traceAD = [3%nat].
Proof. vm_compute. repeat split; reflexivity. Qed.

(** * Further properties of the code *)

(** ** Writers outside the running state *)

Lemma errors_logged_app (t1 t2 : list wevent) :
  errors_logged (t1 ++ t2) = errors_logged t1 ++ errors_logged t2.
Proof. apply omap_app. Qed.

Lemma calls_app (t1 t2 : list wevent) : calls (t1 ++ t2) = calls t1 ++ calls t2.
Proof. apply omap_app. Qed.

Lemma Send_nil_channel (wr : WriteRequest) (b : BaseWriter) (c : Client) :
  ch b = ChNil ->
  index (clients b) (wr_Client wr) = Some c ->
  BaseWriter_Send wr b =
    Ok (tt, b,
        [EvSend wr Dropped;
         EvLog Error "failed to send write request to write buffer"
           [zString "dest" (Client_Destination c); zString "db" (db b); zString "rp" (rp b)]]).
Proof.
  intros Hch Hc. unfold BaseWriter_Send, Send_default. by rewrite Hch, Hc.
Qed.

Lemma Send_range_nil_channel {A} (mk : A -> WriteRequest) (xs : list A) (b : BaseWriter) :
  ch b = ChNil ->
  (forall x, x ∈ xs -> is_Some (index (clients b) (wr_Client (mk x)))) ->
  exists t,
    go_range xs (fun x => BaseWriter_Send (mk x)) b = Ok (tt, b, t) /\
    attempts t = mk <$> xs /\ dropped t = mk <$> xs /\ buffered t = [] /\
    errors_logged t = (mk <$> xs) ≫= drop_record b.
Proof.
  intros Hch. induction xs as [|x xs IH]; intros Hidx.
  - by exists [].
  - destruct (Hidx x) as [c Hc]; [left|].
    destruct IH as (t & E & A1 & D1 & B1 & L1); [intros y Hy; apply Hidx; by right|].
    eexists. cbn [go_range]. rewrite go_bind_eq, (Send_nil_channel _ _ c Hch Hc), E.
    split; [reflexivity|].
    rewrite attempts_app, dropped_app, buffered_app, errors_logged_app, A1, D1, B1, L1.
    repeat split; try done.
    rewrite fmap_cons. cbn [mbind list_bind]. unfold drop_record at 2. by rewrite Hc.
Qed.

Lemma request_of_Client (i : Z) (d : dispatch) : wr_Client (request_of i d) = i.
Proof. by destruct d. Qed.

Lemma perform_AllWriter (d : dispatch) (b : BaseWriter) :
  perform d (AllWriter b) = embedded (AllWriter_loop (fun i => request_of i d)) (AllWriter b).
Proof. by destruct d. Qed.

Lemma perform_RoundRobinWriter (d : dispatch) (b : BaseWriter) (i : Z) :
  perform d (RoundRobinWriter b i) =
    (j <~ RoundRobin_next ; embedded (BaseWriter_Send (request_of j d)))
      (RoundRobinWriter b i).
Proof. by destruct d. Qed.

(** X1. A writer that was never started drops every request: the send on
    the nil channel is never ready, so [Write] and [WriteColumn] take the
    default branch for each targeted client, log each drop and leave the
    queue as it is; only the cursor of a rotation writer advances. *)
Theorem Write_before_Start_drops_everything
    (b : BaseWriter) (i : Z) (d : dispatch) :
  ch b = ChNil ->
  0 <= i < len (clients b) ->
  (exists t,
      perform d (AllWriter b) = Ok (tt, AllWriter b, t) /\
      attempts t = (fun j => request_of j d) <$> seqZ 0 (len (clients b)) /\
      dropped t = attempts t /\ buffered t = [] /\
      errors_logged t = attempts t ≫= drop_record b) /\
  (exists t,
      perform d (RoundRobinWriter b i)
        = Ok (tt, RoundRobinWriter b ((i + 1) mod len (clients b)), t) /\
      attempts t = [request_of i d] /\
      dropped t = attempts t /\ buffered t = [] /\
      errors_logged t = attempts t ≫= drop_record b).
Proof.
  intros Hch Hi. split.
  - destruct (Send_range_nil_channel (fun j => request_of j d)
                (seqZ 0 (len (clients b))) b Hch) as (t & E & A1 & D1 & B1 & L1).
    { intros j Hj%elem_of_seqZ. rewrite request_of_Client. apply index_is_Some. lia. }
    exists t. rewrite perform_AllWriter. unfold embedded, AllWriter_loop. cbn [base].
    rewrite go_bind_eq. unfold go_get at 1. cbn beta iota. rewrite E. cbn beta iota.
    rewrite app_nil_l, A1, D1, B1, L1. done.
  - destruct (index_is_Some (clients b) i Hi) as [c Hc].
    eexists. rewrite perform_RoundRobinWriter, go_bind_eq. unfold RoundRobin_next.
    destruct (Z.eqb_spec (len (clients b)) 0) as [|_]; [lia|]. cbn beta iota.
    unfold embedded. cbn [base].
    assert (Hc' : index (clients b) (wr_Client (request_of i d)) = Some c)
      by (by rewrite request_of_Client).
    rewrite (Send_nil_channel _ _ c Hch Hc').
    rewrite Z.rem_mod_nonneg by lia. split; [reflexivity|].
    cbn. unfold drop_record. rewrite Hc'. done.
Qed.

(** X2. [Stop] is only safe on a running writer: on a writer never started
    it panics on the nil channel, on a stopped writer -- a second [Stop] in
    particular -- it panics on the closed channel. *)
Theorem Stop_panics_unless_running
    (w : SubscriberWriter) (concurrency buffersize : Z) :
  (ch (base w) = ChNil -> Stop w = Panic "close of nil channel") /\
  (stopped (base w) = true -> Stop w = Panic "close of closed channel") /\
  (0 <= buffersize ->
   (Start concurrency buffersize ;;; Stop ;;; Stop) w = Panic "close of closed channel").
Proof.
  assert (Hclosed : forall w', stopped (base w') = true ->
                               Stop w' = Panic "close of closed channel").
  { intros w'. unfold stopped, Stop, embedded, BaseWriter_Stop.
    by destruct (ch (base w')). }
  split; [|split].
  - intros Hch. unfold Stop, embedded, BaseWriter_Stop. by rewrite Hch.
  - apply Hclosed.
  - intros Hb. destruct (Start_Stop w concurrency buffersize Hb) as (w' & t & E & Hst & _).
    rewrite go_bind_eq in E. rewrite go_bind_eq.
    destruct (Start concurrency buffersize w) as [[[[] w1] t1]|]; [|done].
    rewrite go_bind_eq.
    destruct (Stop w1) as [[[[] w2] t2]|]; [|done]. injection E as -> _.
    by rewrite (Hclosed _ Hst).
Qed.

(** ** The worker pool *)

Section Workers.
Variable sys : Sys.

Lemma Run_body_Ok (wr : WriteRequest) (b : BaseWriter) (c : Client) (r : option string) :
  index (clients b) (wr_Client wr) = Some c ->
  Client_invoke sys c (Run_call b wr) = Ok r ->
  Run_body sys wr b =
    Ok (tt, b,
        EvCall (wr_Client wr) (Run_call b wr) r ::
        match r with Some err => [forward_record b c err] | None => [] end).
Proof.
  intros Hc Hr. unfold Run_body. rewrite Hc, Hr. by destruct r.
Qed.

Lemma Run_call_ext (b b' : BaseWriter) (wr : WriteRequest) :
  db b' = db b -> rp b' = rp b -> Run_call b' wr = Run_call b wr.
Proof. intros Hd Hr. unfold Run_call. by rewrite Hd, Hr. Qed.

Lemma Run_steps_drain (k : nat) (closed_ : bool) (cap : nat) (buf : list WriteRequest)
    (b : BaseWriter) :
  ch b = (if closed_ then ChClosed buf else ChOpen cap buf) ->
  workers b !! k = Some Ready ->
  Forall (deliverable sys b) buf ->
  exists b' t,
    Run_steps sys k (2 * length buf + 1) b = Ok (tt, b', t) /\
    ch b' = (if closed_ then ChClosed [] else ChOpen cap []) /\
    workers b' = <[k := if closed_ then Exited else Parked]> (workers b) /\
    same_writer b b' /\
    calls t = (fun wr => (wr_Client wr, Run_call b wr)) <$> buf.
Proof.
  revert b. induction buf as [|wr buf IH]; intros b Hch Hk Hall.
  - cbn [length Nat.mul Nat.add Run_steps]. rewrite go_bind_eq. unfold Run_step.
    rewrite Hk, Hch. destruct closed_; cbn beta iota;
      (eexists _, _; split; [reflexivity|]; cbn; rewrite Hch; repeat split; done).
  - apply Forall_cons in Hall as [(c & r & Hc & Hr) Hall].
    replace (2 * length (wr :: buf) + 1)%nat with (S (S (2 * length buf + 1)))
      by (cbn [length]; lia).
    cbn [Run_steps]. rewrite go_bind_eq. unfold Run_step at 1. rewrite Hk, Hch.
    set (b1 := with_workers (with_ch b (if closed_ then ChClosed buf else ChOpen cap buf))
                            (<[k := Holding wr]> (workers b))).
    assert (Hlt : (k < length (workers b))%nat) by by eapply lookup_lt_Some.
    assert (E0 : match (if closed_ then ChClosed (wr :: buf) else ChOpen cap (wr :: buf)) with
                 | ChOpen cap0 (wr0 :: buf0) =>
                     Ok (tt, with_workers (with_ch b (ChOpen cap0 buf0))
                                          (<[k := Holding wr0]> (workers b)), [])
                 | ChClosed (wr0 :: buf0) =>
                     Ok (tt, with_workers (with_ch b (ChClosed buf0))
                                          (<[k := Holding wr0]> (workers b)), [])
                 | ChOpen _ [] | ChNil =>
                     Ok (tt, with_workers b (<[k := Parked]> (workers b)), [])
                 | ChClosed [] => Ok (tt, with_workers b (<[k := Exited]> (workers b)), [])
                 end = (Ok (tt, b1, []) : outcome (unit * BaseWriter * list wevent))).
    { subst b1. by destruct closed_. }
    rewrite E0. cbn beta iota.
    (* the worker holds [wr] and forwards it *)
    rewrite go_bind_eq. unfold Run_step at 1.
    assert (Hk1 : workers b1 !! k = Some (Holding wr)).
    { subst b1. cbn. by apply list_lookup_insert_eq. }
    rewrite Hk1, go_bind_eq.
    assert (Hc1 : index (clients b1) (wr_Client wr) = Some c) by done.
    assert (Hr1 : Client_invoke sys c (Run_call b1 wr) = Ok r) by done.
    rewrite (Run_body_Ok wr b1 c r Hc1 Hr1). cbn beta iota.
    set (b2 := with_workers b1 (<[k := Ready]> (workers b1))).
    destruct (IH b2) as (b' & t & E & Hch' & Hw' & Hs' & Hcalls).
    { subst b2 b1. cbn. by destruct closed_. }
    { subst b2. cbn. apply list_lookup_insert_eq. subst b1. cbn.
      by rewrite length_insert. }
    { eapply Forall_impl; [exact Hall|]. intros x (c' & r' & ? & ?). by exists c', r'. }
    rewrite E. cbn beta iota. eexists _, _. split; [reflexivity|].
    split; [done|]. split.
    { rewrite Hw'. subst b2 b1. cbn. by rewrite !list_insert_insert_eq. }
    split. { destruct Hs' as (? & ? & ? & ?). by repeat split. }
    rewrite !app_nil_l, !app_nil_r, calls_app, Hcalls. by destruct r.
Qed.

(** X3. A worker left alone with a stopped writer forwards the requests
    still buffered, in the order in which they were enqueued, and then
    returns; with a running writer it forwards them and blocks in the
    receive.  Requests are neither lost nor forwarded twice.  This holds
    provided that each request targets a client of the writer and that no
    client call panics. *)
Theorem worker_drains_the_queue_in_order
    (k : nat) (cap : nat) (buf : list WriteRequest) (b : BaseWriter) :
  workers b !! k = Some Ready ->
  Forall (deliverable sys b) buf ->
  (ch b = ChClosed buf ->
   exists b' t,
     Run_steps sys k (2 * length buf + 1) b = Ok (tt, b', t) /\
     ch b' = ChClosed [] /\ workers b' = <[k := Exited]> (workers b) /\
     calls t = (fun wr => (wr_Client wr, Run_call b wr)) <$> buf) /\
  (ch b = ChOpen cap buf ->
   exists b' t,
     Run_steps sys k (2 * length buf + 1) b = Ok (tt, b', t) /\
     ch b' = ChOpen cap [] /\ workers b' = <[k := Parked]> (workers b) /\
     calls t = (fun wr => (wr_Client wr, Run_call b wr)) <$> buf).
Proof.
  intros Hk Hall. split; intros Hch.
  - destruct (Run_steps_drain k true cap buf b Hch Hk Hall) as (b' & t & ? & ? & ? & _ & ?).
    by exists b', t.
  - destruct (Run_steps_drain k false cap buf b Hch Hk Hall) as (b' & t & ? & ? & ? & _ & ?).
    by exists b', t.
Qed.

Lemma handoff_Some (wr : WriteRequest) (ws : list worker) :
  Parked ∈ ws ->
  exists k,
    ws !! k = Some Parked /\ (Parked ∉ take k ws) /\
    handoff wr ws = Some (<[k := Holding wr]> ws).
Proof.
  induction ws as [|x ws IH]; intros Hin; [by apply elem_of_nil in Hin|].
  assert (Hrest : x <> Parked ->
            exists k, (x :: ws) !! k = Some Parked /\ (Parked ∉ take k (x :: ws)) /\
                      cons x <$> handoff wr ws = Some (<[k := Holding wr]> (x :: ws))).
  { intros Hx. apply elem_of_cons in Hin as [?|Hin]; [done|].
    destruct (IH Hin) as (k & Hk & Hfirst & E). exists (S k).
    split; [done|]. split.
    - cbn. intros [?|?]%elem_of_cons; done.
    - by rewrite E. }
  destruct x; cbn [handoff]; try (by apply Hrest).
  exists 0%nat. repeat split. cbn. apply not_elem_of_nil.
Qed.

(** X4. A request is never dropped while a worker is blocked in the
    receive: [Send] passes it to the first such worker, whatever the
    capacity and the filling of the buffer (a queue of capacity 0 included),
    logs nothing, and the next step of that worker forwards the request to
    its client. *)
Theorem Send_hands_over_to_a_waiting_worker
    (wr : WriteRequest) (b : BaseWriter) (cap : nat) (buf : list WriteRequest)
    (c : Client) (r : option string) :
  ch b = ChOpen cap buf ->
  Parked ∈ workers b ->
  index (clients b) (wr_Client wr) = Some c ->
  Client_invoke sys c (Run_call b wr) = Ok r ->
  exists k b1 b2 t,
    workers b !! k = Some Parked /\ (Parked ∉ take k (workers b)) /\
    BaseWriter_Send wr b = Ok (tt, b1, [EvSend wr HandedOff]) /\
    ch b1 = ChOpen cap buf /\ workers b1 = <[k := Holding wr]> (workers b) /\
    Run_step sys k b1 = Ok (tt, b2, t) /\
    calls t = [(wr_Client wr, Run_call b wr)] /\
    ch b2 = ChOpen cap buf /\ workers b2 = <[k := Ready]> (workers b).
Proof.
  intros Hch Hin Hc Hr.
  destruct (handoff_Some wr (workers b) Hin) as (k & Hk & Hfirst & E).
  assert (Hlt : (k < length (workers b))%nat) by by eapply lookup_lt_Some.
  exists k. eexists _, _, _. split; [done|]. split; [done|].
  unfold BaseWriter_Send. rewrite Hch, E. split; [reflexivity|].
  split; [done|]. split; [done|].
  unfold Run_step. cbn [workers with_workers].
  rewrite list_lookup_insert_eq by done. rewrite go_bind_eq.
  rewrite (Run_body_Ok wr (with_workers b _) c r) by done. cbn beta iota.
  split; [reflexivity|]. cbn [workers with_workers ch].
  rewrite list_insert_insert_eq. split; [by destruct r|done].
Qed.

(** X5. A request for the wrong kind of client is never delivered and never
    harms the worker: a line-protocol request for an rpc destination and a
    column request for an http destination reach no network call at all;
    the worker logs the refusal with destination, db and rp and goes on
    with the writer unchanged. *)
Theorem capability_mismatch_is_logged_and_skipped
    (b : BaseWriter) (wr : WriteRequest) (c : Client) :
  index (clients b) (wr_Client wr) = Some c ->
  (forall address stream lp,
      c = RPCClient address stream -> LineProtocol wr = Some lp ->
      Run_body sys wr b =
        Ok (tt, b,
            [EvCall (wr_Client wr) (Run_call b wr)
                    (Some "rpc client dosen't send line protocol");
             forward_record b c "rpc client dosen't send line protocol"])) /\
  (forall timeout tls u,
      c = HTTPClient timeout tls u -> LineProtocol wr = None ->
      Run_body sys wr b =
        Ok (tt, b,
            [EvCall (wr_Client wr) (Run_call b wr)
                    (Some "http client dosen't send column");
             forward_record b c "http client dosen't send column"])).
Proof.
  intros Hc. split.
  - intros address stream lp -> Hlp.
    apply (Run_body_Ok wr b _ (Some "rpc client dosen't send line protocol") Hc).
    unfold Run_call. by rewrite Hlp.
  - intros timeout tls u -> Hlp.
    apply (Run_body_Ok wr b _ (Some "http client dosen't send column") Hc).
    unfold Run_call. by rewrite Hlp.
Qed.

(** X6. Forwarding a line-protocol request to an http destination never
    panics and leaves the writer unchanged; it counts as delivered exactly
    when the transport succeeds with status 200 or 204, and is logged as an
    error in every other case. *)
Theorem http_delivery_succeeds_on_200_and_204_only
    (b : BaseWriter) (wr : WriteRequest) (lp : bytes)
    (timeout : Z) (tls : option tls_Config) (u : URL) :
  index (clients b) (wr_Client wr) = Some (HTTPClient timeout tls u) ->
  LineProtocol wr = Some lp ->
  exists r,
    Run_body sys wr b =
      Ok (tt, b,
          EvCall (wr_Client wr) (CallSend (db b) (rp b) (Some lp)) r ::
          match r with
          | Some err => [forward_record b (HTTPClient timeout tls u) err]
          | None => []
          end) /\
    (r = None <->
     exists status body,
       http_Post sys (url_String u) (db b) (rp b) lp = Success (status, body) /\
       (status = 200 \/ status = 204)).
Proof.
  intros Hc Hlp.
  assert (Hcall : Run_call b wr = CallSend (db b) (rp b) (Some lp)).
  { unfold Run_call. by rewrite Hlp. }
  destruct (Client_Send sys (HTTPClient timeout tls u) (db b) (rp b) (Some lp))
    as [r|] eqn:Hr.
  2:{ cbn in Hr. destruct (http_Post _ _ _ _ _) as [[? ?]|]; [|done].
      by destruct (_ && _). }
  exists r. split.
  - rewrite <- Hcall. apply Run_body_Ok; [done|]. by rewrite Hcall.
  - cbn in Hr. destruct (http_Post _ _ _ _ _) as [[status body]|e].
    + destruct (Z.eqb_spec status 204) as [H204|H204], (Z.eqb_spec status 200) as [H200|H200];
        cbn in Hr; injection Hr as <-; split; try done.
      * intros _. exists status, body. auto.
      * intros _. exists status, body. auto.
      * intros _. exists status, body. auto.
      * intros (? & ? & [= <- <-] & [?|?]); done.
    + injection Hr as <-. split; [done|]. by intros (? & ? & ? & _).
Qed.

(** X7. An rpc destination makes the worker panic in two cases.  A column
    request without a record -- the request that [Write] builds from a nil
    payload -- panics on every rpc client; and on the client that
    [NewRPCClient] returns when the upload stream could not be opened,
    every column request panics. *)
Theorem rpc_client_panics_the_worker
    (b : BaseWriter) (wr : WriteRequest) (address : string) (e : string) :
  LineProtocol wr = None ->
  (forall st, index (clients b) (wr_Client wr) = Some (RPCClient address st) ->
              wr_Record wr = None ->
              Run_body sys wr b = Panic "invalid memory address or nil pointer dereference") /\
  (flight_NewFlightClient sys address = Success tt ->
   flight_DoPut sys address = Failure e ->
   exists c,
     NewRPCClient sys address = Ok (Success c) /\
     (index (clients b) (wr_Client wr) = Some c ->
      Run_body sys wr b = Panic "invalid memory address or nil pointer dereference")).
Proof.
  intros Hlp. split.
  - intros st Hc Hrec. unfold Run_body, Run_call. rewrite Hc, Hlp. cbn. by rewrite Hrec.
  - intros Hnew Hput. unfold NewRPCClient. rewrite Hnew, Hput. eexists. split; [reflexivity|].
    intros Hc. unfold Run_body, Run_call. rewrite Hc, Hlp. cbn.
    by destruct (wr_Record wr).
Qed.
End Workers.

(** ** The shared cursor of the rotation writer *)

Lemma RoundRobin_performs (b : BaseWriter) (i : Z) (ds : list dispatch) :
  stopped b = false ->
  0 <= i < len (clients b) ->
  exists b' t,
    go_range ds perform (RoundRobinWriter b i)
      = Ok (tt, RoundRobinWriter b' ((i + len ds) mod len (clients b)), t) /\
    attempts t =
      imap (fun k d => request_of ((i + Z.of_nat k) mod len (clients b)) d) ds /\
    same_writer b b'.
Proof.
  revert b i. induction ds as [|d ds IH]; intros b i Hrun Hi.
  - exists b, []. simpl. unfold go_ret, len. simpl.
    rewrite Z.add_0_r, Z.mod_small by (unfold len in Hi; lia).
    repeat split; done.
  - destruct (RoundRobin_one (fun j => request_of j d) b i)
      as (b1 & t1 & E1 & A1 & S1 & R1);
      [intros j; apply request_of_Client|done..|].
    assert (Hc : clients b1 = clients b) by apply S1.
    destruct (IH b1 ((i + 1) mod len (clients b)) R1) as (b2 & t2 & E2 & A2 & S2).
    { rewrite Hc. apply Z.mod_pos_bound. lia. }
    exists b2, (t1 ++ t2). cbn [go_range]. rewrite go_bind_eq.
    rewrite perform_RoundRobinWriter, E1, E2, Hc. split.
    + do 4 f_equal. rewrite Zplus_mod_idemp_l. f_equal. unfold len. cbn [length]. lia.
    + split; [|by eapply same_writer_trans].
      rewrite attempts_app, A1, A2, Hc. cbn [imap app]. f_equal.
      * rewrite Z.add_0_r, Z.mod_small by lia. done.
      * apply imap_ext. intros k x _. cbn. rewrite Zplus_mod_idemp_l.
        do 2 f_equal. lia.
Qed.

(** X8. [Write] and [WriteColumn] of a rotation writer advance one and the
    same cursor: in any interleaving of the two, the k-th call (from 0)
    makes exactly one enqueue attempt, for the client index [k mod N], with
    the payload of that call. *)
Theorem RoundRobinWriter_shares_the_cursor
    (b : BaseWriter) (ds : list dispatch) :
  stopped b = false ->
  clients b <> [] ->
  exists b' t,
    go_range ds perform (RoundRobinWriter b 0)
      = Ok (tt, RoundRobinWriter b' (len ds mod len (clients b)), t) /\
    attempts t = imap (fun k d => request_of (Z.of_nat k mod len (clients b)) d) ds.
Proof.
  intros Hrun Hne.
  destruct (RoundRobin_performs b 0 ds Hrun) as (b' & t & E & A & _).
  { unfold len. destruct (clients b); [done|]. cbn [length]. lia. }
  by exists b', t.
Qed.

(** ** Construction of writers, continued *)

Section Construction2.
Variable sys : Sys.
Variable config : Subscriber.

Lemma newClients_Success destinations clients clients' :
  newClients sys config destinations clients = Ok (Success clients') <->
  exists new,
    clients' = clients ++ new /\
    Forall2 (fun d c => newClient sys config d = Ok (Success c)) destinations new.
Proof.
  revert clients. induction destinations as [|d ds IH]; intros cs; cbn [newClients].
  - split.
    + intros [= <-]. exists []. by rewrite app_nil_r.
    + intros (new & -> & ->%Forall2_nil_inv_l). by rewrite app_nil_r.
  - destruct (newClient sys config d) as [[c|e]|] eqn:Hd.
    + rewrite IH. split.
      * intros (new & -> & Hall). exists (c :: new).
        split; [by rewrite <- app_assoc|by constructor].
      * intros (new & -> & Hall). apply Forall2_cons_inv_l in Hall as (c' & new' & Hc & Hall & ->).
        assert (c' = c) as -> by congruence.
        exists new'. split; [by rewrite <- app_assoc|done].
    + split; [done|]. intros (new & _ & Hall).
      apply Forall2_cons_inv_l in Hall as (c' & new' & Hc & _). congruence.
    + split; [done|]. intros (new & _ & Hall).
      apply Forall2_cons_inv_l in Hall as (c' & new' & Hc & _). congruence.
Qed.

(** X9. [NewSubscriberWriter] returns a writer exactly when every
    destination yields a client and the mode is ALL or ANY.  The writer is
    then allocated at a fresh location and nothing else changes; it holds
    one client per destination, in the order of the destinations, it is not
    started (its channel is nil), and the cursor of a rotation writer is 0. *)
Theorem NewSubscriberWriter_returns_a_writer_iff
    (db rp name mode : string) (destinations : list string)
    (s s' : SubscriberManager) (l : loc) (t : list event) :
  NewSubscriberWriter sys config db rp name mode destinations s = Ok (Success l, s', t) <->
  exists clients w,
    Forall2 (fun d c => newClient sys config d = Ok (Success c)) destinations clients /\
    (mode = "ALL" /\ w = AllWriter (mkBaseWriter ChNil clients db rp name []) \/
     mode = "ANY" /\ w = RoundRobinWriter (mkBaseWriter ChNil clients db rp name []) 0) /\
    l = length (heap s) /\ s' = with_heap s (heap s ++ [w]) /\ t = [].
Proof.
  rewrite NewSubscriberWriter_eq. unfold new_writer.
  destruct (newClients sys config destinations []) as [[cs|e]|] eqn:Hcs.
  - apply newClients_Success in Hcs as (new & Heq & Hall). cbn in Heq. subst cs.
    assert (Hfun : forall cs', Forall2 (fun d c => newClient sys config d = Ok (Success c))
                                       destinations cs' -> cs' = new).
    { intros cs' Hall'.
      assert (newClients sys config destinations [] = Ok (Success cs'))
        by (apply newClients_Success; by exists cs').
      assert (newClients sys config destinations [] = Ok (Success new))
        by (apply newClients_Success; by exists new).
      congruence. }
    destruct (String.eqb_spec mode "ALL") as [->|HALL].
    { split.
      - intros [= <- <- <-]. eexists new, _. split; [done|]. split; [by left|done].
      - intros (cs' & w & Hall' & [[_ ->]|[[=] _]] & -> & -> & ->).
        by rewrite (Hfun _ Hall'). }
    destruct (String.eqb_spec mode "ANY") as [->|HANY].
    { split.
      - intros [= <- <- <-]. eexists new, _. split; [done|]. split; [by right|done].
      - intros (cs' & w & Hall' & [[[=] _]|[_ ->]] & -> & -> & ->).
        by rewrite (Hfun _ Hall'). }
    split; [done|]. intros (? & ? & _ & [[? _]|[? _]] & _); done.
  - split; [done|]. intros (cs' & w & Hall' & _).
    assert (newClients sys config destinations [] = Ok (Success cs'))
      by (apply newClients_Success; by exists cs').
    congruence.
  - split; [done|]. intros (cs' & w & Hall' & _).
    assert (newClients sys config destinations [] = Ok (Success cs'))
      by (apply newClients_Success; by exists cs').
    congruence.
Qed.

(** X10. One bad destination fails the construction as a whole: when some
    destination cannot be parsed, has a scheme other than http, https and
    rpc, or is an https destination whose certificate file cannot be read
    -- and no rpc destination before it makes the constructor panic -- an
    error is returned, no writer is allocated and the manager is unchanged. *)
Theorem NewSubscriberWriter_rejects_a_bad_destination
    (db rp name mode dest : string) (destinations : list string) (s : SubscriberManager) :
  (forall d, d ∈ destinations -> exists r, newClient sys config d = Ok r) ->
  dest ∈ destinations ->
  (exists e, url_Parse sys dest = Failure e) \/
  (exists u, url_Parse sys dest = Success u /\
             Scheme u <> "http" /\ Scheme u <> "https" /\ Scheme u <> "rpc") \/
  (exists u e, url_Parse sys dest = Success u /\ Scheme u = "https" /\
               HttpsCertificate config <> EmptyString /\
               os_ReadFile sys (HttpsCertificate config) = Failure e) ->
  exists e,
    NewSubscriberWriter sys config db rp name mode destinations s = Ok (Failure e, s, []).
Proof.
  intros Hok Hin Hbad. apply NewSubscriberWriter_fails_as_a_whole; [done|].
  destruct (newClient_Failure sys config dest Hbad) as [e He]. by exists dest, e.
Qed.

(** X11. A mode other than ALL and ANY never yields a writer: whenever the
    constructor returns, it returns an error and leaves the manager
    unchanged; when every destination yields a client, it does return, and
    the error names the mode. *)
Theorem NewSubscriberWriter_rejects_an_unknown_mode
    (db rp name mode : string) (destinations : list string) (s : SubscriberManager) :
  mode <> "ALL" -> mode <> "ANY" ->
  (forall r s' t,
      NewSubscriberWriter sys config db rp name mode destinations s = Ok (r, s', t) ->
      (exists e, r = Failure e) /\ s' = s /\ t = []) /\
  (forall clients,
      Forall2 (fun d c => newClient sys config d = Ok (Success c)) destinations clients ->
      NewSubscriberWriter sys config db rp name mode destinations s
        = Ok (Failure ("unknown subscription mode " +:+ mode), s, [])).
Proof.
  intros HALL%String.eqb_neq HANY%String.eqb_neq.
  rewrite NewSubscriberWriter_eq. unfold new_writer. rewrite HALL, HANY. split.
  - intros r s' t. destruct (newClients _ _ _ _) as [[cs|e]|]; [| |done];
      intros [= <- <- <-]; by eauto.
  - intros cs Hall.
    assert (newClients sys config destinations [] = Ok (Success cs)) as ->
      by (apply newClients_Success; by exists cs).
    done.
Qed.
End Construction2.

(** ** Initialisation *)

Section Init.
Variable sys : Sys.
Variable config : Subscriber.

Lemma errors_at_app t1 t2 : errors_at (t1 ++ t2) = errors_at t1 ++ errors_at t2.
Proof. apply omap_app. Qed.

Lemma initialized_cons db rp sub subs :
  initialized sys config db rp (sub :: subs) =
    match sub_writer sys config db rp sub with
    | Ok (Success w) => started config w :: initialized sys config db rp subs
    | _ => initialized sys config db rp subs
    end.
Proof.
  unfold initialized. cbn. by destruct (sub_writer sys config db rp sub) as [[?|?]|].
Qed.

Lemma construction_errors_cons db rp sub subs :
  construction_errors sys config db rp (sub :: subs) =
    match sub_writer sys config db rp sub with
    | Ok (Failure _) =>
        ("fail to create subscriber", sub_fields db rp sub)
          :: construction_errors sys config db rp subs
    | _ => construction_errors sys config db rp subs
    end.
Proof.
  unfold construction_errors. cbn.
  by destruct (sub_writer sys config db rp sub) as [[?|?]|].
Qed.

Lemma InitWriters_subs_inv db rp subs ws s ws' s' t :
  InitWriters_subs sys config db rp subs ws s = Ok (ws', s', t) ->
  let new := initialized sys config db rp subs in
  s' = with_heap s (heap s ++ new) /\
  ws' = ws ++ seq (length (heap s)) (length new) /\
  started_locs t = seq (length (heap s)) (length new) /\
  stopped_locs t = [] /\
  errors_at t = construction_errors sys config db rp subs /\
  Forall (fun sub => exists r, sub_writer sys config db rp sub = Ok r) subs.
Proof.
  revert ws s ws' s' t. induction subs as [|sub subs IH]; intros ws s ws' s' t.
  - intros [= <- <- <-]. cbn. rewrite !app_nil_r, with_heap_id. repeat split; done.
  - cbn [InitWriters_subs]. rewrite go_bind_eq, add_writer_eq.
    fold (sub_writer sys config db rp sub). cbn zeta.
    rewrite initialized_cons, construction_errors_cons.
    destruct (sub_writer sys config db rp sub) as [[w|err]|] eqn:Hw; [| |done].
    + destruct (Z.ltb_spec (WriteBufferSize config) 0) as [|Hbuf]; [done|].
      cbn beta iota. set (s1 := with_heap s _).
      destruct (InitWriters_subs _ _ _ _ subs _ s1) as [[[wsr sr] tr]|] eqn:E; [|done].
      intros [= <- <- <-].
      destruct (IH _ _ _ _ _ E) as (-> & -> & Hsa & Hst & Her & Hok).
      subst s1. cbn [heap with_heap length] in *. rewrite length_app in *. cbn [length] in *.
      split. { unfold with_heap. cbn. by rewrite <- app_assoc. }
      split. { rewrite <- app_assoc. cbn. do 3 f_equal. lia. }
      split.
      { change (started_locs (?e1 :: ?e2 :: tr)) with (length (heap s) :: started_locs tr).
        rewrite Hsa. cbn [seq]. do 2 f_equal. lia. }
      split; [done|]. split; [done|]. constructor; [by eexists|done].
    + cbn beta iota.
      destruct (InitWriters_subs _ _ _ _ subs _ s) as [[[wsr sr] tr]|] eqn:E; [|done].
      intros [= <- <- <-].
      destruct (IH _ _ _ _ _ E) as (-> & -> & Hsa & Hst & Her & Hok).
      split; [done|]. split; [done|]. split; [done|]. split; [done|].
      split.
      { change (errors_at (?e :: tr))
          with (("fail to create subscriber", sub_fields db rp sub) :: errors_at tr).
        by rewrite Her. }
      constructor; [by eexists|done].
Qed.

Lemma InitWriters_subs_returns db rp subs ws s :
  0 <= WriteBufferSize config ->
  Forall (fun sub => exists r, sub_writer sys config db rp sub = Ok r) subs ->
  exists ws' s' t, InitWriters_subs sys config db rp subs ws s = Ok (ws', s', t).
Proof.
  intros Hbuf. revert ws s. induction subs as [|sub subs IH]; intros ws s Hok.
  - by eexists _, _, _.
  - apply Forall_cons in Hok as [[r Hr] Hok].
    cbn [InitWriters_subs]. rewrite go_bind_eq, add_writer_eq.
    fold (sub_writer sys config db rp sub). rewrite Hr. destruct r as [w|err].
    + destruct (Z.ltb_spec (WriteBufferSize config) 0) as [|_]; [lia|]. cbn beta iota.
      edestruct IH as (ws' & s' & t & ->); [exact Hok|]. by eexists _, _, _.
    + cbn beta iota.
      edestruct IH as (ws' & s' & t & ->); [exact Hok|]. by eexists _, _, _.
Qed.

(** X12. The initialisation of one retention policy skips, and logs, every
    subscription that cannot be constructed and goes on with the next one:
    provided that no construction panics and the queue capacity is not
    negative, it returns, and it allocates and starts exactly the writers of
    the constructible subscriptions, in the order of the subscriptions. *)
Theorem InitWriters_subs_skips_failed_subscriptions
    (db rp : string) (subs : list SubscriptionInfo) (ws : list loc) (s : SubscriberManager) :
  0 <= WriteBufferSize config ->
  Forall (fun sub => exists r, sub_writer sys config db rp sub = Ok r) subs ->
  exists t,
    InitWriters_subs sys config db rp subs ws s =
      Ok (ws ++ seq (length (heap s)) (length (initialized sys config db rp subs)),
          with_heap s (heap s ++ initialized sys config db rp subs), t) /\
    started_locs t = seq (length (heap s)) (length (initialized sys config db rp subs)) /\
    stopped_locs t = [] /\
    errors_at t = construction_errors sys config db rp subs.
Proof.
  intros Hbuf Hok.
  destruct (InitWriters_subs_returns db rp subs ws s Hbuf Hok) as (ws' & s' & t & E).
  destruct (InitWriters_subs_inv _ _ _ _ _ _ _ _ E) as (-> & -> & ? & ? & ? & _).
  by exists t.
Qed.

Lemma InitWriters_rp_inv db rpi s s' t :
  InitWriters_rp sys config db rpi s = Ok (tt, s', t) ->
  let new := initialized sys config db (rp_Name rpi) (Subscriptions rpi) in
  heap s' = heap s ++ new /\
  lookup_writers s' db (rp_Name rpi) = Some (seq (length (heap s)) (length new)) /\
  (forall d r, (d, r) <> (db, rp_Name rpi) -> lookup_writers s' d r = lookup_writers s d r) /\
  (forall d, is_Some (writers s' !! d) <-> is_Some (writers s !! d)) /\
  lastModifiedID s' = lastModifiedID s /\
  started_locs t = seq (length (heap s)) (length new) /\
  stopped_locs t = [] /\
  Forall (fun sub => exists r, sub_writer sys config db (rp_Name rpi) sub = Ok r)
         (Subscriptions rpi).
Proof.
  unfold InitWriters_rp. rewrite go_bind_eq.
  destruct (InitWriters_subs _ _ _ _ _ _ s) as [[[ws s1] t1]|] eqn:E; [|done].
  apply InitWriters_subs_inv in E as (-> & -> & Hsa & Hst & _ & Hok).
  destruct (store_writers _ _ _ _) as [[[[] s2] t2]|] eqn:Es; [|done].
  intros [= <- <-].
  apply store_writers_inv in Es as (-> & Hh & Hm & Hl & Hf & Hd).
  cbn zeta. rewrite app_nil_r, Hh. cbn [heap with_heap app] in *.
  repeat split; try done; apply Hd.
Qed.

Lemma initialized_names db rp subs :
  Forall (fun w => Name w ∈ sub_Name <$> subs) (initialized sys config db rp subs) /\
  Forall (fun sub => sub_Name sub ∈ Name <$> initialized sys config db rp subs \/
                     (exists e, sub_writer sys config db rp sub = Ok (Failure e)) \/
                     (exists m, sub_writer sys config db rp sub = Panic m)) subs.
Proof.
  induction subs as [|sub subs [IH1 IH2]]; [by split|].
  rewrite initialized_cons.
  assert (Hw1 : Forall (fun w => Name w ∈ sub_Name <$> sub :: subs)
                       (initialized sys config db rp subs)).
  { eapply Forall_impl; [exact IH1|]. intros w ?. rewrite fmap_cons. by right. }
  destruct (sub_writer sys config db rp sub) as [[w|e]|m] eqn:Hw.
  - pose proof (new_writer_Name _ _ _ _ _ _ _ _ Hw) as Hn. split.
    + constructor; [|done]. rewrite started_Name, Hn, fmap_cons. left.
    + constructor.
      * left. rewrite fmap_cons, started_Name, Hn. left.
      * eapply Forall_impl; [exact IH2|]. intros x [?|?]; [left|by right].
        rewrite fmap_cons. by right.
  - split; [done|]. constructor; [right; left; by eexists|done].
  - split; [done|]. constructor; [right; right; by eexists|done].
Qed.

Lemma names_at_fresh h new :
  names_at (h ++ new) (seq (length h) (length new)) = Name <$> new.
Proof.
  unfold names_at. revert h. induction new as [|w new IH]; intros h; [done|].
  cbn [length seq omap list_omap]. unfold name_at at 1.
  rewrite lookup_app_r, Nat.sub_diag by done. cbn.
  f_equal. specialize (IH (h ++ [w])). rewrite <- app_assoc, length_app in IH.
  cbn in IH. rewrite Nat.add_1_r in IH. exact IH.
Qed.

Lemma InitWriters_rp_settles db rpi s s' t :
  InitWriters_rp sys config db rpi s = Ok (tt, s', t) -> settled sys config s' db rpi.
Proof.
  intros (Hh & Hlk & _ & _ & _ & _ & _ & Hok)%InitWriters_rp_inv.
  destruct (initialized_names db (rp_Name rpi) (Subscriptions rpi)) as [Hn1 Hn2].
  set (new := initialized _ _ _ _ _) in *.
  eexists. split; [exact Hlk|]. rewrite Hh. split.
  - apply Forall_forall. intros l [Hlo Hhi]%elem_of_seq. unfold named_in.
    replace l with (length (heap s) + (l - length (heap s)))%nat by lia.
    rewrite name_at_app_r.
    destruct (lookup_lt_is_Some_2 new (l - length (heap s))) as [w Hw]; [lia|].
    rewrite Hw. cbn. apply elem_of_list_to_set.
    apply (proj1 (Forall_forall _ _) Hn1 w). by eapply list_elem_of_lookup_2.
  - rewrite names_at_fresh. apply Forall_forall. intros sub Hsub.
    destruct (proj1 (Forall_forall _ _) Hn2 sub Hsub) as [?|[?|[m Hm]]];
      [by left|by right|].
    destruct (proj1 (Forall_forall _ _) Hok sub Hsub) as [r Hr]. congruence.
Qed.

Lemma InitWriters_rp_frame db rpi s s' t :
  InitWriters_rp sys config db rpi s = Ok (tt, s', t) ->
  (forall d r, (d, r) <> (db, rp_Name rpi) -> lookup_writers s' d r = lookup_writers s d r) /\
  (forall d, is_Some (writers s' !! d) <-> is_Some (writers s !! d)) /\
  (forall l n, name_at (heap s) l = Some n -> name_at (heap s') l = Some n).
Proof.
  intros (Hh & _ & Hf & Hd & _)%InitWriters_rp_inv. split; [done|]. split; [done|].
  intros l n Hn. rewrite Hh, name_at_app_l; [done|].
  unfold name_at in Hn. destruct (heap s !! l); [by eexists|done].
Qed.

Lemma InitWriters_db_eq dbi s :
  InitWriters_db sys config dbi s =
    go_range (RetentionPolicies dbi) (InitWriters_rp sys config (db_Name dbi))
             (reset (db_Name dbi) s).
Proof.
  unfold InitWriters_db. rewrite go_bind_eq. unfold go_get at 1. cbn beta iota.
  rewrite go_bind_eq. unfold go_put at 1. cbn beta iota.
  change (go_range (RetentionPolicies dbi) _) with
    (go_range (RetentionPolicies dbi) (InitWriters_rp sys config (db_Name dbi))).
  fold (reset (db_Name dbi) s).
  by destruct (go_range _ _ _) as [[[[] ?] ?]|].
Qed.

Lemma reset_lookup_writers db s d r :
  d <> db -> lookup_writers (reset db s) d r = lookup_writers s d r.
Proof. intros Hne. unfold reset, lookup_writers. cbn. by rewrite lookup_insert_ne. Qed.

Lemma InitWriters_db_settles dbi s s' t :
  wf_db dbi ->
  InitWriters_db sys config dbi s = Ok (tt, s', t) -> settled_db sys config s' dbi.
Proof.
  intros [Hnd _]. rewrite InitWriters_db_eq. intros E. split.
  - eapply (go_range_preserves _ (fun s => is_Some (writers s !! db_Name dbi)));
      [|exact E|].
    + intros rpi s1 s2 t1 _ (_ & Hdom & _)%InitWriters_rp_frame. by apply Hdom.
    + unfold reset. cbn. rewrite lookup_insert_eq. by eexists.
  - eapply (go_range_establishes _ rp_Name (fun s rpi => settled sys config s (db_Name dbi) rpi));
      [exact Hnd| | |exact E].
    + intros rpi s1 s2 t1 _. apply InitWriters_rp_settles.
    + intros rpi rpj s1 s2 t1 _ Hne (Hlk & _ & Hnames)%InitWriters_rp_frame.
      apply settled_frame; [|done]. apply Hlk. congruence.
Qed.

Lemma InitWriters_db_frame dbi dbj s s' t :
  db_Name dbj <> db_Name dbi ->
  InitWriters_db sys config dbi s = Ok (tt, s', t) ->
  settled_db sys config s dbj -> settled_db sys config s' dbj.
Proof.
  intros Hne. rewrite InitWriters_db_eq. intros E Hs.
  eapply (go_range_preserves _ (fun s => settled_db sys config s dbj)); [|exact E|].
  - intros rpi s1 s2 t1 _ (Hlk & Hdom & Hnames)%InitWriters_rp_frame [Hsome Hall].
    split; [by apply Hdom|].
    eapply Forall_impl; [exact Hall|]. intros rpj.
    apply settled_frame; [|done]. apply Hlk. congruence.
  - destruct Hs as [Hsome Hall]. split.
    + unfold reset. cbn. by rewrite lookup_insert_ne.
    + eapply Forall_impl; [exact Hall|]. intros rpj.
      apply settled_frame; [by apply reset_lookup_writers|done].
Qed.

(** X13. The manager that [InitWriters] leaves behind is already
    reconciled: when the names of the metadata are unique, a call of
    [UpdateWriters] against the same metadata returns that manager as it is
    and neither starts nor stops a writer; and the generation counter has
    been brought up to the metadata, so that the next turn of [Update] does
    not even get that far. *)
Theorem InitWriters_leaves_nothing_to_reconcile
    (client : MetaClient) (s0 s1 : SubscriberManager) (t1 : list event) :
  wf_meta client ->
  InitWriters sys config client s0 = Ok (tt, s1, t1) ->
  lastModifiedID s1 = GetMaxSubscriptionID client /\
  Update_turn sys config client s1 = Ok (tt, s1, []) /\
  exists t2,
    UpdateWriters sys config client s1 = Ok (tt, s1, t2) /\
    started_locs t2 = [] /\ stopped_locs t2 = [].
Proof.
  intros [Hnd Hwf]. unfold InitWriters, WalkDatabases. rewrite go_bind_eq.
  destruct (go_range (Databases client) _ s0) as [[[[] s] t]|] eqn:E; [|done].
  rewrite go_bind_eq. unfold go_get at 1, go_put. cbn beta iota.
  intros [= <- <-].
  assert (Hall : Forall (settled_db sys config s) (Databases client)).
  { eapply (go_range_establishes _ db_Name (settled_db sys config)); [exact Hnd| | |exact E].
    - intros dbi sa sb tb Hdbi. apply InitWriters_db_settles.
      by apply (proj1 (Forall_forall _ _) Hwf).
    - intros dbi dbj sa sb tb _ Hne. by apply InitWriters_db_frame. }
  split; [done|]. split.
  - unfold Update_turn. rewrite go_bind_eq. unfold go_get at 1. cbn beta iota.
    cbn [lastModifiedID with_lastModifiedID]. by rewrite N.ltb_irrefl.
  - unfold UpdateWriters, WalkDatabases.
    apply go_range_quiet. apply Forall_forall. intros dbi Hdbi.
    apply UpdateWriters_db_settled.
    + by apply (proj1 (Forall_forall _ _) Hwf).
    + destruct (proj1 (Forall_forall _ _) Hall dbi Hdbi) as [Hsome Hst].
      split; [done|]. eapply Forall_impl; [exact Hst|]. intros rpi.
      by apply settled_frame.
Qed.
End Init.

(** ** The change-notification loop *)

Section Update.
Variable sys : Sys.
Variable config : Subscriber.
Variable client : MetaClient.

(** X14. A turn of [Update] reconciles exactly once per generation.  When
    the generation counter of the metadata does not exceed the last one
    applied, the turn leaves the manager alone.  Otherwise it runs
    [UpdateWriters] on the manager as it is, with the effects of that run
    and no others, and records the counter in the manager that
    [UpdateWriters] returns.  The turn that follows a turn does nothing at
    all. *)
Theorem Update_turn_reconciles_once_per_generation
    (s s1 : SubscriberManager) (t1 : list event) :
  Update_turn sys config client s = Ok (tt, s1, t1) ->
  lastModifiedID s1 = N.max (lastModifiedID s) (GetMaxSubscriptionID client) /\
  ((GetMaxSubscriptionID client <= lastModifiedID s)%N -> s1 = s /\ t1 = []) /\
  ((lastModifiedID s < GetMaxSubscriptionID client)%N ->
   exists s2,
     UpdateWriters sys config client s = Ok (tt, s2, t1) /\
     s1 = with_lastModifiedID s2 (GetMaxSubscriptionID client)) /\
  Update_turn sys config client s1 = Ok (tt, s1, []).
Proof.
  unfold Update_turn. rewrite !go_bind_eq. unfold go_get at 1 3. cbn beta iota.
  destruct (N.ltb_spec (lastModifiedID s) (GetMaxSubscriptionID client)) as [Hlt|Hge].
  - rewrite go_bind_eq.
    destruct (UpdateWriters sys config client s) as [[[[] s2] t2]|]; [|done].
    rewrite go_bind_eq. unfold go_get, go_put. cbn beta iota.
    intros [= <- <-]. cbn [lastModifiedID with_lastModifiedID].
    rewrite N.ltb_irrefl. split; [lia|]. split; [lia|]. split; [|done].
    intros _. exists s2. by rewrite !app_nil_r.
  - intros [= <- <-]. destruct (N.ltb_spec (lastModifiedID s) (GetMaxSubscriptionID client));
      [lia|]. split; [lia|]. split; [done|]. split; [lia|done].
Qed.

(** ** What the reconciliation leaves alone *)

Lemma UpdateWriters_db_frame_lookup dbi s s' t d r :
  (forall rpi, rpi ∈ RetentionPolicies dbi -> (db_Name dbi, rp_Name rpi) <> (d, r)) ->
  UpdateWriters_db sys config dbi s = Ok (tt, s', t) ->
  lookup_writers s' d r = lookup_writers s d r /\
  (is_Some (writers s !! d) -> is_Some (writers s' !! d)).
Proof.
  intros Hne. rewrite UpdateWriters_db_eq. intros E.
  eapply (go_range_preserves _
            (fun s1 => lookup_writers s1 d r = lookup_writers s d r /\
                       (is_Some (writers s !! d) -> is_Some (writers s1 !! d))));
    [|exact E|].
  - intros rpi s1 s2 t1 Hrpi (Hlk & Hdom & _)%UpdateWriters_rp_frame [H1 H2]. split.
    + rewrite Hlk; [done|]. intros Heq. by apply (Hne rpi Hrpi).
    + intros ?. apply Hdom. auto.
  - split; [apply ensured_lookup_writers|]. intros ?. apply ensured_is_Some. by left.
Qed.

(** An invariant of the states together with a property of the effects. *)
Lemma go_range_invariant {A} (f : A -> Go SubscriberManager event unit)
    (Q : SubscriberManager -> Prop) (T : list event -> Prop) xs s s' t :
  T [] -> (forall t1 t2, T t1 -> T t2 -> T (t1 ++ t2)) ->
  (forall x s s' t, x ∈ xs -> f x s = Ok (tt, s', t) -> Q s -> Q s' /\ T t) ->
  go_range xs f s = Ok (tt, s', t) -> Q s -> Q s' /\ T t.
Proof.
  intros Hnil Happ. revert s t. induction xs as [|x xs IH]; intros s t Hstep.
  - by intros [= <- <-].
  - intros (s1 & t1 & t2 & E1 & E2 & ->)%go_range_cons_inv HQ.
    destruct (Hstep x s s1 t1) as [HQ1 HT1]; [left|done..|].
    destruct (IH s1 t2) as [HQ2 HT2]; [|done..|].
    { intros y ? ? ? Hy. apply Hstep. by right. }
    split; [done|by apply Happ].
Qed.

(** The compaction loop touches the writers of its slice only. *)
Lemma UpdateWriters_remove_heap db rp originSubs ws s kept s' t l :
  UpdateWriters_remove db rp originSubs ws s = Ok (kept, s', t) ->
  l ∉ ws -> heap s' !! l = heap s !! l.
Proof.
  revert s kept s' t. induction ws as [|l0 ws IH]; intros s kept s' t.
  - by intros [= <- <- <-].
  - cbn [UpdateWriters_remove]. rewrite go_bind_eq, writer_Name_eq.
    destruct (heap s !! l0) as [w|] eqn:Hl; [|done]. cbn beta iota.
    intros E [Hne Hnin]%not_elem_of_cons.
    destruct (decide (Name w ∈ originSubs)) as [Hin|Hout].
    + rewrite go_bind_eq, on_writer_Stop_eq, Hl in E.
      destruct (ch (base w)) as [|cap buf|]; [done| |done]. cbn beta iota in E.
      set (s1 := with_heap s _) in E.
      assert (Hl1 : heap s1 !! l0 = Some (closed w)).
      { subst s1. simpl. apply list_lookup_insert_eq. by eapply lookup_lt_Some. }
      rewrite go_bind_eq, writer_Name_eq, Hl1 in E. cbn beta iota in E.
      rewrite go_bind_eq in E. unfold go_emit at 1 in E. cbn beta iota in E.
      destruct (UpdateWriters_remove _ _ _ ws s1) as [[[k1 s2] t1]|] eqn:E1; [|done].
      injection E as _ <- _. rewrite (IH _ _ _ _ E1 Hnin).
      subst s1. simpl. by apply list_lookup_insert_ne.
    + rewrite go_bind_eq in E.
      destruct (UpdateWriters_remove _ _ _ ws s) as [[[k1 s2] t1]|] eqn:E1; [|done].
      injection E as _ <- _. by apply (IH _ _ _ _ E1).
Qed.

Lemma UpdateWriters_rp_body_heap db rpi ws0 changed0 s s' t l :
  UpdateWriters_rp_body sys config db rpi ws0 changed0 s = Ok (tt, s', t) ->
  is_Some (heap s !! l) -> l ∉ ws0 -> heap s' !! l = heap s !! l.
Proof.
  unfold UpdateWriters_rp_body. rewrite go_bind_eq.
  destruct (origin_names ws0 ∅ s) as [[[o s0] t0]|] eqn:Eo; [|done].
  apply origin_names_inv in Eo as (-> & -> & _ & ->).
  rewrite go_bind_eq.
  destruct (UpdateWriters_add _ _ _ _ _ _ _ _ s) as [[[[[ws1 o1] c1] s1] t1]|] eqn:Ea; [|done].
  apply UpdateWriters_add_inv in Ea as (hnew & _ & Hh & -> & _).
  intros E Hl Hnin.
  assert (Hlt : (l < length (heap s))%nat) by by apply lookup_lt_is_Some.
  assert (H1 : heap s1 !! l = heap s !! l) by (rewrite Hh; by apply lookup_app_l).
  destruct (decide (size o1 = 0%nat)).
  - destruct c1.
    + destruct (store_writers _ _ _ s1) as [[[[] s2] t2]|] eqn:Es; [|done].
      injection E as <- _.
      apply store_writers_inv in Es as (_ & -> & _). done.
    + unfold go_ret in E. by injection E as <- _.
  - rewrite go_bind_eq in E.
    destruct (UpdateWriters_remove _ _ _ _ s1) as [[[k s2] t2]|] eqn:Er; [|done].
    destruct (store_writers _ _ _ s2) as [[[[] s3] t3]|] eqn:Es; [|done].
    injection E as <- _.
    apply store_writers_inv in Es as (_ & -> & _).
    rewrite (UpdateWriters_remove_heap _ _ _ _ _ _ _ _ l Er); [done|].
    intros [?|[? ?]%elem_of_seq]%elem_of_app; [done|lia].
Qed.

(** A writer outside the entry is neither stopped nor changed by the
    reconciliation of the entry, and does not enter it. *)
Lemma UpdateWriters_rp_untouched db rpi s s' t l :
  UpdateWriters_rp sys config db rpi s = Ok (tt, s', t) ->
  is_Some (heap s !! l) ->
  l ∉ default [] (lookup_writers s db (rp_Name rpi)) ->
  heap s' !! l = heap s !! l /\ (l ∉ stopped_locs t) /\
  l ∉ default [] (lookup_writers s' db (rp_Name rpi)).
Proof.
  intros E Hl Hnin.
  assert (Hlt : (l < length (heap s))%nat) by by apply lookup_lt_is_Some.
  split; [|split].
  - unfold UpdateWriters_rp in E. rewrite go_bind_eq in E. unfold go_get at 1 in E.
    cbn beta iota in E.
    destruct (lookup_writers s db (rp_Name rpi)) as [ws|];
      destruct (UpdateWriters_rp_body _ _ _ _ _ _ s) as [[[[] s1] t1]|] eqn:Eb; try done;
      injection E as <- _; by eapply UpdateWriters_rp_body_heap.
  - apply UpdateWriters_rp_inv in E as (hnew & _ & _ & _ & _ & _ & _ & _ & _ & _ & _ & _ & -> & _).
    intros [_ [?|[? ?]%elem_of_seq]%elem_of_app]%list_elem_of_filter; [done|lia].
  - apply UpdateWriters_rp_inv in E as (hnew & _ & _ & -> & _).
    cbn [default from_option id].
    intros [_ [?|[? ?]%elem_of_seq]%elem_of_app]%list_elem_of_filter; [done|lia].
Qed.

(** X15. [UpdateWriters] never evicts what the metadata no longer lists.
    An entry of the registry whose database and retention policy are not
    both in the metadata keeps its list of writers, and no database key is
    ever removed.  Moreover a writer that is registered under no listed
    pair -- the writers of such an entry, unless they are shared with a
    listed one -- is not stopped and is left in the state it was in. *)
Theorem UpdateWriters_keeps_unlisted_entries
    (s s' : SubscriberManager) (t : list event) (d r : string) :
  UpdateWriters sys config client s = Ok (tt, s', t) ->
  (forall dbi rpi, dbi ∈ Databases client -> rpi ∈ RetentionPolicies dbi ->
                   (db_Name dbi, rp_Name rpi) <> (d, r)) ->
  lookup_writers s' d r = lookup_writers s d r /\
  (is_Some (writers s !! d) -> is_Some (writers s' !! d)) /\
  (forall l,
      l ∈ default [] (lookup_writers s d r) ->
      is_Some (heap s !! l) ->
      (forall dbi rpi, dbi ∈ Databases client -> rpi ∈ RetentionPolicies dbi ->
                       l ∉ default [] (lookup_writers s (db_Name dbi) (rp_Name rpi))) ->
      heap s' !! l = heap s !! l /\ (l ∉ stopped_locs t) /\
      l ∈ default [] (lookup_writers s' d r)).
Proof.
  intros E Hne.
  assert (Hentry : lookup_writers s' d r = lookup_writers s d r /\
                   (is_Some (writers s !! d) -> is_Some (writers s' !! d))).
  { unfold UpdateWriters, WalkDatabases in E.
    eapply (go_range_preserves _
              (fun s1 => lookup_writers s1 d r = lookup_writers s d r /\
                         (is_Some (writers s !! d) -> is_Some (writers s1 !! d))));
      [|exact E|by split].
    intros dbi s1 s2 t1 Hdbi E1 [H1 H2].
    destruct (UpdateWriters_db_frame_lookup dbi s1 s2 t1 d r) as [H3 H4]; [|done|].
    { intros rpi Hrpi. by apply Hne. }
    split; [congruence|auto]. }
  destruct Hentry as [Hlk Hdom]. split; [done|]. split; [done|].
  intros l Hin Hl Hfree.
  set (Q := fun s1 : SubscriberManager =>
              heap s1 !! l = heap s !! l /\
              forall dbi rpi, dbi ∈ Databases client -> rpi ∈ RetentionPolicies dbi ->
                l ∉ default [] (lookup_writers s1 (db_Name dbi) (rp_Name rpi))).
  set (T := fun t1 : list event => l ∉ stopped_locs t1).
  assert (Hnil : T []) by (unfold T; apply not_elem_of_nil).
  assert (Happ : forall t1 t2, T t1 -> T t2 -> T (t1 ++ t2)).
  { unfold T. intros t1 t2 H1 H2. rewrite stopped_locs_app. by apply not_elem_of_app. }
  assert (Hall : Q s' /\ T t).
  { unfold UpdateWriters, WalkDatabases in E.
    eapply (go_range_invariant _ Q T); [done|done| |exact E|by split].
    intros dbi s1 s2 t1 Hdbi E1 HQ1. rewrite UpdateWriters_db_eq in E1.
    eapply (go_range_invariant _ Q T); [done|done| |exact E1|].
    - intros rpi s3 s4 t3 Hrpi E3 [Hh3 Hfree3].
      destruct (UpdateWriters_rp_untouched _ _ _ _ _ l E3) as (U1 & U2 & U3).
      { rewrite Hh3. done. }
      { by apply Hfree3. }
      split; [|done]. split; [congruence|].
      intros dbj rpj Hdbj Hrpj.
      destruct (decide ((db_Name dbj, rp_Name rpj) = (db_Name dbi, rp_Name rpi)))
        as [[= -> ->]|Hother]; [done|].
      apply UpdateWriters_rp_frame in E3 as [Hf _]. rewrite (Hf _ _ Hother).
      by apply Hfree3.
    - destruct HQ1 as [Hh1 Hfree1]. split; [by rewrite ensured_heap|].
      intros dbj rpj Hdbj Hrpj. rewrite ensured_lookup_writers. by apply Hfree1. }
  destruct Hall as [[Hh _] Ht]. split; [done|]. split; [done|]. by rewrite Hlk.
Qed.

(** X16. The reconciliation compares names and nothing else: when the
    writers of an entry carry exactly the names of the subscriptions now
    listed, it returns the manager unchanged and neither starts nor stops a
    writer, whatever the modes and destinations of the subscriptions -- a
    subscription changed in place is not picked up. *)
Theorem UpdateWriters_rp_compares_names_only
    (s : SubscriberManager) (db : string) (rpi : RetentionPolicyInfo) (ws : list loc) :
  lookup_writers s db (rp_Name rpi) = Some ws ->
  Forall (fun l => is_Some (heap s !! l)) ws ->
  NoDup (sub_Name <$> Subscriptions rpi) ->
  (forall n, n ∈ names_at (heap s) ws <-> n ∈ sub_Name <$> Subscriptions rpi) ->
  exists t,
    UpdateWriters_rp sys config db rpi s = Ok (tt, s, t) /\
    started_locs t = [] /\ stopped_locs t = [].
Proof.
  intros Hlk Hvalid Hnd Hnames. apply UpdateWriters_rp_settled; [done|].
  exists ws. split; [done|]. split.
  - apply Forall_forall. intros l Hl.
    destruct (proj1 (Forall_forall _ _) Hvalid l Hl) as [w Hw].
    assert (Hn : name_at (heap s) l = Some (Name w)) by (unfold name_at; by rewrite Hw).
    unfold named_in. rewrite Hn. apply elem_of_list_to_set, Hnames, elem_of_names_at. eauto.
  - apply Forall_forall. intros sub Hsub. left.
    apply Hnames, list_elem_of_fmap. eauto.
Qed.
End Update.

(** ** Routing of writes *)

Section Trace.
Context {S E A : Type} (f : A -> Go S E unit).

(** What holds of the effects of every step holds of those of the loop. *)
Lemma go_range_trace (P : E -> Prop) xs s s' t :
  (forall x s s' t, x ∈ xs -> f x s = Ok (tt, s', t) -> Forall P t) ->
  go_range xs f s = Ok (tt, s', t) -> Forall P t.
Proof.
  revert s t. induction xs as [|x xs IH]; intros s t Hstep.
  - intros [= <- <-]. constructor.
  - intros (s1 & t1 & t2 & E1 & E2 & ->)%go_range_cons_inv.
    apply Forall_app. split.
    + eapply Hstep; [left|exact E1].
    + eapply IH; [|exact E2]. intros y ? ? ? Hy. apply Hstep. by right.
Qed.

(** Each step establishes [P] for its own element, and every step keeps
    what it finds established. *)
Lemma go_range_marks {B} (P : S -> B -> Prop) (R : A -> B -> Prop) xs s s' t :
  (forall x s s' t y, x ∈ xs -> f x s = Ok (tt, s', t) -> R x y -> P s' y) ->
  (forall x s s' t y, x ∈ xs -> f x s = Ok (tt, s', t) -> P s y -> P s' y) ->
  go_range xs f s = Ok (tt, s', t) ->
  forall x y, x ∈ xs -> R x y -> P s' y.
Proof.
  revert s t. induction xs as [|x xs IH]; intros s t Hest Hpres.
  - intros _ x y Hx. by apply elem_of_nil in Hx.
  - intros (s1 & t1 & t2 & E1 & E2 & _)%go_range_cons_inv x' y Hx' HR.
    apply elem_of_cons in Hx' as [->|Hx'].
    + eapply (go_range_preserves f (fun s => P s y)); [|exact E2|].
      * intros z ? ? ? Hz. apply Hpres. by right.
      * eapply Hest; [left|exact E1|exact HR].
    + eapply IH; [| |exact E2|exact Hx'|exact HR].
      * intros z ? ? ? ? Hz. apply Hest. by right.
      * intros z ? ? ? ? Hz. apply Hpres. by right.
Qed.
End Trace.

Lemma Send_enqueue_only (wr : WriteRequest) (b b' : BaseWriter) (t : list wevent) :
  BaseWriter_Send wr b = Ok (tt, b', t) -> Forall enqueue_only t.
Proof.
  unfold BaseWriter_Send, Send_default.
  destruct (ch b) as [|cap buf|buf]; [| |done].
  - destruct (index _ _); [|done]. intros [= <- <-]. by repeat constructor.
  - destruct (handoff _ _).
    { intros [= <- <-]. by repeat constructor. }
    destruct (_ <? _)%nat.
    { intros [= <- <-]. by repeat constructor. }
    destruct (index _ _); [|done]. intros [= <- <-]. by repeat constructor.
Qed.

Lemma perform_inv (d : dispatch) (w w' : SubscriberWriter) (t : list wevent) :
  perform d w = Ok (tt, w', t) ->
  Name w' = Name w /\ Forall enqueue_only t /\
  forall wr, wr ∈ attempts t -> exists i, wr = request_of i d.
Proof.
  intros E. split; [|split].
  - assert (H : same_writer (base w) (base w')).
    { destruct d; apply dispatch_Ok_inv in E; apply E. }
    unfold Name, BaseWriter_Name. apply H.
  - destruct w as [b|b i].
    + rewrite perform_AllWriter in E. unfold embedded, AllWriter_loop in E. cbn [base] in E.
      rewrite go_bind_eq in E. unfold go_get at 1 in E. cbn beta iota in E.
      destruct (go_range _ _ b) as [[[[] b1] t1]|] eqn:E1; [|done].
      injection E as <- <-. rewrite ?app_nil_l.
      eapply go_range_trace; [|exact E1].
      intros ? ? ? ? _. apply Send_enqueue_only.
    + rewrite perform_RoundRobinWriter, go_bind_eq in E. unfold RoundRobin_next in E.
      destruct (len (clients b) =? 0); [done|]. cbn beta iota in E.
      unfold embedded in E. cbn [base] in E.
      destruct (BaseWriter_Send _ b) as [[[[] b1] t1]|] eqn:E1; [|done].
      injection E as <- <-. rewrite ?app_nil_l. by eapply Send_enqueue_only.
  - destruct d; apply dispatch_Ok_inv in E as [_ E]; intros wr Hwr;
      destruct (E wr Hwr) as [i ->]; by exists i.
Qed.

Lemma on_writer_inv {A} (l : loc) (m : Go SubscriberWriter wevent A) s a s' t :
  on_writer l m s = Ok (a, s', t) ->
  exists w w' tw,
    heap s !! l = Some w /\ m w = Ok (a, w', tw) /\
    s' = with_heap s (<[l := w']> (heap s)) /\ t = OnWriter l <$> tw.
Proof.
  unfold on_writer. destruct (heap s !! l) as [w|]; [|done].
  destruct (m w) as [[[a' w'] tw]|] eqn:E; [|done].
  intros [= <- <- <-]. by exists w, w', tw.
Qed.

Lemma started_locs_enqueue_only l tw :
  Forall enqueue_only tw ->
  started_locs (OnWriter l <$> tw) = [] /\ stopped_locs (OnWriter l <$> tw) = [] /\
  errors_at (OnWriter l <$> tw) = [].
Proof.
  induction 1 as [|e tw He _ IH]; [done|].
  destruct IH as (I1 & I2 & I3). rewrite fmap_cons.
  destruct e as [| | [] | |]; try done.
Qed.

Lemma forwarded_app t1 t2 : forwarded (t1 ++ t2) = forwarded t1 ++ forwarded t2.
Proof. apply omap_app. Qed.

Lemma forwarded_on_writer l tw :
  forwarded (OnWriter l <$> tw) = (fun wr => (l, wr)) <$> attempts tw.
Proof.
  induction tw as [|e tw IH]; [done|]. rewrite fmap_cons.
  change (OnWriter l e :: (OnWriter l <$> tw)) with ([OnWriter l e] ++ (OnWriter l <$> tw)).
  change (e :: tw) with ([e] ++ tw).
  rewrite forwarded_app, attempts_app, fmap_app, IH. f_equal. by destruct e.
Qed.

(** The loop of [Send] and [SendColumn] over the writers of an entry. *)
Lemma forward_inv (d : dispatch) (ws : list loc) s s' t :
  go_range ws (fun l => on_writer l (perform d)) s = Ok (tt, s', t) ->
  (writers s' = writers s /\ lastModifiedID s' = lastModifiedID s /\
   length (heap s') = length (heap s) /\
   (forall l, name_at (heap s') l = name_at (heap s) l) /\
   (forall l, l ∉ ws -> heap s' !! l = heap s !! l)) /\
  started_locs t = [] /\ stopped_locs t = [] /\ errors_at t = [] /\
  forall l wr, (l, wr) ∈ forwarded t -> l ∈ ws /\ exists i, wr = request_of i d.
Proof.
  revert s t. induction ws as [|l0 ws IH]; intros s t.
  - intros [= <- <-]. do 4 (split; [done|]). intros l wr H. by apply elem_of_nil in H.
  - intros (s1 & t1 & t2 & E1 & E2 & ->)%go_range_cons_inv.
    apply on_writer_inv in E1 as (w & w' & tw & Hw & Ew & -> & ->).
    apply perform_inv in Ew as (Hn & Hq & Hreq).
    destruct (IH _ _ E2) as ((I1 & I2 & I3 & I4 & I5) & J1 & J2 & J3 & J4).
    destruct (started_locs_enqueue_only l0 tw Hq) as (K1 & K2 & K3).
    cbn [heap with_heap writers lastModifiedID] in *.
    split; [|split; [|split; [|split]]].
    + split; [done|]. split; [done|]. split; [by rewrite I3, length_insert|]. split.
      * intros l. rewrite I4. unfold name_at. destruct (decide (l0 = l)) as [<-|Hne].
        -- rewrite list_lookup_insert_eq by by eapply lookup_lt_Some. rewrite Hw.
           simpl. by rewrite Hn.
        -- by rewrite list_lookup_insert_ne.
      * intros l Hl. apply not_elem_of_cons in Hl as [Hne Hl].
        rewrite (I5 l Hl). by rewrite list_lookup_insert_ne.
    + by rewrite started_locs_app, K1, J1.
    + by rewrite stopped_locs_app, K2, J2.
    + unfold errors_at in *. by rewrite omap_app, K3, J3.
    + intros l wr. rewrite forwarded_app, elem_of_app, forwarded_on_writer.
      intros [(wr' & [= -> ->] & Hwr)%list_elem_of_fmap|H].
      * split; [left|]. auto.
      * destruct (J4 l wr H) as [? ?]. split; [by right|done].
Qed.

Lemma perform_eq client db rp d s :
  SubscriberManager_perform client db rp d s =
    (rp' <~ resolve_rp client db rp ;
     s' <~ go_get ;
     match lookup_writers s' db rp' with
     | Some ws => go_range ws (fun l => on_writer l (perform d))
     | None => go_ret tt
     end) s.
Proof. by destruct d. Qed.

Section Routing2.
Variable client : MetaClient.

(** X17. [Send] and [SendColumn] only enqueue: whatever the arguments, a
    call that returns leaves the registry, the generation counter and the
    names of all writers as they were, starts and stops no writer, and
    every request it hands to a writer is one built from its own
    arguments. *)
Theorem Send_only_enqueues
    (s s' : SubscriberManager) (t : list event) (db rp : string) (d : dispatch) :
  SubscriberManager_perform client db rp d s = Ok (tt, s', t) ->
  writers s' = writers s /\ lastModifiedID s' = lastModifiedID s /\
  length (heap s') = length (heap s) /\
  (forall l, name_at (heap s') l = name_at (heap s) l) /\
  started_locs t = [] /\ stopped_locs t = [] /\
  forall l wr, (l, wr) ∈ forwarded t -> exists i, wr = request_of i d.
Proof.
  rewrite perform_eq, go_bind_eq.
  assert (Hres : exists rp' t0, resolve_rp client db rp s = Ok (rp', s, t0) /\
                                started_locs t0 = [] /\ stopped_locs t0 = [] /\
                                forwarded t0 = []).
  { unfold resolve_rp. destruct (String.eqb rp EmptyString).
    - destruct (Database client db); eexists _, _; by split.
    - eexists _, _; by split. }
  destruct Hres as (rp' & t0 & -> & Z1 & Z2 & Z3).
  rewrite go_bind_eq. unfold go_get at 1. cbn beta iota.
  destruct (lookup_writers s db rp') as [ws|].
  - destruct (go_range ws _ s) as [[[[] s1] t1]|] eqn:E; [|done].
    intros [= <- <-]. apply forward_inv in E as ((I1 & I2 & I3 & I4 & _) & J1 & J2 & _ & J4).
    rewrite ?app_nil_l, started_locs_app, stopped_locs_app, forwarded_app, Z1, Z2, Z3, J1, J2.
    do 6 (split; [done|]). intros l wr H. by destruct (J4 l wr H).
  - intros [= <- <-]. rewrite ?app_nil_r, Z1, Z2, Z3. do 6 (split; [done|]).
    intros l wr H. by apply elem_of_nil in H.
Qed.

(** X18. With a retention policy named by the caller, [Send] and
    [SendColumn] never consult the metadata: the result is the same for
    every metadata client and no lookup failure is logged.  Only the
    writers registered under that database and retention policy are
    reached; every other writer is left as it is, and without such an entry
    the call does nothing. *)
Theorem Send_with_a_named_retention_policy
    (s s' : SubscriberManager) (t : list event) (db rp : string) (d : dispatch) :
  rp <> EmptyString ->
  (lookup_writers s db rp = None ->
   SubscriberManager_perform client db rp d s = Ok (tt, s, [])) /\
  (SubscriberManager_perform client db rp d s = Ok (tt, s', t) ->
   (forall client', SubscriberManager_perform client' db rp d s = Ok (tt, s', t)) /\
   errors_at t = [] /\
   (forall l, l ∉ default [] (lookup_writers s db rp) -> heap s' !! l = heap s !! l) /\
   (forall l wr, (l, wr) ∈ forwarded t -> l ∈ default [] (lookup_writers s db rp))).
Proof.
  intros Hrp.
  assert (Hres : forall c, resolve_rp c db rp = go_ret rp).
  { intros c. unfold resolve_rp. by destruct (String.eqb_spec rp EmptyString). }
  assert (Heq : forall c, SubscriberManager_perform c db rp d s =
                          match lookup_writers s db rp with
                          | Some ws => go_range ws (fun l => on_writer l (perform d)) s
                          | None => Ok (tt, s, [])
                          end).
  { intros c.
    rewrite perform_eq, Hres, go_bind_eq. unfold go_ret at 1. cbn beta iota.
    rewrite go_bind_eq. unfold go_get at 1. cbn beta iota.
    destruct (lookup_writers s db rp) as [ws|]; [|done].
    by destruct (go_range ws _ s) as [[[[] ?] ?]|]. }
  split.
  - intros Hno. by rewrite Heq, Hno.
  - intros E. split; [intros c; by rewrite Heq, <- (Heq client)|].
    rewrite Heq in E. destruct (lookup_writers s db rp) as [ws|].
    + apply forward_inv in E as ((_ & _ & _ & _ & I5) & _ & _ & J3 & J4).
      cbn [default from_option id]. do 2 (split; [done|]).
      intros l wr H. by destruct (J4 l wr H).
    + injection E as <- <-. do 2 (split; [done|]).
      intros l wr H. by apply elem_of_nil in H.
Qed.
End Routing2.

(** ** Shutting down *)

(** From [s] to [s'] the registry is kept and no closed writer is lost. *)
Lemma on_writer_Stop_inv l s s' t :
  on_writer l Stop s = Ok (tt, s', t) ->
  stops_more s s' /\ closed_at s' l /\ t = [OnWriter l EvStop].
Proof.
  rewrite on_writer_Stop_eq. destruct (heap s !! l) as [w|] eqn:Hw; [|done].
  destruct (ch (base w)) as [|cap buf|buf] eqn:Hch; [done| |done].
  intros [= <- <-].
  assert (Hcl : stopped (base (closed w)) = true).
  { unfold closed, stopped. destruct w as [b|b i]; cbn [base] in *; by rewrite Hch. }
  split; [|split; [|done]].
  - split; [done|]. split; [done|]. intros y (wy & Hy & Hs). unfold closed_at. cbn [heap with_heap].
    destruct (decide (l = y)) as [<-|Hne].
    + exists (closed w). split; [|done].
      apply list_lookup_insert_eq. by eapply lookup_lt_Some.
    + exists wy. by rewrite list_lookup_insert_ne.
  - exists (closed w). split; [|done]. cbn [heap with_heap].
    apply list_lookup_insert_eq. by eapply lookup_lt_Some.
Qed.

Lemma stops_more_refl s : stops_more s s.
Proof. by repeat split. Qed.

Lemma stops_more_trans s1 s2 s3 : stops_more s1 s2 -> stops_more s2 s3 -> stops_more s1 s3.
Proof.
  intros (A1 & A2 & A3) (B1 & B2 & B3). split; [congruence|]. split; [congruence|auto].
Qed.

Lemma go_range_stops_more {A} (f : A -> Go SubscriberManager event unit) xs s s' t :
  (forall x s s' t, x ∈ xs -> f x s = Ok (tt, s', t) -> stops_more s s') ->
  go_range xs f s = Ok (tt, s', t) -> stops_more s s'.
Proof.
  intros Hstep E.
  eapply (go_range_preserves f (fun s1 => stops_more s s1)); [|exact E|apply stops_more_refl].
  intros x s1 s2 t1 Hx E1 H1. eapply stops_more_trans; [exact H1|]. by eapply Hstep.
Qed.

Lemma Stop_writers_inv (ws : list loc) s s' t :
  go_range ws (fun l => on_writer l Stop) s = Ok (tt, s', t) ->
  stops_more s s' /\ (forall l, l ∈ ws -> closed_at s' l) /\ stopped_locs t = ws /\
  started_locs t = [].
Proof.
  intros E. split; [|split].
  - eapply go_range_stops_more; [|exact E].
    intros l s1 s2 t1 _ E1. by apply on_writer_Stop_inv in E1 as [? _].
  - intros l Hl.
    eapply (go_range_marks _ closed_at (fun x y => x = y)); [| |exact E|exact Hl|done].
    + intros x s1 s2 t1 y _ E1 <-. by apply on_writer_Stop_inv in E1 as (_ & ? & _).
    + intros x s1 s2 t1 y _ E1 Hy. apply on_writer_Stop_inv in E1 as ((_ & _ & H) & _). auto.
  - revert s t E. induction ws as [|l ws IH]; intros s t.
    + by intros [= <- <-].
    + intros (s1 & t1 & t2 & E1 & E2 & ->)%go_range_cons_inv.
      apply on_writer_Stop_inv in E1 as (_ & _ & ->).
      destruct (IH _ _ E2) as [I1 I2].
      rewrite stopped_locs_app, started_locs_app, I1, I2. done.
Qed.

Lemma Stop_rps_inv (rps : list (string * list loc)) s s' t :
  go_range rps (fun rp => go_range rp.2 (fun l => on_writer l Stop)) s = Ok (tt, s', t) ->
  stops_more s s' /\ (forall rp l, rp ∈ rps -> l ∈ rp.2 -> closed_at s' l) /\
  stopped_locs t = rps ≫= snd /\ started_locs t = [].
Proof.
  intros E. split; [|split].
  - eapply go_range_stops_more; [|exact E].
    intros rp s1 s2 t1 _ E1. by apply Stop_writers_inv in E1 as [? _].
  - intros rp l Hrp Hl.
    eapply (go_range_marks _ closed_at (fun (x : string * list loc) y => y ∈ x.2));
      [| |exact E|exact Hrp|exact Hl].
    + intros x s1 s2 t1 y _ E1 Hy. apply Stop_writers_inv in E1 as (_ & H & _). auto.
    + intros x s1 s2 t1 y _ E1 Hy. apply Stop_writers_inv in E1 as ((_ & _ & H) & _). auto.
  - revert s t E. induction rps as [|rp rps IH]; intros s t.
    + by intros [= <- <-].
    + intros (s1 & t1 & t2 & E1 & E2 & ->)%go_range_cons_inv.
      apply Stop_writers_inv in E1 as (_ & _ & J1 & J2).
      destruct (IH _ _ E2) as [I1 I2].
      rewrite stopped_locs_app, started_locs_app, I1, I2, J1, J2. done.
Qed.

(** The writers of the registry, in the order of [StopAllWriters]. *)
Lemma registered_spec s d r ws l :
  lookup_writers s d r = Some ws -> l ∈ ws -> l ∈ registered s.
Proof.
  unfold lookup_writers, registered. destruct (writers s !! d) as [m|] eqn:Hd; [|done].
  intros Hr Hl. apply list_elem_of_bind. exists (d, m). split; [|by apply elem_of_map_to_list].
  apply list_elem_of_bind. exists (r, ws). split; [done|]. by apply elem_of_map_to_list.
Qed.

Lemma Stop_dbs_inv (dbs : list (string * gmap string (list loc))) s s' t :
  go_range dbs (fun db => go_range (map_to_list db.2)
                            (fun rp => go_range rp.2 (fun l => on_writer l Stop))) s
    = Ok (tt, s', t) ->
  stops_more s s' /\
  stopped_locs t = dbs ≫= (fun db => map_to_list db.2 ≫= snd) /\ started_locs t = [].
Proof.
  intros E. split.
  - eapply go_range_stops_more; [|exact E].
    intros db s1 s2 t1 _ E1. by apply Stop_rps_inv in E1 as [? _].
  - revert s t E. induction dbs as [|db dbs IH]; intros s t.
    + by intros [= <- <-].
    + intros (s1 & t1 & t2 & E1 & E2 & ->)%go_range_cons_inv.
      apply Stop_rps_inv in E1 as (_ & _ & J1 & J2).
      destruct (IH _ _ E2) as [I1 I2].
      rewrite stopped_locs_app, started_locs_app, I1, I2, J1, J2. done.
Qed.

(** A loop whose steps either panic or do nothing. *)
Lemma go_range_dichotomy {S E A} (f : A -> Go S E unit) xs s msg :
  (forall x, x ∈ xs -> f x s = Panic msg \/ f x s = Ok (tt, s, [])) ->
  (go_range xs f s = Panic msg /\ exists x, x ∈ xs /\ f x s = Panic msg) \/
  (go_range xs f s = Ok (tt, s, []) /\ forall x, x ∈ xs -> f x s = Ok (tt, s, [])).
Proof.
  induction xs as [|x xs IH]; intros Hall.
  - right. split; [done|]. intros x Hx. by apply elem_of_nil in Hx.
  - cbn [go_range]. rewrite go_bind_eq.
    destruct (Hall x) as [Hp|Ho]; [left| |].
    + left. rewrite Hp. split; [done|]. exists x. split; [left|done].
    + rewrite Ho. destruct IH as [[-> (y & Hy & Hp)]|[-> Hok]].
      * intros y Hy. apply Hall. by right.
      * left. split; [done|]. exists y. split; [by right|done].
      * right. split; [done|]. intros y [->|Hy]%elem_of_cons; auto.
Qed.

(** X19. [StopAllWriters] calls [Stop] once on every writer of the
    registry and starts none; when it returns, each of them is closed and
    the registry still lists them all.  Hence a second [StopAllWriters]
    panics as soon as the registry holds a writer. *)
Theorem StopAllWriters_closes_every_registered_writer
    (s s' : SubscriberManager) (t : list event) :
  StopAllWriters s = Ok (tt, s', t) ->
  writers s' = writers s /\ lastModifiedID s' = lastModifiedID s /\
  stopped_locs t ≡ₚ registered s /\ started_locs t = [] /\
  (forall l, l ∈ registered s -> closed_at s' l) /\
  (registered s <> [] -> StopAllWriters s' = Panic "close of closed channel").
Proof.
  unfold StopAllWriters at 1. rewrite go_bind_eq. unfold go_get at 1. cbn beta iota.
  destruct (go_range _ _ s) as [[[[] s1] t1]|] eqn:E; [|done].
  intros [= <- <-]. rewrite ?app_nil_l.
  assert (Hclosed : forall l, l ∈ registered s -> closed_at s1 l).
  { intros l (db & (rp & Hl & Hrp)%list_elem_of_bind & Hdb)%list_elem_of_bind.
    eapply (go_range_marks _ closed_at
              (fun (x : string * gmap string (list loc)) y =>
                 exists rp, rp ∈ map_to_list x.2 /\ y ∈ rp.2));
      [| |exact E|exact Hdb|by exists rp].
    - intros x s2 s3 t3 y _ E1 (rp' & Hrp' & Hy).
      apply Stop_rps_inv in E1 as (_ & H & _). eauto.
    - intros x s2 s3 t3 y _ E1 Hy. apply Stop_rps_inv in E1 as ((_ & _ & H) & _). auto. }
  apply Stop_dbs_inv in E as ((W & L & _) & T1 & T2).
  split; [done|]. split; [done|]. split; [by rewrite T1|]. split; [done|]. split; [done|].
  intros Hne. unfold StopAllWriters. rewrite go_bind_eq. unfold go_get at 1. cbn beta iota.
  rewrite W.
  assert (H1 : forall (ws : list loc),
             Forall (closed_at s1) ws ->
             go_range ws (fun l => on_writer l Stop) s1
               = Panic "close of closed channel" /\ ws <> [] \/
             go_range ws (fun l => on_writer l Stop) s1 = Ok (tt, s1, []) /\ ws = []).
  { intros ws Hws. destruct ws as [|l ws]; [by right|]. left. split; [|done].
    apply Forall_cons in Hws as [(w & Hw & Hs) _].
    cbn [go_range]. rewrite go_bind_eq, on_writer_Stop_eq, Hw.
    unfold stopped in Hs. by destruct (ch (base w)). }
  assert (H2 : forall (rps : list (string * list loc)),
             (forall rp l, rp ∈ rps -> l ∈ rp.2 -> closed_at s1 l) ->
             go_range rps (fun rp => go_range rp.2 (fun l => on_writer l Stop)) s1
               = Panic "close of closed channel" \/
             go_range rps (fun rp => go_range rp.2 (fun l => on_writer l Stop)) s1
               = Ok (tt, s1, []) /\ rps ≫= snd = []).
  { intros rps Hrps.
    destruct (go_range_dichotomy
                (fun rp : string * list loc => go_range rp.2 (fun l => on_writer l Stop))
                rps s1 "close of closed channel") as [[-> _]|[-> Hok]]; [|by left|].
    - intros rp Hrp. destruct (H1 rp.2) as [[-> _]|[-> _]]; auto.
      apply Forall_forall. intros l. by apply Hrps.
    - right. split; [done|].
      assert (Hnil : forall rp, rp ∈ rps -> rp.2 = []).
      { intros rp Hrp. destruct (H1 rp.2) as [[Hp _]|[_ ?]]; [| |done].
        - apply Forall_forall. intros l. by apply Hrps.
        - by rewrite (Hok rp Hrp) in Hp. }
      clear -Hnil. induction rps as [|rp rps IH]; [done|].
      rewrite bind_cons, (Hnil rp) by left. rewrite IH; [done|].
      intros; apply Hnil; by right. }
  destruct (go_range_dichotomy
              (fun db : string * gmap string (list loc) =>
                 go_range (map_to_list db.2)
                   (fun rp => go_range rp.2 (fun l => on_writer l Stop)))
              (map_to_list (writers s)) s1 "close of closed channel") as [[-> _]|[_ Hok]];
    [|done|].
  - intros db Hdb. destruct (H2 (map_to_list db.2)) as [->|[-> _]]; auto.
    intros rp l Hrp Hl. apply Hclosed. unfold registered.
    apply list_elem_of_bind. exists db. split; [|done].
    apply list_elem_of_bind. by exists rp.
  - assert (Hex : exists l, l ∈ registered s).
    { destruct (registered s) as [|l rest]; [done|]. exists l. left. }
    destruct Hex as [l Hl]. unfold registered in Hl. apply list_elem_of_bind in Hl as (db & Hl & Hdb).
    destruct (H2 (map_to_list db.2)) as [Hp|[_ Hnil]].
    + intros rp l' Hrp Hl'. apply Hclosed. unfold registered. apply list_elem_of_bind. exists db. split; [|done].
      apply list_elem_of_bind. by exists rp.
    + by rewrite (Hok db Hdb) in Hp.
    + rewrite Hnil in Hl. by apply elem_of_nil in Hl.
Qed.

(** ** The reconciliation as a diff by name *)

Lemma filter_ext_in {A} (P Q : A -> Prop) `{!forall x, Decision (P x)}
    `{!forall x, Decision (Q x)} (l : list A) :
  (forall x, x ∈ l -> P x <-> Q x) -> filter P l = filter Q l.
Proof.
  induction l as [|x l IH]; intros Hall; [done|].
  rewrite !filter_cons, IH by (intros; apply Hall; by right).
  destruct (decide (P x)) as [HP|HP], (decide (Q x)) as [HQ|HQ]; try done.
  - destruct HQ. apply Hall; [left|done].
  - destruct HP. apply Hall; [left|done].
Qed.

Lemma filter_all {A} (P : A -> Prop) `{!forall x, Decision (P x)} (l : list A) :
  (forall x, x ∈ l -> P x) -> filter P l = l.
Proof.
  induction l as [|x l IH]; intros Hall; [done|].
  rewrite filter_cons, IH by (intros; apply Hall; by right).
  destruct (decide (P x)) as [|HP]; [done|]. destruct HP. apply Hall. left.
Qed.

Lemma filter_none {A} (P : A -> Prop) `{!forall x, Decision (P x)} (l : list A) :
  (forall x, x ∈ l -> ~ P x) -> filter P l = [].
Proof.
  induction l as [|x l IH]; intros Hall; [done|].
  rewrite filter_cons, IH by (intros; apply Hall; by right).
  destruct (decide (P x)) as [HP|]; [|done]. destruct (Hall x); [left|done].
Qed.

Section Diff.
Variable sys : Sys.
Variable config : Subscriber.

(** X20. The reconciliation of an entry is an order-preserving diff by
    name.  When it returns, the writers whose name is no longer listed have
    been stopped, in the order of the entry, and nothing else has; the
    entry keeps the writers whose name is listed, in their order and
    untouched, followed by the writers newly constructed and started for
    the listed names that had no writer. *)
Theorem UpdateWriters_rp_is_a_diff_by_name
    (s s' : SubscriberManager) (t : list event) (db : string)
    (rpi : RetentionPolicyInfo) (ws : list loc) :
  lookup_writers s db (rp_Name rpi) = Some ws ->
  UpdateWriters_rp sys config db rpi s = Ok (tt, s', t) ->
  let listed : gset string := list_to_set (sub_Name <$> Subscriptions rpi) in
  let new := created sys config db (rp_Name rpi) (Subscriptions rpi)
                     (list_to_set (names_at (heap s) ws)) in
  lookup_writers s' db (rp_Name rpi)
    = Some (filter (named_in (heap s) listed) ws ++ seq (length (heap s)) (length new)) /\
  stopped_locs t = filter (fun l => ~ named_in (heap s) listed l) ws /\
  started_locs t = seq (length (heap s)) (length new) /\
  (forall k w, new !! k = Some w -> heap s' !! (length (heap s) + k)%nat = Some w) /\
  (forall l, named_in (heap s) listed l -> heap s' !! l = heap s !! l).
Proof.
  intros Hlk E listed new.
  apply UpdateWriters_rp_inv in E
    as (hnew & Hh & Hvalid & Hlk' & _ & _ & _ & _ & _ & Hkeep & Hnew & _ & Hstop & Hstart).
  rewrite Hlk in *. cbn [default from_option id] in *.
  fold new in Hh. subst hnew. fold listed in Hlk', Hkeep, Hstop.
  set (origin := list_to_set (names_at (heap s) ws) ∖ listed) in *.
  set (h1 := heap s ++ new) in *.
  (* the writers of the entry: stopped exactly when their name is not listed *)
  assert (Hold : forall l, l ∈ ws -> named_in h1 origin l <-> ~ named_in (heap s) listed l).
  { intros l Hl. destruct (proj1 (Forall_forall _ _) Hvalid l Hl) as [w Hw].
    unfold named_in, h1. rewrite name_at_app_l by eauto.
    assert (Hn : name_at (heap s) l = Some (Name w)) by (unfold name_at; by rewrite Hw).
    rewrite Hn. unfold origin.
    assert (Name w ∈ names_at (heap s) ws) by (apply elem_of_names_at; eauto).
    set_solver. }
  (* the new writers carry listed names *)
  assert (Hfresh : forall l, l ∈ seq (length (heap s)) (length new) -> ~ named_in h1 origin l).
  { intros l [Hge Hlt]%elem_of_seq. unfold named_in, h1.
    replace l with (length (heap s) + (l - length (heap s)))%nat by lia.
    rewrite name_at_app_r.
    destruct (new !! (l - length (heap s))%nat) as [w|] eqn:Hw; [|simpl; tauto].
    simpl. destruct (proj1 (Forall_forall _ _) Hnew w) as [Hname _].
    { by eapply list_elem_of_lookup_2. }
    unfold origin. fold listed in Hname |- *. unfold listed. set_solver. }
  split; [|split; [|split; [done|split]]].
  - rewrite Hlk', filter_app. f_equal. f_equal.
    + apply filter_ext_in. intros l Hl. rewrite (Hold l Hl).
      split; [apply dec_stable|tauto].
    + by apply filter_all.
  - rewrite Hstop, filter_app, (filter_none _ (seq _ _)), app_nil_r by done.
    by apply filter_ext_in.
  - intros k w Hk. rewrite Hkeep.
    + unfold h1. by rewrite lookup_app_r, Nat.add_sub' by lia.
    + apply Hfresh, elem_of_seq. apply lookup_lt_Some in Hk. lia.
  - intros l Hl.
    assert (Hv : is_Some (heap s !! l)).
    { unfold named_in, name_at in Hl. destruct (heap s !! l); [eauto|done]. }
    rewrite Hkeep.
    + unfold h1. apply lookup_app_l. by apply lookup_lt_is_Some.
    + unfold named_in, h1. rewrite name_at_app_l by done.
      unfold named_in in Hl. destruct (name_at (heap s) l) as [n|]; [|done].
      unfold origin. set_solver.
Qed.

Lemma created_after_removal db rp subs sub post (origin : gset string) w :
  sub_Name sub ∉ origin ->
  sub_writer sys config db rp sub = Ok (Success w) ->
  started config w ∈ created sys config db rp (subs ++ sub :: post) origin.
Proof.
  revert origin. induction subs as [|x subs IH]; intros origin Hn Hw.
  - cbn [app created]. rewrite decide_False by done. rewrite Hw.
    apply elem_of_app. left. left.
  - cbn [app created]. apply elem_of_app. right. apply IH; [set_solver|done].
Qed.

(** X21. Names are not de-duplicated: when the metadata lists the same
    subscription name twice in a retention policy and the second
    occurrence can be constructed, every reconciliation that returns has
    constructed and started a further writer for it and appended it to the
    entry, whether or not a writer of that name was already there. *)
Theorem UpdateWriters_rp_repeated_name_adds_a_writer
    (s s' : SubscriberManager) (t : list event) (db : string) (rpi : RetentionPolicyInfo)
    (pre mid post : list SubscriptionInfo) (sub1 sub2 : SubscriptionInfo)
    (w : SubscriberWriter) :
  Subscriptions rpi = pre ++ sub1 :: mid ++ sub2 :: post ->
  sub_Name sub2 = sub_Name sub1 ->
  sub_writer sys config db (rp_Name rpi) sub2 = Ok (Success w) ->
  UpdateWriters_rp sys config db rpi s = Ok (tt, s', t) ->
  exists l,
    (length (heap s) <= l)%nat /\ l ∈ started_locs t /\
    heap s' !! l = Some (started config w) /\
    l ∈ default [] (lookup_writers s' db (rp_Name rpi)).
Proof.
  intros Hsubs Hname Hw E.
  apply UpdateWriters_rp_inv in E
    as (hnew & Hh & Hvalid & Hlk' & _ & _ & _ & _ & _ & Hkeep & Hnew & _ & _ & Hstart).
  set (ws0 := default [] (lookup_writers s db (rp_Name rpi))) in *.
  set (origin := list_to_set (names_at (heap s) ws0) ∖ _) in *.
  assert (Hin : started config w ∈ hnew).
  { rewrite Hh, Hsubs. clear -Hname Hw.
    generalize (list_to_set (names_at (heap s) ws0) : gset string). intros o.
    revert o. induction pre as [|x pre IH]; intros o.
    - cbn [app created]. apply elem_of_app. right.
      apply created_after_removal; [set_solver|done].
    - cbn [app created]. apply elem_of_app. right. apply IH. }
  apply list_elem_of_lookup in Hin as [k Hk].
  assert (Hlt : (k < length hnew)%nat) by by eapply lookup_lt_Some.
  assert (Hfresh : ~ named_in (heap s ++ hnew) origin (length (heap s) + k)%nat).
  { unfold named_in. rewrite name_at_app_r, Hk. simpl.
    destruct (proj1 (Forall_forall _ _) Hnew (started config w)) as [Hn _].
    { by eapply list_elem_of_lookup_2. }
    unfold origin. set_solver. }
  exists (length (heap s) + k)%nat. split; [lia|]. split; [|split].
  - rewrite Hstart. apply elem_of_seq. lia.
  - rewrite Hkeep by done. by rewrite lookup_app_r, Nat.add_sub' by lia.
  - rewrite Hlk'. cbn [default from_option id].
    apply list_elem_of_filter. split; [done|].
    apply elem_of_app. right. apply elem_of_seq. lia.
Qed.
End Diff.

(** * The further properties at work on the sample deployment *)

Lemma Write_before_Start_drops_everything_witness :
  (exists t,
      perform (DoWrite (Some Sample.payload)) (AllWriter Sample.base0)
        = Ok (tt, AllWriter Sample.base0, t) /\
      attempts t = (fun j => request_of j (DoWrite (Some Sample.payload)))
                     <$> seqZ 0 (len (clients Sample.base0)) /\
      dropped t = attempts t /\ buffered t = [] /\
      errors_logged t = attempts t ≫= drop_record Sample.base0) /\
  (exists t,
      perform (DoWrite (Some Sample.payload)) (RoundRobinWriter Sample.base0 1)
        = Ok (tt, RoundRobinWriter Sample.base0 ((1 + 1) mod len (clients Sample.base0)), t) /\
      attempts t = [request_of 1 (DoWrite (Some Sample.payload))] /\
      dropped t = attempts t /\ buffered t = [] /\
      errors_logged t = attempts t ≫= drop_record Sample.base0).
Proof.
  apply (Write_before_Start_drops_everything Sample.base0 1 (DoWrite (Some Sample.payload))).
  - reflexivity.
  - unfold len. simpl. lia.
Defined.

Lemma Stop_panics_unless_running_witness :
  Stop (AllWriter Sample.base0) = Panic "close of nil channel" /\
  (Start 1 2 ;;; Stop ;;; Stop) (AllWriter Sample.base0) = Panic "close of closed channel".
Proof.
  destruct (Stop_panics_unless_running (AllWriter Sample.base0) 1 2) as (Hnil & _ & Htwice).
  split.
  - apply Hnil. reflexivity.
  - apply Htwice. lia.
Defined.

Lemma worker_drains_the_queue_in_order_witness :
  exists b' t,
    Run_steps Sample.sys 0 (2 * length [Sample.request0; Sample.request1] + 1)
              Sample2.draining0 = Ok (tt, b', t) /\
    ch b' = ChClosed [] /\ workers b' = <[0%nat := Exited]> (workers Sample2.draining0) /\
    calls t = (fun wr => (wr_Client wr, Run_call Sample2.draining0 wr))
                <$> [Sample.request0; Sample.request1].
Proof.
  destruct (worker_drains_the_queue_in_order Sample.sys 0 0
              [Sample.request0; Sample.request1] Sample2.draining0) as [Hclosed _].
  - reflexivity.
  - repeat constructor; eexists _, _; split; reflexivity.
  - apply Hclosed. reflexivity.
Defined.

Lemma Send_hands_over_to_a_waiting_worker_witness :
  exists k b1 b2 t,
    workers Sample2.waiting0 !! k = Some Parked /\
    (Parked ∉ take k (workers Sample2.waiting0)) /\
    BaseWriter_Send Sample.request0 Sample2.waiting0
      = Ok (tt, b1, [EvSend Sample.request0 HandedOff]) /\
    ch b1 = ChOpen 0 [] /\
    workers b1 = <[k := Holding Sample.request0]> (workers Sample2.waiting0) /\
    Run_step Sample.sys k b1 = Ok (tt, b2, t) /\
    calls t = [(wr_Client Sample.request0, Run_call Sample2.waiting0 Sample.request0)] /\
    ch b2 = ChOpen 0 [] /\ workers b2 = <[k := Ready]> (workers Sample2.waiting0).
Proof.
  apply (Send_hands_over_to_a_waiting_worker Sample.sys Sample.request0 Sample2.waiting0
           0 [] Sample.http1 None).
  - reflexivity.
  - simpl. left.
  - reflexivity.
  - reflexivity.
Defined.

Lemma capability_mismatch_is_logged_and_skipped_witness :
  Run_body Sample.sys Sample.request1 Sample.running0 =
    Ok (tt, Sample.running0,
        [EvCall (wr_Client Sample.request1) (Run_call Sample.running0 Sample.request1)
                (Some "http client dosen't send column");
         forward_record Sample.running0 Sample.http2 "http client dosen't send column"]).
Proof.
  destruct (capability_mismatch_is_logged_and_skipped Sample.sys Sample.running0
              Sample.request1 Sample.http2) as [_ Hhttp].
  - reflexivity.
  - apply (Hhttp 30 None (mkURL "http" "a:2" "http://a:2")); reflexivity.
Defined.

Lemma http_delivery_succeeds_on_200_and_204_only_witness :
  exists r,
    Run_body Sample.sys Sample.request0 Sample.running0 =
      Ok (tt, Sample.running0,
          EvCall (wr_Client Sample.request0)
                 (CallSend (db Sample.running0) (rp Sample.running0) (Some Sample.payload)) r ::
          match r with
          | Some err =>
              [forward_record Sample.running0
                 (HTTPClient 30 None (mkURL "http" "a:1" "http://a:1")) err]
          | None => []
          end) /\
    (r = None <->
     exists status body,
       http_Post Sample.sys (url_String (mkURL "http" "a:1" "http://a:1"))
                 (db Sample.running0) (rp Sample.running0) Sample.payload
         = Success (status, body) /\
       (status = 200 \/ status = 204)).
Proof.
  apply (http_delivery_succeeds_on_200_and_204_only Sample.sys Sample.running0
           Sample.request0 Sample.payload 30 None (mkURL "http" "a:1" "http://a:1"));
    reflexivity.
Defined.

Lemma rpc_client_panics_the_worker_witness :
  Run_body Sample.sys Sample2.column0 Sample2.rpc0
    = Panic "invalid memory address or nil pointer dereference" /\
  exists c,
    NewRPCClient Sample.sys "r:8087" = Ok (Success c) /\
    (index (clients Sample2.rpc0) (wr_Client Sample2.column0) = Some c ->
     Run_body Sample.sys Sample2.column0 Sample2.rpc0
       = Panic "invalid memory address or nil pointer dereference").
Proof.
  destruct (rpc_client_panics_the_worker Sample.sys Sample2.rpc0 Sample2.column0
              "r:8087" "rpc error: code = Unauthenticated") as [Hnil Hnew].
  - reflexivity.
  - split.
    + apply (Hnil None); reflexivity.
    + apply Hnew; reflexivity.
Defined.

Lemma RoundRobinWriter_shares_the_cursor_witness :
  exists b' t,
    go_range [DoWrite (Some Sample.payload); DoWriteColumn "cpu" None; DoWrite None]
             perform (RoundRobinWriter Sample.running0 0)
      = Ok (tt,
            RoundRobinWriter b'
              (len [DoWrite (Some Sample.payload); DoWriteColumn "cpu" None; DoWrite None]
               mod len (clients Sample.running0)), t) /\
    attempts t =
      imap (fun k d => request_of (Z.of_nat k mod len (clients Sample.running0)) d)
           [DoWrite (Some Sample.payload); DoWriteColumn "cpu" None; DoWrite None].
Proof.
  apply (RoundRobinWriter_shares_the_cursor Sample.running0
           [DoWrite (Some Sample.payload); DoWriteColumn "cpu" None; DoWrite None]).
  - reflexivity.
  - simpl. discriminate.
Defined.

Lemma NewSubscriberWriter_returns_a_writer_iff_witness :
  NewSubscriberWriter Sample.sys Sample.config "db0" "rp0" "D" "ANY" ["http://d:1"]
                      NewSubscriberManager
    = Ok (Success (length (heap NewSubscriberManager)),
          with_heap NewSubscriberManager (heap NewSubscriberManager ++ [Sample.writerD]), []).
Proof.
  apply (proj2 (NewSubscriberWriter_returns_a_writer_iff Sample.sys Sample.config
                  "db0" "rp0" "D" "ANY" ["http://d:1"] NewSubscriberManager
                  (with_heap NewSubscriberManager
                     (heap NewSubscriberManager ++ [Sample.writerD]))
                  (length (heap NewSubscriberManager)) [])).
  exists [HTTPClient 30 None (mkURL "http" "d:1" "http://d:1")], Sample.writerD.
  split; [repeat constructor|]. split; [right; split; reflexivity|].
  repeat split; reflexivity.
Defined.

Lemma NewSubscriberWriter_rejects_a_bad_destination_witness :
  exists e,
    NewSubscriberWriter Sample.sys Sample.config "db0" "rp0" "S" "ALL"
                        ["http://a:1"; "ftp://x"] NewSubscriberManager
      = Ok (Failure e, NewSubscriberManager, []).
Proof.
  apply (NewSubscriberWriter_rejects_a_bad_destination Sample.sys Sample.config
           "db0" "rp0" "S" "ALL" "ftp://x" ["http://a:1"; "ftp://x"] NewSubscriberManager).
  - intros d Hd.
    apply elem_of_cons in Hd as [->|Hd]; [eexists; reflexivity|].
    apply elem_of_cons in Hd as [->|Hd]; [eexists; reflexivity|].
    by apply elem_of_nil in Hd.
  - right. left.
  - right. left. exists (mkURL "ftp" "x" "ftp://x").
    split; [reflexivity|]. simpl. repeat split; discriminate.
Defined.

Lemma NewSubscriberWriter_rejects_an_unknown_mode_witness :
  (forall r s' t,
      NewSubscriberWriter Sample.sys Sample.config "db0" "rp0" "S" "ONE" ["http://a:1"]
                          NewSubscriberManager = Ok (r, s', t) ->
      (exists e, r = Failure e) /\ s' = NewSubscriberManager /\ t = []) /\
  (forall clients,
      Forall2 (fun d c => newClient Sample.sys Sample.config d = Ok (Success c))
              ["http://a:1"] clients ->
      NewSubscriberWriter Sample.sys Sample.config "db0" "rp0" "S" "ONE" ["http://a:1"]
                          NewSubscriberManager
        = Ok (Failure ("unknown subscription mode " +:+ "ONE"), NewSubscriberManager, [])).
Proof.
  apply (NewSubscriberWriter_rejects_an_unknown_mode Sample.sys Sample.config
           "db0" "rp0" "S" "ONE" ["http://a:1"] NewSubscriberManager); discriminate.
Defined.

Lemma InitWriters_subs_skips_failed_subscriptions_witness :
  exists t,
    InitWriters_subs Sample.sys Sample.config "db0" "rp0"
                     [Sample.subA; Sample2.subBad; Sample.subD] [] NewSubscriberManager =
      Ok ([] ++ seq (length (heap NewSubscriberManager))
                    (length (initialized Sample.sys Sample.config "db0" "rp0"
                               [Sample.subA; Sample2.subBad; Sample.subD])),
          with_heap NewSubscriberManager
            (heap NewSubscriberManager ++
               initialized Sample.sys Sample.config "db0" "rp0"
                 [Sample.subA; Sample2.subBad; Sample.subD]), t) /\
    started_locs t =
      seq (length (heap NewSubscriberManager))
          (length (initialized Sample.sys Sample.config "db0" "rp0"
                     [Sample.subA; Sample2.subBad; Sample.subD])) /\
    stopped_locs t = [] /\
    errors_at t = construction_errors Sample.sys Sample.config "db0" "rp0"
                    [Sample.subA; Sample2.subBad; Sample.subD].
Proof.
  apply (InitWriters_subs_skips_failed_subscriptions Sample.sys Sample.config "db0" "rp0"
           [Sample.subA; Sample2.subBad; Sample.subD] [] NewSubscriberManager).
  - simpl. lia.
  - repeat constructor; eexists; reflexivity.
Defined.

Lemma InitWriters_leaves_nothing_to_reconcile_witness :
  lastModifiedID Sample.managerABC = GetMaxSubscriptionID Sample.metaABC /\
  Update_turn Sample.sys Sample.config Sample.metaABC Sample.managerABC
    = Ok (tt, Sample.managerABC, []) /\
  exists t2,
    UpdateWriters Sample.sys Sample.config Sample.metaABC Sample.managerABC
      = Ok (tt, Sample.managerABC, t2) /\
    started_locs t2 = [] /\ stopped_locs t2 = [].
Proof.
  apply (InitWriters_leaves_nothing_to_reconcile Sample.sys Sample.config Sample.metaABC
           NewSubscriberManager Sample.managerABC Sample2.traceABC).
  - split.
    + apply (bool_decide_unpack _). reflexivity.
    + repeat constructor; apply (bool_decide_unpack _); reflexivity.
  - vm_compute. reflexivity.
Defined.

Lemma Update_turn_reconciles_once_per_generation_witness :
  lastModifiedID (with_lastModifiedID Sample.managerAD 4)
    = N.max (lastModifiedID Sample.managerABC) (GetMaxSubscriptionID Sample.metaAD) /\
  ((GetMaxSubscriptionID Sample.metaAD <= lastModifiedID Sample.managerABC)%N ->
   with_lastModifiedID Sample.managerAD 4 = Sample.managerABC /\ Sample.traceAD = []) /\
  ((lastModifiedID Sample.managerABC < GetMaxSubscriptionID Sample.metaAD)%N ->
   exists s2,
     UpdateWriters Sample.sys Sample.config Sample.metaAD Sample.managerABC
       = Ok (tt, s2, Sample.traceAD) /\
     with_lastModifiedID Sample.managerAD 4
       = with_lastModifiedID s2 (GetMaxSubscriptionID Sample.metaAD)) /\
  Update_turn Sample.sys Sample.config Sample.metaAD (with_lastModifiedID Sample.managerAD 4)
    = Ok (tt, with_lastModifiedID Sample.managerAD 4, []).
Proof.
  apply (Update_turn_reconciles_once_per_generation Sample.sys Sample.config Sample.metaAD
           Sample.managerABC (with_lastModifiedID Sample.managerAD 4) Sample.traceAD).
  vm_compute. reflexivity.
Defined.

Lemma UpdateWriters_keeps_unlisted_entries_witness :
  lookup_writers Sample2.managerKept "db0" EmptyString
    = lookup_writers Sample.managerUnnamed "db0" EmptyString /\
  heap Sample2.managerKept !! 0%nat = heap Sample.managerUnnamed !! 0%nat /\
  (0%nat ∉ stopped_locs Sample2.traceKept) /\
  0%nat ∈ default [] (lookup_writers Sample2.managerKept "db0" EmptyString).
Proof.
  destruct (UpdateWriters_keeps_unlisted_entries Sample.sys Sample.config Sample.metaAD
              Sample.managerUnnamed Sample2.managerKept Sample2.traceKept "db0" EmptyString)
    as (Hentry & _ & Hwriters).
  - vm_compute. reflexivity.
  - intros dbi rpi Hdbi Hrpi. simpl in Hdbi.
    apply list_elem_of_singleton in Hdbi as ->. simpl in Hrpi.
    apply list_elem_of_singleton in Hrpi as ->. discriminate.
  - split; [exact Hentry|]. apply Hwriters.
    + vm_compute. left.
    + eexists. reflexivity.
    + intros dbi rpi Hdbi Hrpi. simpl in Hdbi.
      apply list_elem_of_singleton in Hdbi as ->. simpl in Hrpi.
      apply list_elem_of_singleton in Hrpi as ->. vm_compute. apply not_elem_of_nil.
Defined.

Lemma UpdateWriters_rp_compares_names_only_witness :
  exists t,
    UpdateWriters_rp Sample.sys Sample.config "db0" Sample2.rpABC' Sample.managerABC
      = Ok (tt, Sample.managerABC, t) /\
    started_locs t = [] /\ stopped_locs t = [].
Proof.
  apply (UpdateWriters_rp_compares_names_only Sample.sys Sample.config Sample.managerABC
           "db0" Sample2.rpABC' [0; 1; 2]%nat).
  - reflexivity.
  - repeat constructor; eexists; reflexivity.
  - apply (bool_decide_unpack _). reflexivity.
  - intros n. reflexivity.
Defined.

Lemma Send_only_enqueues_witness :
  writers Sample2.managerSent = writers Sample.managerABC /\
  lastModifiedID Sample2.managerSent = lastModifiedID Sample.managerABC /\
  length (heap Sample2.managerSent) = length (heap Sample.managerABC) /\
  (forall l, name_at (heap Sample2.managerSent) l = name_at (heap Sample.managerABC) l) /\
  started_locs Sample2.traceSent = [] /\ stopped_locs Sample2.traceSent = [] /\
  forall l wr, (l, wr) ∈ forwarded Sample2.traceSent ->
               exists i, wr = request_of i (DoWrite (Some Sample.payload)).
Proof.
  apply (Send_only_enqueues Sample.metaKnown Sample.managerABC Sample2.managerSent
           Sample2.traceSent "db0" EmptyString (DoWrite (Some Sample.payload))).
  vm_compute. reflexivity.
Defined.

Lemma Send_with_a_named_retention_policy_witness :
  (forall client', SubscriberManager_perform client' "db0" "rp0" (DoWriteColumn "cpu" None)
                     Sample.managerABC
                   = Ok (tt, Sample2.managerSentColumn, Sample2.traceSentColumn)) /\
  errors_at Sample2.traceSentColumn = [] /\
  (forall l, l ∉ default [] (lookup_writers Sample.managerABC "db0" "rp0") ->
             heap Sample2.managerSentColumn !! l = heap Sample.managerABC !! l) /\
  (forall l wr, (l, wr) ∈ forwarded Sample2.traceSentColumn ->
                l ∈ default [] (lookup_writers Sample.managerABC "db0" "rp0")).
Proof.
  destruct (Send_with_a_named_retention_policy Sample.metaABC Sample.managerABC
              Sample2.managerSentColumn Sample2.traceSentColumn
              "db0" "rp0" (DoWriteColumn "cpu" None)) as [_ Hsome].
  - discriminate.
  - apply Hsome. vm_compute. reflexivity.
Defined.

Lemma StopAllWriters_closes_every_registered_writer_witness :
  writers Sample2.managerStopped = writers Sample.managerABC /\
  lastModifiedID Sample2.managerStopped = lastModifiedID Sample.managerABC /\
  stopped_locs Sample2.traceStopped ≡ₚ registered Sample.managerABC /\
  started_locs Sample2.traceStopped = [] /\
  (forall l, l ∈ registered Sample.managerABC -> closed_at Sample2.managerStopped l) /\
  (registered Sample.managerABC <> [] ->
   StopAllWriters Sample2.managerStopped = Panic "close of closed channel").
Proof.
  apply (StopAllWriters_closes_every_registered_writer Sample.managerABC
           Sample2.managerStopped Sample2.traceStopped).
  vm_compute. reflexivity.
Defined.

Lemma UpdateWriters_rp_is_a_diff_by_name_witness :
  lookup_writers Sample.managerAD "db0" (rp_Name Sample.rpAD)
    = Some (filter (named_in (heap Sample.managerABC)
                      (list_to_set (sub_Name <$> Subscriptions Sample.rpAD)))
                   [0; 1; 2]%nat
              ++ seq (length (heap Sample.managerABC))
                     (length (created Sample.sys Sample.config "db0" (rp_Name Sample.rpAD)
                                (Subscriptions Sample.rpAD)
                                (list_to_set
                                   (names_at (heap Sample.managerABC) [0; 1; 2]%nat))))) /\
  stopped_locs Sample2.traceRpAD
    = filter (fun l => ~ named_in (heap Sample.managerABC)
                          (list_to_set (sub_Name <$> Subscriptions Sample.rpAD)) l)
             [0; 1; 2]%nat /\
  started_locs Sample2.traceRpAD
    = seq (length (heap Sample.managerABC))
          (length (created Sample.sys Sample.config "db0" (rp_Name Sample.rpAD)
                     (Subscriptions Sample.rpAD)
                     (list_to_set (names_at (heap Sample.managerABC) [0; 1; 2]%nat)))) /\
  (forall k w,
      created Sample.sys Sample.config "db0" (rp_Name Sample.rpAD)
        (Subscriptions Sample.rpAD)
        (list_to_set (names_at (heap Sample.managerABC) [0; 1; 2]%nat)) !! k = Some w ->
      heap Sample.managerAD !! (length (heap Sample.managerABC) + k)%nat = Some w) /\
  (forall l, named_in (heap Sample.managerABC)
               (list_to_set (sub_Name <$> Subscriptions Sample.rpAD)) l ->
             heap Sample.managerAD !! l = heap Sample.managerABC !! l).
Proof.
  apply (UpdateWriters_rp_is_a_diff_by_name Sample.sys Sample.config Sample.managerABC
           Sample.managerAD Sample2.traceRpAD "db0" Sample.rpAD [0; 1; 2]%nat).
  - reflexivity.
  - vm_compute. reflexivity.
Defined.

Lemma UpdateWriters_rp_repeated_name_adds_a_writer_witness :
  exists l,
    (length (heap Sample.managerABC) <= l)%nat /\ l ∈ started_locs Sample2.traceAA /\
    heap Sample2.managerAA !! l = Some (started Sample.config Sample2.writerA) /\
    l ∈ default [] (lookup_writers Sample2.managerAA "db0" (rp_Name Sample2.rpAA)).
Proof.
  apply (UpdateWriters_rp_repeated_name_adds_a_writer Sample.sys Sample.config
           Sample.managerABC Sample2.managerAA Sample2.traceAA "db0" Sample2.rpAA
           [] [] [] Sample.subA Sample.subA Sample2.writerA).
  - reflexivity.
  - reflexivity.
  - reflexivity.
  - vm_compute. reflexivity.
Defined.
